(** * Decision-tree training engine: a shallow embedding

    The development follows the C++ sources of the single-tree engine:
    [Node.hpp], the six split criteria, the exhaustive and quartile split
    finders (and the entry tests of the other five), the four pruners and
    [SingleTreeTrainer.cpp] with its recursive and task-queue paths.
    Around the engine it follows the two functions that split a data
    set, the factory of the pruners, and the ensemble trainer of
    [BaggingTrainer.cpp].

    The C++ type [double] is kept abstract behind the interface [Double];
    two interpretations are provided.  [float] is IEEE binary64 as
    implemented by the kernel's primitive floats: definitions evaluated
    at this instance compute, bit for bit, what the compiled program
    computes.  [R] is the real-number reading of the same arithmetic and
    is used for statements that quantify over all inputs and depend on
    the laws of an ordered field.

    OpenMP loops and reductions are taken in index order, parallel
    regions as run by one thread, and the task queue as served by one
    worker: the order in which the source combines partial results is not
    fixed by it, and this is one of the orders it allows. *)

From Stdlib Require Import ZArith List Bool Lia Floats Reals Lra Permutation Sorted.
From Stdlib Require String.
Import ListNotations.
Import String.StringSyntax.
Delimit Scope string_scope with string.

Set Implicit Arguments.

(** ** The arithmetic of [double] *)

Class Double (D : Type) : Type := {
of_Z  : Z -> D;            (* integer literals, static_cast<double>(n) *)
d0_5  : D;                 (* the literal 0.5  *)
d0_25 : D;                 (* the literal 0.25 *)
d0_75 : D;                 (* the literal 0.75 *)
d1e_12 : D;                (* the literal 1e-12 *)
dadd  : D -> D -> D;
dsub  : D -> D -> D;
dmul  : D -> D -> D;
ddiv  : D -> D -> D;
dabs  : D -> D;            (* std::abs, std::fabs *)
dltb  : D -> D -> bool;    (* operator<  *)
dleb  : D -> D -> bool;    (* operator<= *)
deqb  : D -> D -> bool;    (* operator== *)
to_size_t : D -> Z         (* static_cast<size_t>(x): truncation *)
}.

(** [std::numeric_limits<double>::infinity()], negated. *)
Class Limits (D : Type) : Type := { neg_infinity : D }.

(** The functions of [<cmath>] used by the log-cosh and Poisson criteria. *)
Class Cmath (D : Type) : Type := { dlog : D -> D; dcosh : D -> D }.

(** The members of [union NodeInfo] share their storage: the [int]
  [internal.featureIndex] occupies the low four bytes of the [double]
  [leaf.prediction], and [internal.threshold] coincides with
  [leaf.nodePrediction].  [low_word x] is the [int] found in the low
  four bytes of [x] (x86-64, little endian). *)
Class UnionLayout (D : Type) : Type := { low_word : D -> Z }.

Declare Scope dbl_scope.
Delimit Scope dbl_scope with dbl.
Notation "x + y" := (dadd x y) : dbl_scope.
Notation "x - y" := (dsub x y) : dbl_scope.
Notation "x * y" := (dmul x y) : dbl_scope.
Notation "x / y" := (ddiv x y) : dbl_scope.
Notation "x <? y" := (dltb x y) : dbl_scope.
Notation "x <=? y" := (dleb x y) : dbl_scope.
Notation "x =? y" := (deqb x y) : dbl_scope.
Notation "x >? y" := (dltb y x) : dbl_scope.
Notation "x !=? y" := (negb (deqb x y)) (at level 70) : dbl_scope.

(** *** IEEE binary64 *)

Definition float_of_Z (z : Z) : float :=
SF2Prim (binary_normalize prec emax z 0 false).

Definition float_to_Z (x : float) : Z :=
match Prim2SF x with
| S754_finite s m e =>
    let a := Z.shiftl (Z.pos m) e in if s then (- a)%Z else a
| _ => 0%Z
end.

(** The 52-bit fraction field of a binary64 value is its significand
  less the hidden bit, and 2^52 is a multiple of 2^32. *)
Definition float_low_word (x : float) : Z :=
match Prim2SF x with
| S754_finite _ m _ =>
    let w := (Z.pos m mod 2 ^ 32)%Z in
    if (w <? 2 ^ 31)%Z then w else (w - 2 ^ 32)%Z
| _ => 0%Z
end.

#[export] Instance Double_float : Double float := {|
of_Z := float_of_Z;
d0_5 := 0x1p-1%float;
d0_25 := 0x1p-2%float;
d0_75 := 0x1.8p-1%float;
d1e_12 := 0x1.19799812dea11p-40%float;
dadd := PrimFloat.add;
dsub := PrimFloat.sub;
dmul := PrimFloat.mul;
ddiv := PrimFloat.div;
dabs := PrimFloat.abs;
dltb := PrimFloat.ltb;
dleb := PrimFloat.leb;
deqb := PrimFloat.eqb;
to_size_t := float_to_Z
|}.

#[export] Instance Limits_float : Limits float :=
{| neg_infinity := PrimFloat.neg_infinity |}.

#[export] Instance UnionLayout_float : UnionLayout float :=
{| low_word := float_low_word |}.

(** *** Real numbers *)

Definition Rltb (x y : R) : bool := if Rlt_dec x y then true else false.
Definition Rleb (x y : R) : bool := if Rle_dec x y then true else false.
Definition Reqb (x y : R) : bool := if Req_dec_T x y then true else false.
Definition Rtrunc (x : R) : Z :=
if Rle_dec 0 x then Int_part x else (- Int_part (- x))%Z.

#[export] Instance Double_R : Double R := {|
of_Z := IZR;
d0_5 := (5 / 10)%R;
d0_25 := (25 / 100)%R;
d0_75 := (75 / 100)%R;
d1e_12 := (/ 1000000000000)%R;
dadd := Rplus;
dsub := Rminus;
dmul := Rmult;
ddiv := Rdiv;
dabs := Rabs;
dltb := Rltb;
dleb := Rleb;
deqb := Reqb;
to_size_t := Rtrunc
|}.

#[export] Instance Cmath_R : Cmath R := {| dlog := ln; dcosh := cosh |}.

(** ** Vectors

  [std::vector] is a list.  [operator[]] outside the bounds is undefined
  in the source; the embedding reads 0.0 there. *)

Section Vectors.
Context {D : Type} `{Double D}.

Definition zero : D := of_Z 0.

Definition at_nat (v : list D) (i : nat) : D := nth i v zero.

Definition at_Z (v : list D) (i : Z) : D :=
  if (i <? 0)%Z then zero else nth (Z.to_nat i) v zero.

(** [static_cast<double>(n)] for a [size_t] or [int] count. *)
Definition of_size (n : nat) : D := of_Z (Z.of_nat n).

(** [std::max(a, b)] is [(a < b) ? b : a]; [std::min(a, b)] is
    [(b < a) ? b : a]. *)
Definition std_max (a b : D) : D := if (a <? b)%dbl then b else a.
Definition std_min (a b : D) : D := if (b <? a)%dbl then b else a.

(** The element [data[idx * rowLength + f]] of the row-major matrix. *)
Definition feature (data : list D) (rowLength : Z) (idx : nat) (f : Z) : D :=
  at_Z data (Z.of_nat idx * rowLength + f).

(** [for (...) sum += y[idx[t]]], from [sum = 0.0]. *)
Definition sum_labels (y : list D) (idx : list nat) : D :=
  fold_left (fun s i => (s + at_nat y i)%dbl) idx zero.

(** Insertion of [x] after the elements that are less than it: the
    step of a stable sort under the comparator [lt]. *)
Fixpoint insert_by {A : Type} (lt : A -> A -> bool) (x : A) (l : list A) : list A :=
  match l with
  | [] => [x]
  | y :: l' => if lt y x then y :: insert_by lt x l' else x :: y :: l'
  end.

(** [std::sort(first, last, lt)].  The standard leaves the order of
    equivalent elements open; the embedding keeps them in their
    original order. *)
Definition std_sort {A : Type} (lt : A -> A -> bool) (l : list A) : list A :=
  fold_right (insert_by lt) [] l.

End Vectors.

(** ** Node.hpp *)

Section NodeDef.
Context {D : Type} `{Double D}.

(** [union NodeInfo]: the member last written.  The raw [left] and
    [right] pointers of the internal member are only ever written (they
    duplicate [leftChild.get()] and [rightChild.get()]) and are left out. *)
Inductive NodeInfo : Type :=
| internal (featureIndex : Z) (threshold : D)
| leaf (prediction nodePrediction : D).

#[local] Unset Elimination Schemes.
Inductive Node : Type := mkNode {
  isLeaf     : bool;
  samples    : nat;
  metric     : D;
  info       : NodeInfo;
  leftChild  : option Node;      (* std::unique_ptr<Node> *)
  rightChild : option Node
}.
#[local] Set Elimination Schemes.

(** [Node()] *)
Definition newNode : Node := mkNode false 0 zero (internal (-1) zero) None None.

Definition set_metric (n : Node) (m : D) : Node :=
  mkNode (isLeaf n) (samples n) m (info n) (leftChild n) (rightChild n).
Definition set_samples (n : Node) (s : nat) : Node :=
  mkNode (isLeaf n) s (metric n) (info n) (leftChild n) (rightChild n).
Definition set_isLeaf (n : Node) (b : bool) : Node :=
  mkNode b (samples n) (metric n) (info n) (leftChild n) (rightChild n).
Definition set_children (n : Node) (l r : option Node) : Node :=
  mkNode (isLeaf n) (samples n) (metric n) (info n) l r.

Definition makeLeaf (n : Node) (prediction nodePrediction : D) : Node :=
  mkNode true (samples n) (metric n)
         (leaf prediction
               (if (nodePrediction !=? zero)%dbl then nodePrediction else prediction))
         None None.

(** [makeLeaf(prediction)], the second argument defaulted to 0.0. *)
Definition makeLeaf1 (n : Node) (prediction : D) : Node := makeLeaf n prediction zero.

Definition makeInternal (n : Node) (featureIndex : Z) (threshold : D) : Node :=
  mkNode false (samples n) (metric n) (internal featureIndex threshold)
         (leftChild n) (rightChild n).

(** Reads of the union's members.  A member read while the other one
    was written last sees the shared bytes. *)
Definition internal_featureIndex `{UnionLayout D} (i : NodeInfo) : Z :=
  match i with
  | internal f _ => f
  | leaf p _ => low_word p
  end.

Definition internal_threshold (i : NodeInfo) : D :=
  match i with
  | internal _ t => t
  | leaf _ np => np
  end.

(** [leaf.prediction] extends over the four bytes after [featureIndex],
    which the embedding does not keep; the read is not reached, since
    [isLeaf] is set only by [makeLeaf], and is given as 0.0. *)
Definition leaf_prediction (i : NodeInfo) : D :=
  match i with
  | leaf p _ => p
  | internal _ _ => zero
  end.

Definition leaf_nodePrediction (i : NodeInfo) : D :=
  match i with
  | leaf _ np => np
  | internal _ t => t
  end.

Definition getFeatureIndex `{UnionLayout D} (n : Node) : Z :=
  if isLeaf n then (-1)%Z else internal_featureIndex (info n).
Definition getThreshold (n : Node) : D :=
  if isLeaf n then zero else internal_threshold (info n).
Definition getPrediction (n : Node) : D :=
  if isLeaf n then leaf_prediction (info n) else zero.
Definition getNodePrediction (n : Node) : D :=
  if isLeaf n then leaf_nodePrediction (info n) else zero.
Definition getLeft (n : Node) : option Node :=
  if isLeaf n then None else leftChild n.
Definition getRight (n : Node) : option Node :=
  if isLeaf n then None else rightChild n.

End NodeDef.

Arguments NodeInfo D : clear implicits.
Arguments Node D : clear implicits.

(** Dereferencing a null [Node*] ends the run.  [Exec A] is the outcome
  of code that follows child pointers. *)
Inductive Exec (A : Type) : Type :=
| Ok (a : A)
| NullDeref.
Arguments Ok {A} a.
Arguments NullDeref {A}.

Definition bind {A B : Type} (m : Exec A) (k : A -> Exec B) : Exec B :=
match m with
| Ok a => k a
| NullDeref => NullDeref
end.

Definition deref {A : Type} (p : option A) : Exec A :=
match p with
| Some a => Ok a
| None => NullDeref
end.

Notation "x <- m ;; k" := (bind m (fun x => k))
(at level 61, m at next level, right associativity).

(** ** ISplitCriterion and the criteria *)

Record ISplitCriterion (D : Type) : Type := {
nodeMetric : list D -> list nat -> D
}.

Module MSECriterion.
Section Def.
Context {D : Type} `{Double D}.

Definition nodeMetric (labels : list D) (indices : list nat) : D :=
  match indices with
  | [] => zero
  | _ =>
      let n := length indices in
      let '(sum, sumSq) :=
        fold_left (fun '(sum, sumSq) i =>
                     let y := at_nat labels i in
                     (sum + y, sumSq + y * y)%dbl)
                  indices (zero, zero) in
      let mean := (sum / of_size n)%dbl in
      let mse := (sumSq / of_size n - mean * mean)%dbl in
      std_max zero mse
  end.

Definition make : ISplitCriterion D := Build_ISplitCriterion nodeMetric.
End Def.
End MSECriterion.

Module MAECriterion.
Section Def.
Context {D : Type} `{Double D}.

(** [std::max_element] over a non-empty range: the first largest value. *)
Definition max_element (v : list D) : D :=
  match v with
  | [] => zero
  | x :: v' => fold_left (fun best y => if (best <? y)%dbl then y else best) v' x
  end.

(** [subsetMedianParallel].  [std::nth_element(v.begin(), mid_it, v.end())]
    places at [mid_it] the value a sort would place there, with no larger
    value before it; the embedding sorts the whole range. *)
Definition subsetMedianParallel (y : list D) (idx : list nat) : D :=
  let v := map (at_nat y) idx in
  let n := length v in
  let mid := Nat.div n 2 in
  let v := std_sort dltb v in
  if Nat.eqb (Nat.modulo n 2) 1 then at_nat v mid
  else
    let left := max_element (firstn mid v) in
    (d0_5 * (left + at_nat v mid))%dbl.

Definition nodeMetric (labels : list D) (indices : list nat) : D :=
  match indices with
  | [] => zero
  | _ =>
      let med := subsetMedianParallel labels indices in
      let sumAbs :=
        fold_left (fun sumAbs i => (sumAbs + dabs (at_nat labels i - med))%dbl)
                  indices zero in
      (sumAbs / of_size (length indices))%dbl
  end.

Definition make : ISplitCriterion D := Build_ISplitCriterion nodeMetric.
End Def.
End MAECriterion.

Module HuberCriterion.
Section Def.
Context {D : Type} `{Double D}.
Variable delta_ : D.

Definition nodeMetric (y : list D) (idx : list nat) : D :=
  match idx with
  | [] => zero
  | _ =>
      let d := delta_ in
      let n := length idx in
      let sum := sum_labels y idx in
      let mu := (sum / of_size n)%dbl in
      let loss :=
        fold_left (fun loss t =>
                     let r := (at_nat y t - mu)%dbl in
                     let abs_r := dabs r in
                     if (abs_r <=? d)%dbl
                     then (loss + d0_5 * r * r)%dbl
                     else (loss + d * (abs_r - d0_5 * d))%dbl)
                  idx zero in
      (loss / of_size n)%dbl
  end.

Definition make : ISplitCriterion D := Build_ISplitCriterion nodeMetric.
End Def.
End HuberCriterion.

Module LogCoshCriterion.
Section Def.
Context {D : Type} `{Double D} `{Cmath D}.

Definition nodeMetric (y : list D) (idx : list nat) : D :=
  match idx with
  | [] => zero
  | _ =>
      let n := length idx in
      let sum := sum_labels y idx in
      let mu := (sum / of_size n)%dbl in
      let loss :=
        fold_left (fun loss t =>
                     let r := (at_nat y t - mu)%dbl in
                     (loss + dlog (dcosh r))%dbl)
                  idx zero in
      (loss / of_size n)%dbl
  end.

Definition make : ISplitCriterion D := Build_ISplitCriterion nodeMetric.
End Def.
End LogCoshCriterion.

Module PoissonCriterion.
Section Def.
Context {D : Type} `{Double D} `{Cmath D}.

Definition nodeMetric (y : list D) (idx : list nat) : D :=
  match idx with
  | [] => zero
  | _ =>
      let n := length idx in
      let sum := sum_labels y idx in
      let mu := std_max (sum / of_size n)%dbl d1e_12 in
      let loss :=
        fold_left (fun loss t =>
                     let yi := std_max (at_nat y t) d1e_12 in
                     (loss + (mu - yi * dlog mu))%dbl)
                  idx zero in
      (loss / of_size n)%dbl
  end.

Definition make : ISplitCriterion D := Build_ISplitCriterion nodeMetric.
End Def.
End PoissonCriterion.

Module QuantileCriterion.
Section Def.
Context {D : Type} `{Double D}.
Variable tau_ : D.

(** [std::nth_element(vals.begin(), vals.begin() + k, vals.end())] is
    embedded as a sort of the whole range, as in [MAECriterion]. *)
Definition nodeMetric (y : list D) (idx : list nat) : D :=
  match idx with
  | [] => zero
  | _ =>
      let n := length idx in
      let vals := map (at_nat y) idx in
      let k := to_size_t (tau_ * of_size (n - 1))%dbl in
      let vals := std_sort dltb vals in
      let q := at_Z vals k in
      let loss :=
        fold_left (fun loss vi =>
                     let v := (vi - q)%dbl in
                     (loss + (if (v <? zero)%dbl
                              then (tau_ - of_Z 1) * v
                              else tau_ * v))%dbl)
                  vals zero in
      (loss / of_size n)%dbl
  end.

Definition make : ISplitCriterion D := Build_ISplitCriterion nodeMetric.
End Def.
End QuantileCriterion.

(** [static_cast<size_t>(n)] for an [int] [n], and arithmetic on
    [size_t], are modulo 2^64. *)
Definition size_t_of_int (n : Z) : Z := (n mod 2 ^ 64)%Z.
Definition size_t_mul (a b : Z) : Z := ((a * b) mod 2 ^ 64)%Z.

(** ** ISplitFinder and the finders

    [findBestSplit] returns the tuple (featureIndex, threshold, gain). *)

Record ISplitFinder (D : Type) : Type := {
  findBestSplit :
    list D -> Z -> list D -> list nat -> D -> ISplitCriterion D -> Z * D * D
}.

(** [for (int f = 0; f < rowLength; ++f)] *)
Definition features (rowLength : Z) : list Z :=
  map Z.of_nat (seq 0 (Z.to_nat rowLength)).

Module ExhaustiveSplitFinder.
Section Def.
Context {D : Type} `{Double D}.
Variables (data : list D) (rowLength : Z) (labels : list D).

Definition EPS : D := d1e_12.

(** The totals over the node, accumulated in index order. *)
Definition totals (indices : list nat) : D * D :=
  fold_left (fun '(totalSum, totalSumSq) i =>
               let y := at_nat labels i in
               (totalSum + y, totalSumSq + y * y)%dbl)
            indices (zero, zero).

(** The gain of the split that sends [leftCnt] of the [N] samples, with
    label sum [leftSum] and sum of squares [leftSumSq], to the left. *)
Definition gain_of (N : nat) (totalSum totalSumSq parentMSE : D)
           (leftCnt : nat) (leftSum leftSumSq : D) : D :=
  let rightCnt := (N - leftCnt)%nat in
  let rightSum := (totalSum - leftSum)%dbl in
  let rightSumSq := (totalSumSq - leftSumSq)%dbl in
  let leftMean := (leftSum / of_size leftCnt)%dbl in
  let rightMean := (rightSum / of_size rightCnt)%dbl in
  let leftMSE := (leftSumSq / of_size leftCnt - leftMean * leftMean)%dbl in
  let rightMSE := (rightSumSq / of_size rightCnt - rightMean * rightMean)%dbl in
  (parentMSE - (leftMSE * of_size leftCnt + rightMSE * of_size rightCnt) / of_size N)%dbl.

(** The loop [for (size_t i = 0; i < N - 1; ++i)] over the sorted
    indices of feature [f]; [sorted] is the part from position [i] on. *)
Fixpoint scan (N : nat) (totalSum totalSumSq parentMSE : D) (f : Z)
         (sorted : list nat) (i : nat) (leftSum leftSumSq : D)
         (best : Z * D * D) : Z * D * D :=
  match sorted with
  | idx :: ((next :: _) as rest) =>
      let y := at_nat labels idx in
      let leftSum := (leftSum + y)%dbl in
      let leftSumSq := (leftSumSq + y * y)%dbl in
      let currentVal := feature data rowLength idx f in
      let nextVal := feature data rowLength next f in
      let best :=
        if (currentVal + EPS <? nextVal)%dbl then
          let gain := gain_of N totalSum totalSumSq parentMSE (S i) leftSum leftSumSq in
          if (gain >? snd best)%dbl
          then (f, (d0_5 * (currentVal + nextVal))%dbl, gain)
          else best
        else best in
      scan N totalSum totalSumSq parentMSE f rest (S i) leftSum leftSumSq best
  | _ => best
  end.

(** One iteration of the loop over the features. *)
Definition scan_feature (N : nat) (totalSum totalSumSq parentMSE : D)
           (indices : list nat) (best : Z * D * D) (f : Z) : Z * D * D :=
  let sortedIdx :=
    std_sort (fun a b => (feature data rowLength a f <? feature data rowLength b f)%dbl)
             indices in
  scan N totalSum totalSumSq parentMSE f sortedIdx 0 zero zero best.

(** The parallel region ([N > 1000]) is embedded as run by a team of one
    thread: the thread-local best is found over all features and merged
    into the global one in the critical section. *)
Definition findBestSplit (indices : list nat) (currentMetric : D)
           (criterion : ISplitCriterion D) : Z * D * D :=
  let N := length indices in
  if (N <? 2)%nat then ((-1)%Z, zero, zero)
  else
    let '(totalSum, totalSumSq) := totals indices in
    let parentMean := (totalSum / of_size N)%dbl in
    let parentMSE := (totalSumSq / of_size N - parentMean * parentMean)%dbl in
    let globalBest := ((-1)%Z, zero, zero) in
    let useParallel := (1000 <? N)%nat in
    if useParallel then
      let localBest :=
        fold_left (scan_feature N totalSum totalSumSq parentMSE indices)
                  (features rowLength) ((-1)%Z, zero, zero) in
      if (snd localBest >? snd globalBest)%dbl then localBest else globalBest
    else
      fold_left (scan_feature N totalSum totalSumSq parentMSE indices)
                (features rowLength) globalBest.

End Def.

Definition make {D : Type} `{Double D} : ISplitFinder D :=
  Build_ISplitFinder (fun data rowLength labels => findBestSplit data rowLength labels).

End ExhaustiveSplitFinder.

Module QuartileSplitFinder.
Section Def.
Context {D : Type} `{Double D} `{Limits D}.
Variables (X : list D) (D_ : Z) (y : list D).

Definition EPS : D := d1e_12.

(** The thresholds tried for one feature: the quartiles of its sorted
    values, without repetitions. *)
Definition thrList (vals : list D) : list D :=
  let nVals := length vals in
  let q1 := at_Z vals (to_size_t (d0_25 * of_size (nVals - 1))%dbl) in
  let q2 := at_Z vals (to_size_t (d0_5 * of_size (nVals - 1))%dbl) in
  let q3 := at_Z vals (to_size_t (d0_75 * of_size (nVals - 1))%dbl) in
  [q1]
  ++ (if (dabs (q2 - q1) >? EPS)%dbl then [q2] else [])
  ++ (if (dabs (q3 - q2) >? EPS)%dbl && (dabs (q3 - q1) >? EPS)%dbl then [q3] else []).

(** The buffers [leftBuf] and [rightBuf] filled for the threshold [thr]. *)
Definition buffers (idx : list nat) (f : Z) (thr : D) : list nat * list nat :=
  fold_left (fun '(leftBuf, rightBuf) i =>
               if (feature X D_ i f <=? thr)%dbl
               then (leftBuf ++ [i], rightBuf)
               else (leftBuf, rightBuf ++ [i]))
            idx ([], []).

(** One pass of the loop over the thresholds; the state is
    (localBestThr, localBestGain). *)
Definition try_threshold (idx : list nat) (parentMetric : D)
           (crit : ISplitCriterion D) (f : Z) (st : D * D) (thr : D) : D * D :=
  let '(leftBuf, rightBuf) := buffers idx f thr in
  match leftBuf, rightBuf with
  | [], _ | _, [] => st
  | _, _ =>
      let N := length idx in
      let mL := nodeMetric crit y leftBuf in
      let mR := nodeMetric crit y rightBuf in
      let gain :=
        (parentMetric
         - (mL * of_size (length leftBuf) + mR * of_size (length rightBuf))
           / of_size N)%dbl in
      if (gain >? snd st)%dbl then (thr, gain) else st
  end.

(** The body of the loop over the features, the critical section
    included; the iterations are taken in the order of [f]. *)
Definition scan_feature (idx : list nat) (parentMetric : D)
           (crit : ISplitCriterion D) (best : Z * D * D) (f : Z) : Z * D * D :=
  let vals := map (fun i => feature X D_ i f) idx in
  if (length vals <? 4)%nat then best
  else
    let vals := std_sort dltb vals in
    let '(localBestThr, localBestGain) :=
      fold_left (try_threshold idx parentMetric crit f) (thrList vals)
                (zero, neg_infinity) in
    if (localBestGain >? snd best)%dbl then (f, localBestThr, localBestGain)
    else best.

Definition findBestSplit (idx : list nat) (parentMetric : D)
           (crit : ISplitCriterion D) : Z * D * D :=
  if (length idx <? 4)%nat then ((-1)%Z, zero, zero)
  else
    fold_left (scan_feature idx parentMetric crit) (features D_)
              ((-1)%Z, zero, neg_infinity).

End Def.

Definition make {D : Type} `{Double D} `{Limits D} : ISplitFinder D :=
  Build_ISplitFinder (fun X D_ y => findBestSplit X D_ y).

End QuartileSplitFinder.

(** *** The other finders

    The random, histogram and adaptive finders open with a test of the
    subset size.  Only that test is embedded: what the finder does past
    it (the draws from [gen_], the precomputed histograms and their
    thread-local manager, the binning rules) is the function [search]. *)

Module RandomSplitFinder.
Section Def.
Context {D : Type} `{Double D}.
Variable search : list D -> Z -> list D -> list nat -> D -> ISplitCriterion D -> Z * D * D.

Definition findBestSplit (X : list D) (D_ : Z) (y : list D) (idx : list nat)
           (parentMetric : D) (crit : ISplitCriterion D) : Z * D * D :=
  let nIdx := Z.of_nat (length idx) in
  if (nIdx <? 2)%Z then ((-1)%Z, zero, zero)
  else search X D_ y idx parentMetric crit.

End Def.
End RandomSplitFinder.

Module HistogramEWFinder.
Section Def.
Context {D : Type} `{Double D}.
Variable search : list D -> Z -> list D -> list nat -> D -> ISplitCriterion D -> Z * D * D.

Definition findBestSplit (X : list D) (D_ : Z) (y : list D) (idx : list nat)
           (parentMetric : D) (crit : ISplitCriterion D) : Z * D * D :=
  if (length idx <? 2)%nat then ((-1)%Z, zero, zero)
  else search X D_ y idx parentMetric crit.

End Def.
End HistogramEWFinder.

Module HistogramEQFinder.
Section Def.
Context {D : Type} `{Double D}.
Variable search : list D -> Z -> list D -> list nat -> D -> ISplitCriterion D -> Z * D * D.

Definition findBestSplit (X : list D) (D_ : Z) (y : list D) (idx : list nat)
           (parentMetric : D) (crit : ISplitCriterion D) : Z * D * D :=
  let N := length idx in
  if (N <? 2)%nat then ((-1)%Z, zero, zero)
  else search X D_ y idx parentMetric crit.

End Def.
End HistogramEQFinder.

Module AdaptiveEWFinder.
Section Def.
Context {D : Type} `{Double D}.
Variable search : list D -> Z -> list D -> list nat -> D -> ISplitCriterion D -> Z * D * D.

Definition findBestSplit (data : list D) (rowLen : Z) (labels : list D) (idx : list nat)
           (parentMetric : D) (criterion : ISplitCriterion D) : Z * D * D :=
  let N := length idx in
  if (N <? 2)%nat then ((-1)%Z, zero, zero)
  else search data rowLen labels idx parentMetric criterion.

End Def.
End AdaptiveEWFinder.

Module AdaptiveEQFinder.
Section Def.
Context {D : Type} `{Double D}.
Variable minSamplesPerBin_ : Z.
Variable search : list D -> Z -> list D -> list nat -> D -> ISplitCriterion D -> Z * D * D.

Definition findBestSplit (data : list D) (rowLen : Z) (labels : list D) (idx : list nat)
           (parentMetric : D) (criterion : ISplitCriterion D) : Z * D * D :=
  let N := Z.of_nat (length idx) in
  if (N <? size_t_of_int (2 * minSamplesPerBin_))%Z then ((-1)%Z, zero, zero)
  else search data rowLen labels idx parentMetric criterion.

End Def.
End AdaptiveEQFinder.

(** ** IPruner and the pruners

    The four pruner classes; [dynamic_cast<const MinGainPrePruner*>] is a
    match on the constructor. *)

Inductive IPruner (D : Type) : Type :=
| NoPruner
| MinGainPrePruner (minGain_ : D)
| CostComplexityPruner (alpha_ : D)
| ReducedErrorPruner (Xv_ : list D) (D_ : Z) (yv_ : list D).
Arguments NoPruner {D}.

Module CostComplexityPruner.
Section Def.
Context {D : Type} `{Double D}.
Variable alpha_ : D.

Fixpoint countLeaves_node (node : Node D) : Z :=
  match node with
  | mkNode isLeaf_ _ _ _ left_ right_ =>
      if isLeaf_ then 1%Z
      else
        ((match left_ with Some l => countLeaves_node l | None => 1 end)
         + (match right_ with Some r => countLeaves_node r | None => 1 end))%Z
  end.

Definition countLeaves (node : option (Node D)) : Z :=
  match node with
  | None => 1%Z
  | Some n => countLeaves_node n
  end.

(** [pruneRec(Node* n)]: the node as left by the call, and the returned
    error. *)
Fixpoint pruneRec (n : Node D) : Exec (Node D * D) :=
  match n with
  | mkNode isLeaf_ samples_ metric_ info_ left_ right_ =>
      if isLeaf_ then Ok (n, (metric_ * of_size samples_)%dbl)
      else
        match left_ with
        | None => NullDeref
        | Some l =>
            match pruneRec l with
            | NullDeref => NullDeref
            | Ok (l', errLeft) =>
                match right_ with
                | None => NullDeref
                | Some r =>
                    match pruneRec r with
                    | NullDeref => NullDeref
                    | Ok (r', errRight) =>
                        let n := mkNode isLeaf_ samples_ metric_ info_ (Some l') (Some r') in
                        let subtreeError := (errLeft + errRight)%dbl in
                        let subtreeLeaves :=
                          (countLeaves (getLeft n) + countLeaves (getRight n))%Z in
                        let leafCost := (metric n * of_size (samples n) + alpha_)%dbl in
                        let subtreeCost := (subtreeError + alpha_ * of_Z subtreeLeaves)%dbl in
                        if (leafCost <=? subtreeCost)%dbl then
                          let nodePred := getNodePrediction n in
                          let n := makeLeaf n nodePred nodePred in
                          Ok (n, (metric n * of_size (samples n))%dbl)
                        else Ok (n, subtreeError)
                    end
                end
            end
        end
  end.

Definition prune (root : option (Node D)) : Exec (option (Node D)) :=
  match root with
  | None => Ok None
  | Some n => r <- pruneRec n ;; Ok (Some (fst r))
  end.

End Def.
End CostComplexityPruner.

Module ReducedErrorPruner.
Section Def.
Context {D : Type} `{Double D} `{UnionLayout D}.
Variables (Xv_ : list D) (D_ : Z) (yv_ : list D).

(** The [while (!cur->isLeaf)] descent for the validation row [i]. *)
Fixpoint descend (i : nat) (cur : Node D) : Exec (Node D) :=
  match cur with
  | mkNode isLeaf_ _ _ _ left_ right_ =>
      if isLeaf_ then Ok cur
      else
        let goLeft :=
          (at_Z Xv_ (Z.of_nat i * D_ + getFeatureIndex cur) <=? getThreshold cur)%dbl in
        match (if goLeft then left_ else right_) with
        | None => NullDeref
        | Some c => descend i c
        end
  end.

Definition validate (n : Node D) : Exec D :=
  mse <- fold_left (fun acc i =>
                      mse <- acc ;;
                      cur <- descend i n ;;
                      let diff := (at_nat yv_ i - getPrediction cur)%dbl in
                      Ok (mse + diff * diff)%dbl)
                   (seq 0 (length yv_)) (Ok zero) ;;
  Ok (mse / of_size (length yv_))%dbl.

(** The assignment [n->info.leaf.prediction = oldPred]. *)
Definition write_leaf_prediction (n : Node D) (p : D) : Node D :=
  mkNode (isLeaf n) (samples n) (metric n)
         (leaf p (leaf_nodePrediction (info n))) (leftChild n) (rightChild n).

(** The part of [pruneRec] after the two recursive calls. *)
Definition tryCollapse (n : Node D) : Exec (Node D) :=
  let oldIsLeaf := isLeaf n in
  let oldPred := if isLeaf n then getPrediction n else zero in
  let leftBackup := leftChild n in
  let rightBackup := rightChild n in
  let n := set_children n None None in
  let leafPrediction := getNodePrediction n in
  let leafPrediction :=
    if (leafPrediction =? zero)%dbl && negb oldIsLeaf then zero else leafPrediction in
  let n := makeLeaf n leafPrediction leafPrediction in
  msePruned <- validate n ;;
  let n := set_isLeaf n oldIsLeaf in
  let n := set_children n leftBackup rightBackup in
  let n := if negb (isLeaf n) then n else write_leaf_prediction n oldPred in
  mseOriginal <- validate n ;;
  if (msePruned <=? mseOriginal)%dbl
  then Ok (makeLeaf n leafPrediction leafPrediction)
  else Ok n.

Fixpoint pruneRec_node (n : Node D) : Exec (Node D) :=
  match n with
  | mkNode isLeaf_ samples_ metric_ info_ left_ right_ =>
      if isLeaf_ then Ok n
      else
        match (match left_ with Some l => l' <- pruneRec_node l ;; Ok (Some l')
                           | None => Ok None end) with
        | NullDeref => NullDeref
        | Ok left' =>
            match (match right_ with Some r => r' <- pruneRec_node r ;; Ok (Some r')
                                | None => Ok None end) with
            | NullDeref => NullDeref
            | Ok right' =>
                tryCollapse (mkNode isLeaf_ samples_ metric_ info_ left' right')
            end
        end
  end.

(** [pruneRec(std::unique_ptr<Node>& n)] *)
Definition pruneRec (n : option (Node D)) : Exec (option (Node D)) :=
  match n with
  | None => Ok None
  | Some n => n' <- pruneRec_node n ;; Ok (Some n')
  end.

Definition prune (root : option (Node D)) : Exec (option (Node D)) := pruneRec root.

End Def.
End ReducedErrorPruner.

(** [pruner->prune(root)], by virtual dispatch. *)
Definition prune {D : Type} `{Double D} `{UnionLayout D}
           (pruner : IPruner D) (root : option (Node D)) : Exec (option (Node D)) :=
  match pruner with
  | NoPruner => Ok root
  | MinGainPrePruner _ => Ok root
  | CostComplexityPruner alpha_ => CostComplexityPruner.prune alpha_ root
  | ReducedErrorPruner Xv_ D_ yv_ => ReducedErrorPruner.prune Xv_ D_ yv_ root
  end.

(** ** SingleTreeTrainer.cpp *)

(** [std::partition(first, last, pred)] as libstdc++ runs it on
    bidirectional iterators: [first] moves forward over the elements that
    satisfy [pred], [last] moves backward over those that do not, and the
    two elements they stop at are swapped.  [split_last pred l] finds the
    element [last] stops at: the last one of [l] that satisfies [pred],
    with what is before and after it. *)
Section StdPartition.
Context {A : Type} (pred : A -> bool).

Fixpoint split_last (l : list A) : option (list A * A * list A) :=
  match l with
  | [] => None
  | x :: l' =>
      match split_last l' with
      | Some (mid, y, tail) => Some (x :: mid, y, tail)
      | None => if pred x then Some ([], x, l') else None
      end
  end.

(** The range after the call, and the distance of the returned iterator
    from [first]. *)
Fixpoint partition_rec (fuel : nat) (l : list A) : list A * nat :=
  match fuel with
  | O => (l, O)
  | S fuel' =>
      match l with
      | [] => ([], O)
      | x :: l' =>
          if pred x then
            let '(r, k) := partition_rec fuel' l' in (x :: r, S k)
          else
            match split_last l' with
            | None => (x :: l', O)
            | Some (mid, y, tail) =>
                let '(r, k) := partition_rec fuel' mid in
                (y :: r ++ x :: tail, S k)
            end
      end
  end.

Definition std_partition (l : list A) : list A * nat :=
  partition_rec (length l) l.

End StdPartition.

Record SingleTreeTrainer (D : Type) : Type := mkTrainer {
  maxDepth_       : Z;
  minSamplesLeaf_ : Z;
  finder_         : ISplitFinder D;
  criterion_      : ISplitCriterion D;
  pruner_         : IPruner D;
  root_           : option (Node D)
}.

(** A [Node*] into the tree owned by [root_]: the way down from the root. *)
Inductive Branch : Type := goLeft | goRight.
Definition NodePtr : Type := list Branch.

Record SplitTask : Type := mkTask {
  task_node    : NodePtr;
  task_indices : list nat;
  task_depth   : Z
}.

Module SingleTreeTrainer.
Section Def.
Context {D : Type} `{Double D}.
Variable this : SingleTreeTrainer D.
Variables (data : list D) (rowLength : Z) (labels : list D).

(** The three stopping conditions tested before the finder is called. *)
Definition stop_before_split (indices : list nat) (depth : Z) : bool :=
  (maxDepth_ this <=? depth)%Z
  || (Z.of_nat (length indices) <? size_t_mul 2 (size_t_of_int (minSamplesLeaf_ this)))%Z
  || (length indices <? 2)%nat.

(** The pre-pruning check. *)
Definition below_minGain (bestGain : D) : bool :=
  match pruner_ this with
  | MinGainPrePruner minGain => (bestGain <? minGain)%dbl
  | _ => false
  end.

(** The predicate of the partition: the sample goes to the left child. *)
Definition goes_left (bestFeat : Z) (bestThr : D) (idx_val : nat) : bool :=
  (feature data rowLength idx_val bestFeat <=? bestThr)%dbl.

Definition too_small (size : nat) : bool :=
  (Z.of_nat size <? size_t_of_int (minSamplesLeaf_ this))%Z.

(** *** The task-queue path *)

(** The loop of [processTask] that fills [leftIndices] and [rightIndices]. *)
Definition split_indices (bestFeat : Z) (bestThr : D) (indices : list nat)
  : list nat * list nat :=
  fold_left (fun '(leftIndices, rightIndices) idx_val =>
               if goes_left bestFeat bestThr idx_val
               then (leftIndices ++ [idx_val], rightIndices)
               else (leftIndices, rightIndices ++ [idx_val]))
            indices ([], []).

(** [processTask] on the node the task points to: the node as the call
    leaves it, and the index vectors of the tasks pushed for its left and
    right child. *)
Definition processNode (node : Node D) (indices : list nat) (depth : Z)
  : Node D * list (Branch * list nat) :=
  match indices with
  | [] => (makeLeaf1 node zero, [])
  | _ =>
      let node := set_metric node (nodeMetric (criterion_ this) labels indices) in
      let node := set_samples node (length indices) in
      let sum := sum_labels labels indices in
      let nodePrediction := (sum / of_size (length indices))%dbl in
      if stop_before_split indices depth then
        (makeLeaf node nodePrediction nodePrediction, [])
      else
        let '(bestFeat, bestThr, bestGain) :=
          findBestSplit (finder_ this) data rowLength labels indices
                        (metric node) (criterion_ this) in
        if (bestFeat <? 0)%Z || (bestGain <=? zero)%dbl then
          (makeLeaf node nodePrediction nodePrediction, [])
        else if below_minGain bestGain then
          (makeLeaf node nodePrediction nodePrediction, [])
        else
          let '(leftIndices, rightIndices) := split_indices bestFeat bestThr indices in
          if too_small (length leftIndices) || too_small (length rightIndices) then
            (makeLeaf node nodePrediction nodePrediction, [])
          else
            let node := makeInternal node bestFeat bestThr in
            let node := set_children node (Some newNode) (Some newNode) in
            (node,
             (match leftIndices with [] => [] | _ => [(goLeft, leftIndices)] end)
             ++ (match rightIndices with [] => [] | _ => [(goRight, rightIndices)] end))
  end.

Fixpoint node_at (p : NodePtr) (n : Node D) : option (Node D) :=
  match p with
  | [] => Some n
  | goLeft :: p' => match leftChild n with Some c => node_at p' c | None => None end
  | goRight :: p' => match rightChild n with Some c => node_at p' c | None => None end
  end.

Fixpoint store_at (p : NodePtr) (v : Node D) (n : Node D) : Node D :=
  match p with
  | [] => v
  | goLeft :: p' =>
      match leftChild n with
      | Some c => set_children n (Some (store_at p' v c)) (rightChild n)
      | None => n
      end
  | goRight :: p' =>
      match rightChild n with
      | Some c => set_children n (leftChild n) (Some (store_at p' v c))
      | None => n
      end
  end.

(** [processTask]: the tree and the queue after the call. *)
Definition processTask (root : Node D) (task : SplitTask) (taskQueue : list SplitTask)
  : Node D * list SplitTask :=
  match node_at (task_node task) root with
  | None => (root, taskQueue)
  | Some node =>
      let '(node, pushed) := processNode node (task_indices task) (task_depth task) in
      (store_at (task_node task) node root,
       taskQueue
       ++ map (fun '(b, idx) => mkTask (task_node task ++ [b]) idx (task_depth task + 1))
              pushed)
  end.

(** The worker loop, as run by one worker: tasks are popped in FIFO
    order until the queue is empty.  [fuel] bounds the number of tasks
    processed. *)
Fixpoint workers (fuel : nat) (root : Node D) (taskQueue : list SplitTask)
  : Node D * list SplitTask :=
  match fuel, taskQueue with
  | S fuel', task :: rest =>
      let '(root, taskQueue) := processTask root task rest in
      workers fuel' root taskQueue
  | _, _ => (root, taskQueue)
  end.

(** A bound on the number of tasks a task can give rise to, itself
    included: at each depth the index vectors of its descendants are
    non-empty and share its indices among them. *)
Definition task_budget (indices : list nat) (depth : Z) : nat :=
  length indices * S (Z.to_nat (maxDepth_ this - depth)).

Definition buildTreeWithTaskQueue (root : Node D) (rootIndices : list nat) : Node D :=
  fst (workers (S (task_budget rootIndices 0)) root [mkTask [] rootIndices 0]).

(** *** The recursive path *)

(** [fuel] bounds the depth of the recursion; [maxDepth_ - depth] is
    enough, since a node at depth [maxDepth_] becomes a leaf. *)
Fixpoint splitNodeOptimized_rec (fuel : nat) (node : Node D) (indices : list nat)
         (depth : Z) : Node D :=
  match indices with
  | [] => makeLeaf1 node zero
  | _ =>
      let node := set_metric node (nodeMetric (criterion_ this) labels indices) in
      let node := set_samples node (length indices) in
      let sum := sum_labels labels indices in
      let numSamples := length indices in
      let nodePrediction := (sum / of_size numSamples)%dbl in
      if stop_before_split indices depth then
        makeLeaf node nodePrediction nodePrediction
      else
        let '(bestFeat, bestThr, bestGain) :=
          findBestSplit (finder_ this) data rowLength labels indices
                        (metric node) (criterion_ this) in
        if (bestFeat <? 0)%Z || (bestGain <=? zero)%dbl then
          makeLeaf node nodePrediction nodePrediction
        else if below_minGain bestGain then
          makeLeaf node nodePrediction nodePrediction
        else
          let '(indices, leftSize) := std_partition (goes_left bestFeat bestThr) indices in
          let rightSize := (length indices - leftSize)%nat in
          if too_small leftSize || too_small rightSize then
            makeLeaf node nodePrediction nodePrediction
          else
            let node := makeInternal node bestFeat bestThr in
            let leftIndices := firstn leftSize indices in
            let rightIndices := skipn leftSize indices in
            match fuel with
            | O => set_children node (Some newNode) (Some newNode)
            | S fuel' =>
                set_children node
                  (Some (splitNodeOptimized_rec fuel' newNode leftIndices (depth + 1)))
                  (Some (splitNodeOptimized_rec fuel' newNode rightIndices (depth + 1)))
            end
  end.

Definition splitNodeOptimized (node : Node D) (indices : list nat) (depth : Z) : Node D :=
  splitNodeOptimized_rec (Z.to_nat (maxDepth_ this - depth)) node indices depth.

(** [train].  [numThreads] is [omp_get_max_threads()], or 1 in a build
    without OpenMP.  The statistics printed at the end are left out. *)
Definition train `{UnionLayout D} (numThreads : Z) : Exec (SingleTreeTrainer D) :=
  let root := newNode in
  let rootIndices := seq 0 (length labels) in
  let useTaskQueue := (1000 <? length labels)%nat && (1 <? numThreads)%Z in
  let root :=
    if useTaskQueue then buildTreeWithTaskQueue root rootIndices
    else splitNodeOptimized root rootIndices 0 in
  root <- prune (pruner_ this) (Some root) ;;
  Ok (mkTrainer (maxDepth_ this) (minSamplesLeaf_ this) (finder_ this)
                (criterion_ this) (pruner_ this) root).

End Def.

Section Predict.
Context {D : Type} `{Double D} `{UnionLayout D}.

(** The descent of [predict] from the node [cur] for the row of [X] that
    starts at [offset]. *)
Fixpoint predict_from (X : list D) (offset : Z) (cur : Node D) : D :=
  match cur with
  | mkNode isLeaf_ _ _ _ left_ right_ =>
      if isLeaf_ then getPrediction cur
      else
        let v := at_Z X (offset + getFeatureIndex cur) in
        match (if (v <=? getThreshold cur)%dbl then left_ else right_) with
        | None => zero
        | Some c => predict_from X offset c
        end
  end.

Definition predict (this : SingleTreeTrainer D) (X : list D) (offset : Z) : D :=
  match root_ this with
  | None => zero
  | Some root => predict_from X offset root
  end.

(** [evaluate]: the pair (mse, mae). *)
Definition evaluate (this : SingleTreeTrainer D) (X : list D) (rowLength : Z)
           (y : list D) : D * D :=
  let n := length y in
  let '(mse, mae) :=
    fold_left (fun '(mse, mae) i =>
                 let pred := predict this X (Z.of_nat i * rowLength) in
                 let diff := (at_nat y i - pred)%dbl in
                 (mse + diff * diff, mae + dabs diff)%dbl)
              (seq 0 n) (zero, zero) in
  ((mse / of_size n)%dbl, (mae / of_size n)%dbl).

(** [calculateTreeStats]: the values of [maxDepth] and [leafCount] after
    the call, from their values [st] before it.  The two [int] counters
    are taken without overflow. *)
Fixpoint calculateTreeStats_node (node : Node D) (currentDepth : Z) (st : Z * Z) : Z * Z :=
  let '(maxDepth, leafCount) := st in
  let maxDepth := Z.max maxDepth currentDepth in
  match node with
  | mkNode isLeaf_ _ _ _ left_ right_ =>
      if isLeaf_ then (maxDepth, (leafCount + 1)%Z)
      else
        let st := (maxDepth, leafCount) in
        let st :=
          match left_ with
          | Some l => calculateTreeStats_node l (currentDepth + 1) st
          | None => st
          end in
        match right_ with
        | Some r => calculateTreeStats_node r (currentDepth + 1) st
        | None => st
        end
  end.

Definition calculateTreeStats (node : option (Node D)) (currentDepth : Z) (st : Z * Z)
  : Z * Z :=
  match node with
  | None => st
  | Some n => calculateTreeStats_node n currentDepth st
  end.

(** The statistics [train] prints: [treeDepth] and [leafCount]. *)
Definition tree_stats (this : SingleTreeTrainer D) : Z * Z :=
  calculateTreeStats (root_ this) 0 (0%Z, 0%Z).

End Predict.
End SingleTreeTrainer.

(** ** DataSplit.cpp and SingleTreeApp.cpp

    The parts of the application around the trainer that compute: the
    split of the rows into training, validation and test sets, and the
    choice of the pruner.  Reading the CSV file and the parsing of the
    finder and criterion names are left out. *)

(** The literals 0.8 and 0.7 of the two splits. *)
Class SplitLiterals (D : Type) : Type := {
  d0_8 : D;
  d0_7 : D
}.

#[export] Instance SplitLiterals_float : SplitLiterals float :=
  {| d0_8 := 0x1.999999999999ap-1%float; d0_7 := 0x1.6666666666666p-1%float |}.

#[export] Instance SplitLiterals_R : SplitLiterals R :=
  {| d0_8 := (8 / 10)%R; d0_7 := (7 / 10)%R |}.

Definition size_t_add (a b : Z) : Z := ((a + b) mod 2 ^ 64)%Z.

(** [dst.assign(src.begin() + first, src.begin() + last)] and
    [dst.assign(src.begin() + first, src.end())].  An iterator past the
    end of [src] is undefined in the source; the embedding stops at the
    end. *)
Definition assign_range {A : Type} (src : list A) (first last : Z) : list A :=
  firstn (Z.to_nat (last - first)) (skipn (Z.to_nat first) src).

Definition assign_from {A : Type} (src : list A) (first : Z) : list A :=
  skipn (Z.to_nat first) src.

Module DataSplit.
Section Def.
Context {D : Type} `{Double D} `{SplitLiterals D}.

Record DataParams : Type := mkDataParams {
  X_train   : list D;
  y_train   : list D;
  X_test    : list D;
  y_test    : list D;
  rowLength : Z
}.

(** [splitDataset]; the function always returns [true]. *)
Definition splitDataset (X y : list D) (rowLength : Z) : DataParams :=
  let feat := (rowLength - 1)%Z in
  let totalRows := length y in
  let trainRows := to_size_t (of_size totalRows * d0_8)%dbl in
  let cut := size_t_mul trainRows (size_t_of_int feat) in
  mkDataParams (assign_range X 0 cut) (assign_range y 0 trainRows)
               (assign_from X cut) (assign_from y trainRows) feat.

End Def.
Arguments DataParams D : clear implicits.
End DataSplit.

Module SingleTreeApp.
Section Def.
Context {D : Type} `{Double D} `{SplitLiterals D}.

Record ExtendedDataParams : Type := mkExtendedDataParams {
  X_train   : list D;
  y_train   : list D;
  X_val     : list D;
  y_val     : list D;
  X_test    : list D;
  y_test    : list D;
  rowLength : Z
}.

Definition splitDatasetWithValidation (X y : list D) (rowLength : Z) (valSplit : D)
  : ExtendedDataParams :=
  let feat := (rowLength - 1)%Z in
  let totalRows := length y in
  if (valSplit >? zero)%dbl then
    let trainRows := to_size_t (of_size totalRows * d0_7)%dbl in
    let valRows := to_size_t (of_size totalRows * valSplit)%dbl in
    let cut1 := size_t_mul trainRows (size_t_of_int feat) in
    let cut2 := size_t_mul (size_t_add trainRows valRows) (size_t_of_int feat) in
    mkExtendedDataParams
      (assign_range X 0 cut1) (assign_range y 0 trainRows)
      (assign_range X cut1 cut2) (assign_range y trainRows (size_t_add trainRows valRows))
      (assign_from X cut2) (assign_from y (size_t_add trainRows valRows))
      feat
  else
    let trainRows := to_size_t (of_size totalRows * d0_8)%dbl in
    let cut := size_t_mul trainRows (size_t_of_int feat) in
    mkExtendedDataParams
      (assign_range X 0 cut) (assign_range y 0 trainRows)
      [] []
      (assign_from X cut) (assign_from y trainRows)
      feat.

(** [createPruner] *)
Definition createPruner (type : String.string) (param : D)
           (X_val : list D) (rowLength : Z) (y_val : list D) : IPruner D :=
  if String.eqb type "mingain"%string then MinGainPrePruner param
  else if String.eqb type "cost_complexity"%string then CostComplexityPruner param
  else if String.eqb type "reduced_error"%string then
    match X_val, y_val with
    | [], _ | _, [] => NoPruner
    | _, _ => ReducedErrorPruner X_val rowLength y_val
    end
  else NoPruner.

End Def.
Arguments ExtendedDataParams D : clear implicits.
End SingleTreeApp.

(** ** BaggingTrainer.cpp

    The random numbers are the function [draw]: [draw t k] is the value
    the [k]-th call of [dist(localGen)] returns while tree [t] is being
    sampled.  The finder and the criterion the two factory methods
    return are fields of the record in place of the names they are
    parsed from; feature importance and the out-of-bag error are left
    out.  [numTrees_] is not negative in an object that was constructed:
    the constructor hands it to [reserve], which throws otherwise. *)

(** How a call into the ensemble ends: it returns, it follows a null
    [Node*], or a [std::vector] is asked to [reserve] a negative number
    of elements, which as a [size_t] is above [max_size()] and is
    answered with [std::length_error]. *)
Inductive Outcome (A : Type) : Type :=
| Returns (a : A)
| LengthError
| NullPointer.
Arguments Returns {A} a.
Arguments LengthError {A}.
Arguments NullPointer {A}.

Definition of_Exec {A : Type} (e : Exec A) : Outcome A :=
  match e with
  | Ok a => Returns a
  | NullDeref => NullPointer
  end.

Definition and_then {A B : Type} (m : Outcome A) (k : A -> Outcome B) : Outcome B :=
  match m with
  | Returns a => k a
  | LengthError => LengthError
  | NullPointer => NullPointer
  end.

(** [static_cast<int>(x)] for a [double] within the range of [int]:
    truncation, as for [size_t]. *)
Definition to_int {D : Type} `{Double D} (x : D) : Z := to_size_t x.

(** [static_cast<int>(n)] for a [size_t]. *)
Definition int_of_size_t (n : Z) : Z :=
  let w := (n mod 2 ^ 32)%Z in if (w <? 2 ^ 31)%Z then w else (w - 2 ^ 32)%Z.

(** Arithmetic on [int], within its range. *)
Definition int_mul (a b : Z) : Z := int_of_size_t (a * b).

Module BaggingTrainer.
Section Def.
Context {D : Type} `{Double D} `{UnionLayout D}.

Record BaggingTrainer : Type := mkBagging {
  numTrees_       : Z;
  sampleRatio_    : D;
  maxDepth_       : Z;
  minSamplesLeaf_ : Z;
  criterion_      : ISplitCriterion D;   (* createCriterion() *)
  splitMethod_    : ISplitFinder D;      (* createSplitFinder() *)
  prunerType_     : String.string;
  prunerParam_    : D;
  trees_          : list (option (SingleTreeTrainer D));
  oobIndices_     : list (list nat)
}.

Definition set_trees (this : BaggingTrainer)
           (trees : list (option (SingleTreeTrainer D))) (oob : list (list nat))
  : BaggingTrainer :=
  mkBagging (numTrees_ this) (sampleRatio_ this) (maxDepth_ this) (minSamplesLeaf_ this)
            (criterion_ this) (splitMethod_ this) (prunerType_ this) (prunerParam_ this)
            trees oob.

Definition createPruner (this : BaggingTrainer)
           (X_val : list D) (rowLength : Z) (y_val : list D) : IPruner D :=
  if String.eqb (prunerType_ this) "mingain"%string then
    MinGainPrePruner (prunerParam_ this)
  else if String.eqb (prunerType_ this) "cost_complexity"%string then
    CostComplexityPruner (prunerParam_ this)
  else if String.eqb (prunerType_ this) "reduced_error"%string then
    match X_val, y_val with
    | [], _ | _, [] => NoPruner
    | _, _ => ReducedErrorPruner X_val rowLength y_val
    end
  else NoPruner.

(** [bootstrapSample]: the pair (sampleIndices, oobIndices).  The two
    calls of [reserve] are handed the [int]s [sampleSize] and
    [dataSize - sampleSize]. *)
Definition bootstrapSample (this : BaggingTrainer) (dataSize : Z) (dist : nat -> nat)
  : Outcome (list nat * list nat) :=
  let sampleSize := to_int (of_Z dataSize * sampleRatio_ this)%dbl in
  if (sampleSize <? 0)%Z then LengthError
  else
    let sampleIndices := map dist (seq 0 (Z.to_nat sampleSize)) in
    let sampledBits := fun i : nat => existsb (Nat.eqb i) sampleIndices in
    if (dataSize - sampleSize <? 0)%Z then LengthError
    else
      let oobIndices :=
        filter (fun i => negb (sampledBits i)) (seq 0 (Z.to_nat dataSize)) in
      Returns (sampleIndices, oobIndices).

(** [extractSubsetOptimized]: the pair (subData, subLabels). *)
Definition extractSubsetOptimized (originalData : list D) (rowLength : Z)
           (originalLabels : list D) (indices : list nat) : list D * list D :=
  let featCount := rowLength in
  (flat_map (fun idx =>
               map (fun j => at_Z originalData (Z.of_nat idx * featCount + Z.of_nat j))
                   (seq 0 (Z.to_nat featCount)))
            indices,
   map (fun idx => at_nat originalLabels idx) indices).

(** The body of the loop over the trees, for tree [t]. *)
Definition train_tree (this : BaggingTrainer) (numThreads : Z) (draw : nat -> nat -> nat)
           (data : list D) (rowLength : Z) (labels : list D) (dataSize : Z) (t : nat)
  : Outcome (SingleTreeTrainer D * list nat) :=
  and_then (bootstrapSample this dataSize (draw t)) (fun '(sampleIndices, oobIndices) =>
  let '(subData, subLabels) :=
    extractSubsetOptimized data rowLength labels sampleIndices in
  let tree :=
    mkTrainer (maxDepth_ this) (minSamplesLeaf_ this) (splitMethod_ this)
              (criterion_ this) (createPruner this [] rowLength []) None in
  and_then (of_Exec (SingleTreeTrainer.train tree subData rowLength subLabels numThreads))
           (fun tree => Returns (tree, oobIndices))).

(** [train].  The trees are trained one after the other. *)
Definition train (this : BaggingTrainer) (numThreads : Z) (draw : nat -> nat -> nat)
           (data : list D) (rowLength : Z) (labels : list D) : Outcome BaggingTrainer :=
  let this := set_trees this [] [] in
  let dataSize := int_of_size_t (Z.of_nat (length labels)) in
  if (dataSize =? 0)%Z || (match data with [] => true | _ => false end)
     || (rowLength <=? 0)%Z then Returns this
  else if negb (int_of_size_t (Z.of_nat (length data)) =? int_mul dataSize rowLength)%Z
  then Returns this
  else
    fold_left (fun acc t =>
                 and_then acc (fun this =>
                 and_then (train_tree this numThreads draw data rowLength labels dataSize t)
                          (fun r =>
                 Returns (set_trees this (trees_ this ++ [Some (fst r)])
                                    (oobIndices_ this ++ [snd r])))))
              (seq 0 (Z.to_nat (numTrees_ this))) (Returns this).

(** [predict] for the row of [X] that starts at [offset]. *)
Definition predict (this : BaggingTrainer) (X : list D) (offset : Z) : D :=
  match trees_ this with
  | [] => zero
  | _ =>
      let sum :=
        fold_left (fun sum tree =>
                     match tree with
                     | Some t => (sum + SingleTreeTrainer.predict t X offset)%dbl
                     | None => sum
                     end)
                  (trees_ this) zero in
      (sum / of_size (length (trees_ this)))%dbl
  end.

End Def.
Arguments BaggingTrainer D : clear implicits.
End BaggingTrainer.

(** * Specifications

    Induction on nodes, and the predicates used to state the properties
    of the engine. *)

Definition on_child {D : Type} (P : Node D -> Prop) (c : option (Node D)) : Prop :=
  match c with
  | Some n => P n
  | None => True
  end.

Section NodeInduction.
Context {D : Type}.
Variable P : Node D -> Prop.
Hypothesis step :
  forall b s m i l r, on_child P l -> on_child P r -> P (mkNode b s m i l r).

Fixpoint Node_induction (n : Node D) : P n :=
  match n with
  | mkNode b s m i l r =>
      step b s m i l r
        (match l as l0 return on_child P l0 with
         | Some c => Node_induction c
         | None => I
         end)
        (match r as r0 return on_child P r0 with
         | Some c => Node_induction c
         | None => I
         end)
  end.
End NodeInduction.

(** [left] and [right] share the elements of [S] among them according to
    the test [p]: together they are [S] as a multiset, no index is in
    both, and an index of [S] is in [left] exactly when the test holds. *)
Definition partitions (p : nat -> bool) (S left right : list nat) : Prop :=
  Permutation (left ++ right) S
  /\ (forall i, In i left -> In i right -> False)
  /\ (forall i, In i S -> (In i left <-> p i = true))
  /\ (forall i, In i S -> (In i right <-> p i = false)).


Section GrowthSpec.
Context {D : Type} `{Double D}.
Variable this : SingleTreeTrainer D.
Variables (data : list D) (rowLength : Z) (labels : list D).

(** [sum / indices.size()], the value [nodePrediction] of the engine. *)
Definition mean (indices : list nat) : D :=
  (sum_labels labels indices / of_size (length indices))%dbl.

(** The finder proposed the split ([f], [t]) with gain [g] for the
    subset [indices], and the engine accepted it: [f] is a feature,
    [g] is strictly positive and not below the minimum gain of a
    pre-pruner, and the two sides [left] and [right] of the split have at
    least [minSamplesLeaf_] samples each. *)
Definition accepted_split (indices : list nat) (f : Z) (t g : D)
           (left right : list nat) : Prop :=
  findBestSplit (finder_ this) data rowLength labels indices
                (nodeMetric (criterion_ this) labels indices) (criterion_ this)
  = (f, t, g)
  /\ (0 <= f)%Z
  /\ (zero <? g)%dbl = true
  /\ SingleTreeTrainer.below_minGain this g = false
  /\ partitions (fun i => (feature data rowLength i f <=? t)%dbl) indices left right
  /\ (minSamplesLeaf_ this <= Z.of_nat (length left))%Z
  /\ (minSamplesLeaf_ this <= Z.of_nat (length right))%Z.

(** What [splitNodeOptimized] leaves in the node for a non-empty subset. *)
Definition grown_recursive (indices : list nat) (depth : Z) (n : Node D) : Prop :=
  (isLeaf n = true /\ getPrediction n = mean indices)
  \/ (isLeaf n = false
      /\ exists f t g left right,
          accepted_split indices f t g left right
          /\ info n = internal f t
          /\ leftChild n
             = Some (SingleTreeTrainer.splitNodeOptimized
                       this data rowLength labels newNode left (depth + 1))
          /\ rightChild n
             = Some (SingleTreeTrainer.splitNodeOptimized
                       this data rowLength labels newNode right (depth + 1))).

(** The tasks [processTask] pushes for the children. *)
Definition child_tasks (left right : list nat) : list (Branch * list nat) :=
  (match left with [] => [] | _ => [(goLeft, left)] end)
  ++ (match right with [] => [] | _ => [(goRight, right)] end).

(** What [processTask] leaves in the node, and the tasks it pushes, for a
    non-empty subset. *)
Definition grown_task (indices : list nat) (r : Node D * list (Branch * list nat)) : Prop :=
  (isLeaf (fst r) = true /\ getPrediction (fst r) = mean indices /\ snd r = [])
  \/ (isLeaf (fst r) = false
      /\ exists f t g left right,
          accepted_split indices f t g left right
          /\ info (fst r) = internal f t
          /\ leftChild (fst r) = Some newNode
          /\ rightChild (fst r) = Some newNode
          /\ snd r = child_tasks left right).

End GrowthSpec.

Section PruningSpec.
Context {D : Type} `{Double D}.

(** The gain of the split at [n] into [l] and [r], measured with the
    metrics and sample counts the nodes hold:
    parentMetric - weightedChildMetric. *)
Definition node_gain (n l r : Node D) : D :=
  (metric n
   - (metric l * of_size (samples l) + metric r * of_size (samples r))
     / of_size (samples n))%dbl.

(** Every node that is not a leaf has two children and samples, and the
    gain of its split is strictly positive. *)
Fixpoint positive_gain (n : Node D) : Prop :=
  match n with
  | mkNode isLeaf_ samples_ _ _ left_ right_ =>
      if isLeaf_ then True
      else
        match left_, right_ with
        | Some l, Some r =>
            (0 < samples_)%nat
            /\ (zero <? node_gain n l r)%dbl = true
            /\ positive_gain l /\ positive_gain r
        | _, _ => False
        end
  end.

(** Every node that is not a leaf has both its children, as in the trees
    the recursive path builds. *)
Fixpoint full (n : Node D) : Prop :=
  match n with
  | mkNode isLeaf_ _ _ _ left_ right_ =>
      if isLeaf_ then True
      else
        match left_, right_ with
        | Some l, Some r => full l /\ full r
        | _, _ => False
        end
  end.

End PruningSpec.

(** ** Scenarios

    The defaults of [main.cpp]: [maxDepth = 800], [minSamplesLeaf = 2]. *)

Definition default_trainer {D : Type} (finder : ISplitFinder D)
           (criterion : ISplitCriterion D) (pruner : IPruner D) : SingleTreeTrainer D :=
  mkTrainer 800 2 finder criterion pruner None.

Definition scenario_y : list float := [1; 1; 1; 1; 5; 5; 5; 5]%float.

(** Four feature columns, each of which separates the first four rows
    from the last four. *)
Definition scenario_columns : list (list float) :=
  [ [1; 2; 3; 4; 5; 6; 7; 8];
    [0; 0; 0; 0; 1; 1; 1; 1];
    [10; 12; 11; 13; 20; 22; 21; 23];
    [8; 7; 6; 5; 4; 3; 2; 1] ]%float.

Definition is_leaf_with (p : float) (c : option (Node float)) : Prop :=
  exists n, c = Some n /\ isLeaf n = true /\ getPrediction n = p
            /\ leftChild n = None /\ rightChild n = None.

(** A root that is not a leaf over two leaves that predict 1.0 and 5.0. *)
Definition one_split_tree (root : option (Node float)) : Prop :=
  exists n, root = Some n /\ isLeaf n = false
            /\ ((is_leaf_with 1 (leftChild n) /\ is_leaf_with 5 (rightChild n))
                \/ (is_leaf_with 5 (leftChild n) /\ is_leaf_with 1 (rightChild n))).

(** The tree [train] leaves in [root_]; no tree if the run ended on a
    null pointer. *)
Definition trained_root {D : Type} (r : Exec (SingleTreeTrainer D)) : option (Node D) :=
  match r with
  | Ok t => root_ t
  | NullDeref => None
  end.

(** The engine refused to train: the call leaves no tree. *)
Definition refused {D : Type} (r : Exec (SingleTreeTrainer D)) : Prop :=
  trained_root r = None.

(** ** The candidate splits of a finder *)

(** The gain [g] is not strictly positive: the test [g > 0.0] fails. *)
Definition not_positive {D : Type} `{Double D} (g : D) : Prop := (zero <? g)%dbl = false.

Section ExhaustiveCandidates.
Context {D : Type} `{Double D}.
Variables (data : list D) (rowLength : Z) (labels : list D).

(** The gains [ExhaustiveSplitFinder.scan] computes, in order. *)
Fixpoint exhaustive_scan_gains (N : nat) (totalSum totalSumSq parentMSE : D) (f : Z)
         (sorted : list nat) (i : nat) (leftSum leftSumSq : D) : list D :=
  match sorted with
  | idx :: ((next :: _) as rest) =>
      let y := at_nat labels idx in
      let leftSum := (leftSum + y)%dbl in
      let leftSumSq := (leftSumSq + y * y)%dbl in
      let currentVal := feature data rowLength idx f in
      let nextVal := feature data rowLength next f in
      (if (currentVal + ExhaustiveSplitFinder.EPS <? nextVal)%dbl
       then [ExhaustiveSplitFinder.gain_of N totalSum totalSumSq parentMSE
                                           (S i) leftSum leftSumSq]
       else [])
      ++ exhaustive_scan_gains N totalSum totalSumSq parentMSE f rest (S i) leftSum leftSumSq
  | _ => []
  end.

(** The gains of all the candidate splits the exhaustive finder
    evaluates for a subset. *)
Definition exhaustive_candidate_gains (indices : list nat) : list D :=
  let N := length indices in
  let '(totalSum, totalSumSq) := ExhaustiveSplitFinder.totals labels indices in
  let parentMean := (totalSum / of_size N)%dbl in
  let parentMSE := (totalSumSq / of_size N - parentMean * parentMean)%dbl in
  flat_map (fun f =>
              exhaustive_scan_gains N totalSum totalSumSq parentMSE f
                (std_sort (fun a b => (feature data rowLength a f
                                       <? feature data rowLength b f)%dbl) indices)
                0 zero zero)
           (features rowLength).

End ExhaustiveCandidates.

Section QuartileCandidates.
Context {D : Type} `{Double D}.
Variables (X : list D) (D_ : Z) (y : list D).

(** The gain [QuartileSplitFinder.try_threshold] computes for the
    threshold [thr], if both sides of the split are non-empty. *)
Definition quartile_gain (idx : list nat) (parentMetric : D) (crit : ISplitCriterion D)
           (f : Z) (thr : D) : option D :=
  let '(leftBuf, rightBuf) := QuartileSplitFinder.buffers X D_ idx f thr in
  match leftBuf, rightBuf with
  | [], _ | _, [] => None
  | _, _ =>
      Some (parentMetric
            - (nodeMetric crit y leftBuf * of_size (length leftBuf)
               + nodeMetric crit y rightBuf * of_size (length rightBuf))
              / of_size (length idx))%dbl
  end.

(** The gains of all the candidate splits the quartile finder evaluates
    for a subset of at least four samples. *)
Definition quartile_candidate_gains (idx : list nat) (parentMetric : D)
           (crit : ISplitCriterion D) : list D :=
  flat_map (fun f =>
              let vals := map (fun i => feature X D_ i f) idx in
              flat_map (fun thr =>
                          match quartile_gain idx parentMetric crit f thr with
                          | Some g => [g]
                          | None => []
                          end)
                       (QuartileSplitFinder.thrList (std_sort dltb vals)))
           (features D_).

End QuartileCandidates.

(** ** The task queue *)

(** The number of tasks a queued task can still give rise to, itself
    included. *)
Definition task_potential {D : Type} (this : SingleTreeTrainer D) (t : SplitTask) : nat :=
  S (SingleTreeTrainer.task_budget this (task_indices t) (task_depth t)).

Definition queue_potential {D : Type} (this : SingleTreeTrainer D)
           (taskQueue : list SplitTask) : nat :=
  list_sum (map (task_potential this) taskQueue).

(** ** Measures of a tree *)

Section TreeMeasures.
Context {D : Type} `{Double D}.

(** The number of edges on the longest way down from [n]. *)
Fixpoint height (n : Node D) : Z :=
  match n with
  | mkNode isLeaf_ _ _ _ left_ right_ =>
      if isLeaf_ then 0%Z
      else
        Z.max (match left_ with Some l => 1 + height l | None => 0 end)
              (match right_ with Some r => 1 + height r | None => 0 end)
  end.

(** The number of leaves below [n], [n] included. *)
Fixpoint leaves (n : Node D) : Z :=
  match n with
  | mkNode isLeaf_ _ _ _ left_ right_ =>
      if isLeaf_ then 1%Z
      else
        ((match left_ with Some l => leaves l | None => 0 end)
         + (match right_ with Some r => leaves r | None => 0 end))%Z
  end.

(** The samples held by the leaves below [n]. *)
Fixpoint leaf_samples (n : Node D) : nat :=
  match n with
  | mkNode isLeaf_ samples_ _ _ left_ right_ =>
      if isLeaf_ then samples_
      else
        (match left_ with Some l => leaf_samples l | None => 0 end)
        + (match right_ with Some r => leaf_samples r | None => 0 end)
  end.

(** Every node that is not a leaf has two children, and holds as many
    samples as the two of them together. *)
Fixpoint samples_add_up (n : Node D) : Prop :=
  match n with
  | mkNode isLeaf_ samples_ _ _ left_ right_ =>
      if isLeaf_ then True
      else
        match left_, right_ with
        | Some l, Some r =>
            samples_ = samples l + samples r /\ samples_add_up l /\ samples_add_up r
        | _, _ => False
        end
  end.

(** The total error of the leaves below [n]: the sum, in the order of
    the leaves, of [metric * samples]. *)
Fixpoint leaf_error (n : Node D) : D :=
  match n with
  | mkNode isLeaf_ samples_ metric_ _ left_ right_ =>
      if isLeaf_ then (metric_ * of_size samples_)%dbl
      else
        ((match left_ with Some l => leaf_error l | None => zero end)
         + (match right_ with Some r => leaf_error r | None => zero end))%dbl
  end.

(** [p] is a pruning of [n]: it is [n] with some of the nodes that are
    not leaves turned into leaves, each with the sample count and the
    metric of the node it replaces. *)
Fixpoint pruning_of (p n : Node D) : Prop :=
  match n with
  | mkNode isLeaf_ samples_ metric_ _ left_ right_ =>
      if isLeaf_ then p = n
      else
        (isLeaf p = true /\ samples p = samples_ /\ metric p = metric_)
        \/ (isLeaf p = false /\ samples p = samples_ /\ metric p = metric_
            /\ match left_, right_ with
               | Some l, Some r =>
                   exists pl pr,
                     leftChild p = Some pl /\ rightChild p = Some pr
                     /\ pruning_of pl l /\ pruning_of pr r
               | _, _ => False
               end)
  end.

(** The cost-complexity of a tree at [alpha]: the total error of its
    leaves plus [alpha] for each leaf. *)
Definition cost_complexity (alpha : D) (n : Node D) : D :=
  (leaf_error n + alpha * of_Z (leaves n))%dbl.

End TreeMeasures.

(** ** The task queue as a recursion *)

Section TaskRecursion.
Context {D : Type} `{Double D}.
Variable this : SingleTreeTrainer D.
Variables (data : list D) (rowLength : Z) (labels : list D).

(** The subtree a task gives rise to, described by recursion on the
    tasks it pushes: the node as [processTask] leaves it, with the child
    of each pushed task replaced by the subtree of that task. *)
Fixpoint grow_by_tasks (fuel : nat) (node : Node D) (indices : list nat) (depth : Z)
  : Node D :=
  let '(node', pushed) :=
    SingleTreeTrainer.processNode this data rowLength labels node indices depth in
  match fuel with
  | O => node'
  | S fuel' =>
      fold_left (fun n '(b, idx) =>
                   match SingleTreeTrainer.node_at [b] n with
                   | Some c =>
                       SingleTreeTrainer.store_at [b]
                         (grow_by_tasks fuel' c idx (depth + 1)) n
                   | None => n
                   end)
                pushed node'
  end.

Definition task_tree (node : Node D) (indices : list nat) (depth : Z) : Node D :=
  grow_by_tasks (Z.to_nat (maxDepth_ this - depth)) node indices depth.

(** A queued task run to the end on its own, and a queue of tasks run
    one after the other in this way. *)
Definition run_task (root : Node D) (task : SplitTask) : Node D :=
  match SingleTreeTrainer.node_at (task_node task) root with
  | Some n =>
      SingleTreeTrainer.store_at (task_node task)
        (task_tree n (task_indices task) (task_depth task)) root
  | None => root
  end.

Definition run_tasks (root : Node D) (taskQueue : list SplitTask) : Node D :=
  fold_left run_task taskQueue root.

(** The child the task queue leaves on a side of a split: the subtree of
    the pushed task, or the fresh [Node] when the side is empty and no
    task was pushed. *)
Definition queue_child (side : list nat) (depth : Z) : Node D :=
  match side with
  | [] => newNode
  | _ => task_tree newNode side (depth + 1)
  end.

End TaskRecursion.

(** The task [processTask] pushes for the child on branch [b] of the
    node at [path]. *)
Definition child_task (path : NodePtr) (depth : Z) (x : Branch * list nat) : SplitTask :=
  let '(b, idx) := x in mkTask (path ++ [b]) idx (depth + 1).

(** Two node pointers part ways: neither node is below the other. *)
Fixpoint diverge (p q : NodePtr) : Prop :=
  match p, q with
  | a :: p', b :: q' => a <> b \/ diverge p' q'
  | _, _ => False
  end.

(** The tasks of a queue point to nodes none of which is below another. *)
Fixpoint antichain (taskQueue : list SplitTask) : Prop :=
  match taskQueue with
  | [] => True
  | t :: rest =>
      Forall (fun t' => diverge (task_node t) (task_node t')) rest /\ antichain rest
  end.

(** ** The proposals of the finders *)

(** The threshold [thr] on feature [f] has a sample of the subset [idx]
    on either side. *)
Definition separates {D : Type} `{Double D} (X : list D) (D_ : Z) (idx : list nat)
           (f : Z) (thr : D) : Prop :=
  exists i j,
    In i idx /\ In j idx
    /\ SingleTreeTrainer.goes_left X D_ f thr i = true
    /\ SingleTreeTrainer.goes_left X D_ f thr j = false.

(** A proposal of the exhaustive finder, in real arithmetic: the initial
    (-1, 0.0, 0.0), or a feature, a strictly positive gain, and a
    threshold with a sample of the subset on either side. *)
Definition exhaustive_proposal (data : list R) (rowLength : Z) (indices : list nat)
           (best : Z * R * R) : Prop :=
  best = ((-1)%Z, 0%R, 0%R)
  \/ ((0 <= fst (fst best) < rowLength)%Z
      /\ (0 < snd best)%R
      /\ exists i j,
          In i indices /\ In j indices
          /\ (feature data rowLength i (fst (fst best)) <= snd (fst best))%R
          /\ (snd (fst best) < feature data rowLength j (fst (fst best)))%R).

(** A proposal of the quartile finder: the initial one, with feature -1,
    or a feature and a threshold that separates. *)
Definition quartile_proposal {D : Type} `{Double D} `{Limits D}
           (X : list D) (D_ : Z) (idx : list nat) (best : Z * D * D) : Prop :=
  best = ((-1)%Z, zero, neg_infinity)
  \/ ((0 <= fst (fst best) < D_)%Z
      /\ separates X D_ idx (fst (fst best)) (snd (fst best))).

(** ** The variance of the targets *)

(** The mean squared deviation of the targets of [indices] from their
    mean. *)
Definition variance (labels : list R) (indices : list nat) : R :=
  (fold_left (fun acc i =>
                acc + (at_nat labels i - mean labels indices)
                      * (at_nat labels i - mean labels indices))
             indices 0
   / IZR (Z.of_nat (length indices)))%R.

(** ** The ensemble *)

(** A tree of the ensemble: it is there, it has a root, every node of it
    that is not a leaf has both its children, and its pruner is not the
    reduced-error one. *)
Definition bagged_tree {D : Type} `{Double D} (tree : option (SingleTreeTrainer D)) : Prop :=
  exists s root,
    tree = Some s /\ root_ s = Some root /\ full root
    /\ match pruner_ s with
       | ReducedErrorPruner _ _ _ => False
       | _ => True
       end.

(** ** The gain of a split under the MSE *)

(** The reduction of the MSE that the split of [indices] on feature [f]
    at [thr] brings: the MSE of the subset less the MSE of the samples
    at or below the threshold and of those above it, each weighted by
    its share of the samples. *)
Definition MSE_reduction (data : list R) (rowLength : Z) (labels : list R)
           (indices : list nat) (f : Z) (thr : R) : R :=
  let left := filter (SingleTreeTrainer.goes_left data rowLength f thr) indices in
  let right :=
    filter (fun i => negb (SingleTreeTrainer.goes_left data rowLength f thr i)) indices in
  (MSECriterion.nodeMetric labels indices
   - (MSECriterion.nodeMetric labels left * of_size (length left)
      + MSECriterion.nodeMetric labels right * of_size (length right))
     / of_size (length indices))%R.

(** A proposal of the exhaustive finder that reports the reduction of
    the MSE its split brings: the initial (-1, 0.0, 0.0), or a split
    with samples on both sides and, as gain, the MSE of the subset less
    the weighted MSE of the two sides. *)
Definition exact_proposal (data : list R) (rowLength : Z) (labels : list R)
           (indices : list nat) (best : Z * R * R) : Prop :=
  best = ((-1)%Z, 0%R, 0%R)
  \/ (filter (SingleTreeTrainer.goes_left data rowLength (fst (fst best)) (snd (fst best)))
             indices <> []
      /\ filter (fun i => negb (SingleTreeTrainer.goes_left data rowLength (fst (fst best))
                                                            (snd (fst best)) i))
                indices <> []
      /\ snd best
         = MSE_reduction data rowLength labels indices (fst (fst best)) (snd (fst best))).

(** ** The error of a tree on given rows *)

(** The sum over the rows [S] of the training matrix of the squared
    difference between the target of the row and what the tree below
    [n] predicts for it. *)
Definition squared_error {HU : UnionLayout R} (data : list R) (rowLength : Z)
           (labels : list R) (n : Node R) (S : list nat) : R :=
  fold_left (fun s i =>
               (s + (at_nat labels i
                     - SingleTreeTrainer.predict_from data (Z.of_nat i * rowLength) n)
                    * (at_nat labels i
                       - SingleTreeTrainer.predict_from data (Z.of_nat i * rowLength) n))%R)
            S 0%R.

(** * Properties *)

(** ** Lists, the partition and the sort *)

Lemma fold_split_filter {A : Type} (p : A -> bool) (S l0 r0 : list A) :
  fold_left (fun '(l, r) i => if p i then (l ++ [i], r) else (l, r ++ [i])) S (l0, r0)
  = (l0 ++ filter p S, r0 ++ filter (fun i => negb (p i)) S).
Proof.
  revert l0 r0; induction S as [|x S IH]; intros l0 r0; simpl.
  - now rewrite !app_nil_r.
  - destruct (p x); simpl; rewrite IH, <- app_assoc; reflexivity.
Qed.

Lemma filter_split_perm {A : Type} (p : A -> bool) (S : list A) :
  Permutation (filter p S ++ filter (fun i => negb (p i)) S) S.
Proof.
  induction S as [|x S IH]; simpl; [constructor|].
  destruct (p x); simpl.
  - now constructor.
  - symmetry. apply Permutation_cons_app. now symmetry.
Qed.

Lemma split_last_some {A : Type} (p : A -> bool) (l mid tail : list A) (y : A) :
  split_last p l = Some (mid, y, tail) ->
  l = mid ++ y :: tail /\ p y = true /\ Forall (fun a => p a = false) tail.
Proof.
  revert mid; induction l as [|x l IH]; intros mid; simpl; [discriminate|].
  destruct (split_last p l) as [[[mid' y'] tail']|] eqn:E.
  - intros [= <- <- <-]. destruct (IH _ eq_refl) as (-> & Hy & Ht). now repeat split.
  - destruct (p x) eqn:Hx; [|discriminate].
    intros [= <- <- <-]. repeat split; trivial.
    clear IH Hx. induction l as [|z l IHl]; [constructor|].
    simpl in E. destruct (split_last p l) as [[[? ?] ?]|]; [discriminate|].
    destruct (p z) eqn:Hz; [discriminate|]. constructor; auto.
Qed.

Lemma split_last_none {A : Type} (p : A -> bool) (l : list A) :
  split_last p l = None -> Forall (fun a => p a = false) l.
Proof.
  induction l as [|z l IHl]; [constructor|].
  simpl. destruct (split_last p l) as [[[? ?] ?]|]; [discriminate|].
  destruct (p z) eqn:Hz; [discriminate|]. constructor; auto.
Qed.

Lemma partition_rec_spec {A : Type} (p : A -> bool) (fuel : nat) :
  forall l, length l <= fuel ->
    Permutation (fst (partition_rec p fuel l)) l
    /\ snd (partition_rec p fuel l) <= length (fst (partition_rec p fuel l))
    /\ Forall (fun a => p a = true)
              (firstn (snd (partition_rec p fuel l)) (fst (partition_rec p fuel l)))
    /\ Forall (fun a => p a = false)
              (skipn (snd (partition_rec p fuel l)) (fst (partition_rec p fuel l))).
Proof.
  induction fuel as [|fuel IH]; intros l Hl.
  - destruct l; [|simpl in Hl; lia]. simpl. repeat split; constructor.
  - destruct l as [|x l]; [simpl; repeat split; constructor|].
    simpl in Hl. simpl. destruct (p x) eqn:Hx.
    + destruct (IH l ltac:(lia)) as (Hp & Hk & Hf & Hs).
      destruct (partition_rec p fuel l) as [r k]; simpl in *.
      repeat split; auto; try lia.
    + destruct (split_last p l) as [[[mid y] tail]|] eqn:E.
      * apply split_last_some in E. destruct E as (-> & Hy & Ht).
        rewrite length_app in Hl; simpl in Hl.
        destruct (IH mid ltac:(lia)) as (Hp & Hk & Hf & Hs).
        destruct (partition_rec p fuel mid) as [r k]; simpl in *.
        repeat split.
        -- transitivity (x :: y :: r ++ tail).
           ++ etransitivity; [|apply perm_swap].
              constructor. symmetry. apply Permutation_middle.
           ++ constructor. rewrite Hp. apply Permutation_middle.
        -- rewrite length_app. lia.
        -- rewrite firstn_app. replace (k - length r) with 0 by lia.
           simpl. rewrite app_nil_r. constructor; auto.
        -- rewrite skipn_app. replace (k - length r) with 0 by lia.
           simpl. apply Forall_app. split; auto.
      * apply split_last_none in E. simpl. repeat split; auto; try lia.
Qed.

Lemma std_partition_spec {A : Type} (p : A -> bool) (l : list A) :
  Permutation (fst (std_partition p l)) l
  /\ snd (std_partition p l) <= length (fst (std_partition p l))
  /\ Forall (fun a => p a = true) (firstn (snd (std_partition p l)) (fst (std_partition p l)))
  /\ Forall (fun a => p a = false) (skipn (snd (std_partition p l)) (fst (std_partition p l))).
Proof. apply partition_rec_spec. unfold lt; lia. Qed.

Lemma partitions_intro (p : nat -> bool) (S left right : list nat) :
  Permutation (left ++ right) S ->
  Forall (fun i => p i = true) left ->
  Forall (fun i => p i = false) right ->
  partitions p S left right.
Proof.
  intros HP HL HR. rewrite Forall_forall in HL, HR.
  assert (Hin : forall i, In i S -> In i left \/ In i right).
  { intros i Hi. apply in_app_or. eapply Permutation_in; [symmetry; eassumption|assumption]. }
  repeat split.
  - assumption.
  - intros i Hl Hr. apply HL in Hl. apply HR in Hr. congruence.
  - auto.
  - intros Hp. destruct (Hin i H) as [Hl|Hr]; trivial.
    apply HR in Hr. congruence.
  - auto.
  - intros Hp. destruct (Hin i H) as [Hl|Hr]; trivial.
    apply HL in Hl. congruence.
Qed.

(** ** Node.hpp *)

(** C10.  [makeLeaf(p, np)] stores [np] as the node prediction unless
    [np == 0.0], in which case it stores [p]; and a node that is not a
    leaf answers 0.0 to [getNodePrediction()], whatever it holds. *)
Theorem makeLeaf_nodePrediction (D : Type) (HD : Double D) :
  (forall (n : Node D) (p np : D),
      getNodePrediction (makeLeaf n p np) = (if (np =? zero)%dbl then p else np)
      /\ getPrediction (makeLeaf n p np) = p)
  /\ (forall (s : nat) (m : D) (i : NodeInfo D) (l r : option (Node D)),
         getNodePrediction (mkNode false s m i l r) = zero).
Proof.
  split.
  - intros n p np. unfold getNodePrediction, getPrediction, makeLeaf. simpl.
    destruct (np =? zero)%dbl; split; reflexivity.
  - reflexivity.
Qed.

(** ** Comparisons of real numbers *)

Lemma Rltb_true (x y : R) : Rltb x y = true <-> (x < y)%R.
Proof. unfold Rltb. destruct (Rlt_dec x y); split; intros; try discriminate; tauto. Qed.

Lemma Rltb_false (x y : R) : Rltb x y = false <-> (y <= x)%R.
Proof.
  unfold Rltb. destruct (Rlt_dec x y); split; intros; try discriminate; try lra; reflexivity.
Qed.

Lemma Rleb_true (x y : R) : Rleb x y = true <-> (x <= y)%R.
Proof. unfold Rleb. destruct (Rle_dec x y); split; intros; try discriminate; tauto. Qed.

Lemma Rleb_false (x y : R) : Rleb x y = false <-> (y < x)%R.
Proof.
  unfold Rleb. destruct (Rle_dec x y); split; intros; try discriminate; try lra; reflexivity.
Qed.

Lemma of_size_pos (n : nat) : (0 < n)%nat -> (0 < of_size (D := R) n)%R.
Proof. intros Hn. unfold of_size. cbn. apply IZR_lt. lia. Qed.

(** ** The growth engine *)

Lemma split_indices_partitions {D : Type} {HD : Double D}
      (data : list D) (rowLength f : Z) (t : D) (S : list nat) :
  partitions (fun i : nat => (feature data rowLength i f <=? t)%dbl) S
             (fst (SingleTreeTrainer.split_indices data rowLength f t S))
             (snd (SingleTreeTrainer.split_indices data rowLength f t S)).
Proof.
  unfold SingleTreeTrainer.split_indices.
  rewrite (fold_split_filter (SingleTreeTrainer.goes_left data rowLength f t)). simpl.
  apply partitions_intro.
  - apply filter_split_perm.
  - apply Forall_forall. intros i Hi. apply filter_In in Hi. apply Hi.
  - apply Forall_forall. intros i Hi. apply filter_In in Hi.
    destruct Hi as [_ Hi]. now apply negb_true_iff in Hi.
Qed.

Lemma std_partition_partitions {D : Type} {HD : Double D}
      (data : list D) (rowLength f : Z) (t : D) (S : list nat) :
  partitions (fun i : nat => (feature data rowLength i f <=? t)%dbl) S
    (firstn (snd (std_partition (SingleTreeTrainer.goes_left data rowLength f t) S))
            (fst (std_partition (SingleTreeTrainer.goes_left data rowLength f t) S)))
    (skipn (snd (std_partition (SingleTreeTrainer.goes_left data rowLength f t) S))
           (fst (std_partition (SingleTreeTrainer.goes_left data rowLength f t) S))).
Proof.
  destruct (std_partition_spec (SingleTreeTrainer.goes_left data rowLength f t) S)
    as (HP & _ & HL & HR).
  apply partitions_intro.
  - now rewrite firstn_skipn.
  - exact HL.
  - exact HR.
Qed.

(** C1.  The two index vectors a node split hands to the children are a
    partition of the node's subset [S]: their concatenation is a
    permutation of [S], they share no index, and an index of [S] is on
    the left exactly when [data[i * rowLength + f] <= t].  This holds for
    the loop of [processTask] and for the [std::partition] call of
    [splitNodeOptimized]. *)
Theorem split_is_partition (D : Type) (HD : Double D)
        (data : list D) (rowLength f : Z) (t : D) (S : list nat) :
  let goes_left := fun i : nat => (feature data rowLength i f <=? t)%dbl in
  partitions goes_left S
             (fst (SingleTreeTrainer.split_indices data rowLength f t S))
             (snd (SingleTreeTrainer.split_indices data rowLength f t S))
  /\ (let indices := fst (std_partition (SingleTreeTrainer.goes_left data rowLength f t) S) in
      let leftSize := snd (std_partition (SingleTreeTrainer.goes_left data rowLength f t) S) in
      partitions goes_left S (firstn leftSize indices) (skipn leftSize indices)).
Proof.
  intros goes_left. split.
  - apply split_indices_partitions.
  - apply std_partition_partitions.
Qed.

Lemma too_small_false {D : Type} (this : SingleTreeTrainer D) (size : nat) :
  (- 2 ^ 31 <= minSamplesLeaf_ this < 2 ^ 31)%Z ->
  SingleTreeTrainer.too_small this size = false ->
  (minSamplesLeaf_ this <= Z.of_nat size)%Z.
Proof.
  unfold SingleTreeTrainer.too_small, size_t_of_int. intros Hr Hs.
  apply Z.ltb_ge in Hs.
  destruct (Z_lt_le_dec (minSamplesLeaf_ this) 0) as [Hneg|Hpos]; [lia|].
  rewrite Z.mod_small in Hs; lia.
Qed.

Lemma fuel_step (M depth : Z) :
  (M <=? depth)%Z = false ->
  Z.to_nat (M - depth) = S (Z.to_nat (M - (depth + 1))).
Proof. intros H. apply Z.leb_gt in H. lia. Qed.

Section Growth.
Context {D : Type} {HD : Double D}.
Variable this : SingleTreeTrainer D.
Variables (data : list D) (rowLength : Z) (labels : list D).
Hypothesis order_total : forall x : D, (x <=? zero)%dbl = false -> (zero <? x)%dbl = true.
Hypothesis minSamplesLeaf_int : (- 2 ^ 31 <= minSamplesLeaf_ this < 2 ^ 31)%Z.

Lemma getPrediction_makeLeaf (n : Node D) (p : D) :
  getPrediction (makeLeaf n p p) = p.
Proof. reflexivity. Qed.

Lemma metric_set (node : Node D) (m : D) (s : nat) :
  metric (set_samples (set_metric node m) s) = m.
Proof. reflexivity. Qed.

Lemma splitNodeOptimized_grown (node : Node D) (indices : list nat) (depth : Z) :
  indices <> [] ->
  grown_recursive this data rowLength labels indices depth
    (SingleTreeTrainer.splitNodeOptimized this data rowLength labels node indices depth).
Proof.
  intros Hne. unfold SingleTreeTrainer.splitNodeOptimized.
  destruct indices as [|i0 rest]; [congruence|]. clear Hne.
  remember (Z.to_nat (maxDepth_ this - depth)) as fuel eqn:Hfuel.
  assert (Hstep : (maxDepth_ this <=? depth)%Z = false ->
                  fuel = S (Z.to_nat (maxDepth_ this - (depth + 1)))).
  { intros Hd. rewrite Hfuel. now apply fuel_step. }
  clear Hfuel.
  destruct fuel as [|fuel']; cbn [SingleTreeTrainer.splitNodeOptimized_rec];
    cbv zeta; rewrite metric_set.
  all: destruct (SingleTreeTrainer.stop_before_split this (i0 :: rest) depth) eqn:Hstop;
    [left; split; reflexivity|].
  all: destruct (findBestSplit (finder_ this) data rowLength labels (i0 :: rest)
                   (nodeMetric (criterion_ this) labels (i0 :: rest)) (criterion_ this))
         as [[f t] g] eqn:Hfind.
  all: destruct ((f <? 0)%Z || (g <=? zero)%dbl) eqn:Hfg; [left; split; reflexivity|].
  all: destruct (SingleTreeTrainer.below_minGain this g) eqn:Hmin;
    [left; split; reflexivity|].
  all: pose proof (std_partition_partitions data rowLength f t (i0 :: rest)) as Hpart.
  all: destruct (std_partition (SingleTreeTrainer.goes_left data rowLength f t) (i0 :: rest))
         as [indices' leftSize] eqn:Hsp; simpl fst in Hpart; simpl snd in Hpart.
  all: destruct (SingleTreeTrainer.too_small this leftSize
                 || SingleTreeTrainer.too_small this (length indices' - leftSize)) eqn:Hsmall;
    [left; split; reflexivity|].
  all: apply orb_false_iff in Hfg; destruct Hfg as [Hf Hg].
  all: apply orb_false_iff in Hsmall; destruct Hsmall as [Hl Hr].
  all: unfold SingleTreeTrainer.stop_before_split in Hstop.
  all: apply orb_false_iff in Hstop; destruct Hstop as [Hstop _].
  all: apply orb_false_iff in Hstop; destruct Hstop as [Hdepth _].
  all: specialize (Hstep Hdepth); try discriminate.
  injection Hstep as ->.
  right. split; [reflexivity|].
  exists f, t, g, (firstn leftSize indices'), (skipn leftSize indices').
  assert (Hk : leftSize <= length indices').
  { pose proof (std_partition_spec (SingleTreeTrainer.goes_left data rowLength f t) (i0 :: rest)) as Hs.
    rewrite Hsp in Hs. simpl in Hs. apply Hs. }
  split; [|repeat split; reflexivity].
  split; [exact Hfind|].
  split; [now apply Z.ltb_ge in Hf|].
  split; [now apply order_total|].
  split; [exact Hmin|].
  split; [exact Hpart|].
  split.
  - rewrite length_firstn, Nat.min_l by exact Hk. now apply too_small_false.
  - rewrite length_skipn. now apply too_small_false.
Qed.

Lemma processNode_grown (node : Node D) (indices : list nat) (depth : Z) :
  indices <> [] ->
  grown_task this data rowLength labels indices
    (SingleTreeTrainer.processNode this data rowLength labels node indices depth).
Proof.
  intros Hne. unfold SingleTreeTrainer.processNode.
  destruct indices as [|i0 rest]; [congruence|]. clear Hne.
  cbv zeta; rewrite metric_set.
  destruct (SingleTreeTrainer.stop_before_split this (i0 :: rest) depth) eqn:Hstop;
    [left; repeat split; reflexivity|].
  destruct (findBestSplit (finder_ this) data rowLength labels (i0 :: rest)
              (nodeMetric (criterion_ this) labels (i0 :: rest)) (criterion_ this))
    as [[f t] g] eqn:Hfind.
  destruct ((f <? 0)%Z || (g <=? zero)%dbl) eqn:Hfg; [left; repeat split; reflexivity|].
  destruct (SingleTreeTrainer.below_minGain this g) eqn:Hmin;
    [left; repeat split; reflexivity|].
  pose proof (split_indices_partitions data rowLength f t (i0 :: rest)) as Hpart.
  destruct (SingleTreeTrainer.split_indices data rowLength f t (i0 :: rest))
    as [leftIndices rightIndices] eqn:Hsp; simpl fst in Hpart; simpl snd in Hpart.
  destruct (SingleTreeTrainer.too_small this (length leftIndices)
            || SingleTreeTrainer.too_small this (length rightIndices)) eqn:Hsmall;
    [left; repeat split; reflexivity|].
  apply orb_false_iff in Hfg; destruct Hfg as [Hf Hg].
  apply orb_false_iff in Hsmall; destruct Hsmall as [Hl Hr].
  right. split; [reflexivity|].
  exists f, t, g, leftIndices, rightIndices.
  split; [|repeat split; reflexivity].
  split; [exact Hfind|].
  split; [now apply Z.ltb_ge in Hf|].
  split; [now apply order_total|].
  split; [exact Hmin|].
  split; [exact Hpart|].
  split; now apply too_small_false.
Qed.

End Growth.

Section GrowthIsFull.
Context {D : Type} {HD : Double D}.
Variable this : SingleTreeTrainer D.
Variables (data : list D) (rowLength : Z) (labels : list D).

Lemma splitNodeOptimized_rec_full (fuel : nat) :
  forall (node : Node D) (indices : list nat) (depth : Z),
    fuel = Z.to_nat (maxDepth_ this - depth) ->
    full (SingleTreeTrainer.splitNodeOptimized_rec this data rowLength labels
                                                   fuel node indices depth).
Proof.
  induction fuel as [|fuel IH]; intros node indices depth Hfuel;
    (destruct indices as [|i0 rest]; [exact I|]);
    cbn [SingleTreeTrainer.splitNodeOptimized_rec]; cbv zeta.
  all: destruct (SingleTreeTrainer.stop_before_split this (i0 :: rest) depth) eqn:Hstop;
    [exact I|].
  all: destruct (findBestSplit _ _ _ _ _ _ _) as [[f t] g].
  all: destruct (_ || _); [exact I|].
  all: destruct (SingleTreeTrainer.below_minGain this g); [exact I|].
  all: destruct (std_partition _ _) as [indices' leftSize].
  all: destruct (_ || _); [exact I|].
  all: unfold SingleTreeTrainer.stop_before_split in Hstop.
  all: apply orb_false_iff in Hstop; destruct Hstop as [Hstop _].
  all: apply orb_false_iff in Hstop; destruct Hstop as [Hdepth _].
  all: pose proof (fuel_step _ _ Hdepth) as Hstep.
  - lia.
  - cbn. split; apply IH; lia.
Qed.

Lemma splitNodeOptimized_full (node : Node D) (indices : list nat) (depth : Z) :
  full (SingleTreeTrainer.splitNodeOptimized this data rowLength labels node indices depth).
Proof. now apply splitNodeOptimized_rec_full. Qed.

End GrowthIsFull.



(** ** Scenarios *)


(** ** The finders *)

Section FinderFacts.
Context {D : Type} {HD : Double D}.

Lemma exhaustive_scan_none (data : list D) (rowLength : Z) (labels : list D)
      (N : nat) (totalSum totalSumSq parentMSE : D) (f : Z) (sorted : list nat) :
  forall i leftSum leftSumSq,
    Forall not_positive
           (exhaustive_scan_gains data rowLength labels N totalSum totalSumSq parentMSE f
                                  sorted i leftSum leftSumSq) ->
    ExhaustiveSplitFinder.scan data rowLength labels N totalSum totalSumSq parentMSE f
                               sorted i leftSum leftSumSq ((-1)%Z, zero, zero)
    = ((-1)%Z, zero, zero).
Proof.
  induction sorted as [|idx rest IH]; intros i leftSum leftSumSq Hall; [reflexivity|].
  destruct rest as [|next rest']; [reflexivity|].
  cbn [ExhaustiveSplitFinder.scan exhaustive_scan_gains] in *. cbv zeta in *.
  apply Forall_app in Hall. destruct Hall as [Hhere Hrest].
  destruct (_ + ExhaustiveSplitFinder.EPS <? _)%dbl.
  - inversion Hhere as [|g gs Hg _]; subst. unfold not_positive in Hg.
    cbn [snd]. rewrite Hg. now apply IH.
  - now apply IH.
Qed.

Lemma exhaustive_features_none (data : list D) (rowLength : Z) (labels : list D)
      (N : nat) (totalSum totalSumSq parentMSE : D) (indices : list nat) (fs : list Z) :
  Forall not_positive
         (flat_map (fun f =>
                      exhaustive_scan_gains data rowLength labels N totalSum totalSumSq
                        parentMSE f
                        (std_sort (fun a b => (feature data rowLength a f
                                               <? feature data rowLength b f)%dbl) indices)
                        0 zero zero) fs) ->
  fold_left (ExhaustiveSplitFinder.scan_feature data rowLength labels N totalSum totalSumSq
                                                parentMSE indices)
            fs ((-1)%Z, zero, zero)
  = ((-1)%Z, zero, zero).
Proof.
  induction fs as [|f fs IH]; intros Hall; [reflexivity|].
  cbn [flat_map] in Hall. apply Forall_app in Hall. destruct Hall as [Hf Hfs].
  cbn [fold_left]. unfold ExhaustiveSplitFinder.scan_feature at 2.
  rewrite exhaustive_scan_none by exact Hf. now apply IH.
Qed.

Lemma exhaustive_no_positive_gain (data : list D) (rowLength : Z) (labels : list D)
      (indices : list nat) (currentMetric : D) (criterion : ISplitCriterion D) :
  Forall not_positive (exhaustive_candidate_gains data rowLength labels indices) ->
  ExhaustiveSplitFinder.findBestSplit data rowLength labels indices currentMetric criterion
  = ((-1)%Z, zero, zero).
Proof.
  unfold exhaustive_candidate_gains, ExhaustiveSplitFinder.findBestSplit.
  destruct (length indices <? 2)%nat; [reflexivity|].
  destruct (ExhaustiveSplitFinder.totals labels indices) as [totalSum totalSumSq].
  cbv zeta. intros Hall.
  rewrite exhaustive_features_none by exact Hall.
  destruct (1000 <? length indices)%nat; [|reflexivity].
  destruct (_ <? _)%dbl; reflexivity.
Qed.

Context {HL : Limits D}.
Hypothesis neg_infinity_irrefl : (neg_infinity <? neg_infinity)%dbl = false.

Lemma quartile_thresholds_none (X : list D) (D_ : Z) (y : list D) (idx : list nat)
      (parentMetric : D) (crit : ISplitCriterion D) (f : Z) (thrs : list D) :
  forall st,
    flat_map (fun thr =>
                match quartile_gain X D_ y idx parentMetric crit f thr with
                | Some g => [g]
                | None => []
                end) thrs = [] ->
    fold_left (QuartileSplitFinder.try_threshold X D_ y idx parentMetric crit f) thrs st = st.
Proof.
  induction thrs as [|thr thrs IH]; intros st Hnone; [reflexivity|].
  cbn [flat_map] in Hnone. apply app_eq_nil in Hnone. destruct Hnone as [Hthr Hthrs].
  cbn [fold_left]. rewrite <- (IH st Hthrs) at 2. f_equal.
  unfold QuartileSplitFinder.try_threshold. unfold quartile_gain in Hthr.
  destruct (QuartileSplitFinder.buffers X D_ idx f thr) as [[|l ls] [|r rs]];
    try reflexivity; discriminate.
Qed.

Lemma quartile_features_none (X : list D) (D_ : Z) (y : list D) (idx : list nat)
      (parentMetric : D) (crit : ISplitCriterion D) (fs : list Z) :
  flat_map (fun f =>
              let vals := map (fun i => feature X D_ i f) idx in
              flat_map (fun thr =>
                          match quartile_gain X D_ y idx parentMetric crit f thr with
                          | Some g => [g]
                          | None => []
                          end)
                       (QuartileSplitFinder.thrList (std_sort dltb vals))) fs = [] ->
  fold_left (QuartileSplitFinder.scan_feature X D_ y idx parentMetric crit) fs
            ((-1)%Z, zero, neg_infinity)
  = ((-1)%Z, zero, neg_infinity).
Proof.
  induction fs as [|f fs IH]; intros Hnone; [reflexivity|].
  cbn [flat_map] in Hnone. apply app_eq_nil in Hnone. destruct Hnone as [Hf Hfs].
  cbn [fold_left]. rewrite <- (IH Hfs) at 2. f_equal.
  unfold QuartileSplitFinder.scan_feature.
  destruct (length _ <? 4)%nat; [reflexivity|].
  cbv zeta in Hf. rewrite quartile_thresholds_none by exact Hf.
  cbn [snd]. rewrite neg_infinity_irrefl. reflexivity.
Qed.

Lemma quartile_no_candidate (X : list D) (D_ : Z) (y : list D) (idx : list nat)
      (parentMetric : D) (crit : ISplitCriterion D) :
  quartile_candidate_gains X D_ y idx parentMetric crit = [] ->
  fst (fst (QuartileSplitFinder.findBestSplit X D_ y idx parentMetric crit)) = (-1)%Z.
Proof.
  unfold quartile_candidate_gains, QuartileSplitFinder.findBestSplit. intros Hnone.
  destruct (length idx <? 4)%nat; [reflexivity|].
  rewrite quartile_features_none by exact Hnone. reflexivity.
Qed.

End FinderFacts.




(** ** The criteria over the reals *)

Lemma fold_left_nonneg {A : Type} (f : R -> A -> R) (l : list A) :
  (forall s a, (0 <= s)%R -> (0 <= f s a)%R) ->
  forall s0, (0 <= s0)%R -> (0 <= fold_left f l s0)%R.
Proof.
  intros Hf. induction l as [|a l IH]; intros s0 Hs0; simpl; auto.
Qed.

Lemma div_size_nonneg (x : R) (n : nat) :
  (0 <= x)%R -> (0 < n)%nat -> (0 <= x / of_size (D := R) n)%R.
Proof.
  intros Hx Hn. apply Rmult_le_pos; [exact Hx|].
  left. apply Rinv_0_lt_compat. now apply of_size_pos.
Qed.

Lemma cosh_ge_1 (x : R) : (1 <= cosh x)%R.
Proof.
  unfold cosh. rewrite exp_Ropp.
  pose proof (exp_pos x) as Hp. remember (exp x) as a.
  assert (Hi : (a * / a = 1)%R) by (apply Rinv_r; lra).
  assert (Hq : (0 < / a)%R) by (now apply Rinv_0_lt_compat).
  remember (/ a)%R as b.
  assert (He : (a + b - 2 = (a - 1) * (a - 1) * b)%R).
  { replace ((a - 1) * (a - 1) * b)%R with (a * (a * b) - 2 * (a * b) + b)%R by ring.
    rewrite Hi. ring. }
  assert (Hs : (0 <= (a - 1) * (a - 1) * b)%R).
  { apply Rmult_le_pos; [apply (Rle_0_sqr (a - 1))|lra]. }
  lra.
Qed.

Lemma ln_nonneg (x : R) : (1 <= x)%R -> (0 <= ln x)%R.
Proof.
  intros [Hx| <-].
  - left. rewrite <- ln_1. apply ln_increasing; lra.
  - rewrite ln_1. lra.
Qed.

Lemma Rtrunc_0 : Rtrunc 0 = 0%Z.
Proof.
  unfold Rtrunc. destruct (Rle_dec 0 0) as [_|Hn]; [|lra].
  symmetry. apply Int_part_spec. simpl. lra.
Qed.

Lemma MSE_nonneg (labels : list R) (idx : list nat) :
  (0 <= MSECriterion.nodeMetric labels idx)%R.
Proof.
  unfold MSECriterion.nodeMetric. destruct idx as [|i idx]; [cbn; lra|].
  destruct (fold_left _ _ _) as [sum sumSq].
  unfold std_max. destruct (_ <? _)%dbl eqn:E; cbn in *.
  - apply Rltb_true in E. lra.
  - lra.
Qed.

Lemma MAE_nonneg (labels : list R) (idx : list nat) :
  (0 <= MAECriterion.nodeMetric labels idx)%R.
Proof.
  unfold MAECriterion.nodeMetric. destruct idx as [|i idx]; [cbn; lra|].
  cbv zeta. apply div_size_nonneg; [|simpl; lia].
  apply fold_left_nonneg; [|cbn; lra].
  intros s a Hs. cbn. pose proof (Rabs_pos (at_nat labels a - MAECriterion.subsetMedianParallel labels (i :: idx))).
  cbn in *. lra.
Qed.

Lemma Huber_nonneg (delta : R) (labels : list R) (idx : list nat) :
  (0 <= delta)%R ->
  (0 <= HuberCriterion.nodeMetric delta labels idx)%R.
Proof.
  intros Hd.
  unfold HuberCriterion.nodeMetric. destruct idx as [|i idx]; [cbn; lra|].
  cbv zeta. apply div_size_nonneg; [|simpl; lia].
  apply fold_left_nonneg; [|cbn; lra].
  intros s a Hs. destruct (_ <=? _)%dbl eqn:E; cbn in *.
  - remember (at_nat labels a - _)%R as r. nra.
  - apply Rleb_false in E. remember (Rabs _) as ar. nra.
Qed.

Lemma LogCosh_nonneg (labels : list R) (idx : list nat) :
  (0 <= LogCoshCriterion.nodeMetric labels idx)%R.
Proof.
  unfold LogCoshCriterion.nodeMetric. destruct idx as [|i idx]; [cbn; lra|].
  cbv zeta. apply div_size_nonneg; [|simpl; lia].
  apply fold_left_nonneg; [|cbn; lra].
  intros s a Hs. cbn.
  pose proof (ln_nonneg (cosh_ge_1 (at_nat labels a - sum_labels labels (i :: idx) / of_size (length (i :: idx))))) as Hl.
  cbn in Hl. lra.
Qed.

Lemma Quantile_nonneg (tau : R) (labels : list R) (idx : list nat) :
  (0 <= tau <= 1)%R ->
  (0 <= QuantileCriterion.nodeMetric tau labels idx)%R.
Proof.
  intros Ht.
  unfold QuantileCriterion.nodeMetric. destruct idx as [|i idx]; [cbn; lra|].
  cbv zeta. apply div_size_nonneg; [|simpl; lia].
  apply fold_left_nonneg; [|cbn; lra].
  intros s a Hs. destruct (_ <? _)%dbl eqn:E; cbn in *.
  - apply Rltb_true in E. remember (a - _)%R as v. nra.
  - apply Rltb_false in E. remember (a - _)%R as v. nra.
Qed.

Lemma singleton_scores (delta tau : R) (labels : list R) (i : nat) :
  (0 <= delta)%R ->
  MSECriterion.nodeMetric labels [i] = 0%R
  /\ MAECriterion.nodeMetric labels [i] = 0%R
  /\ HuberCriterion.nodeMetric delta labels [i] = 0%R
  /\ QuantileCriterion.nodeMetric tau labels [i] = 0%R
  /\ LogCoshCriterion.nodeMetric labels [i] = 0%R.
Proof.
  intros Hd. set (y := at_nat labels i).
  repeat split.
  - unfold MSECriterion.nodeMetric, std_max. cbn. fold y.
    replace ((0 + y * y) / 1 - (0 + y) / 1 * ((0 + y) / 1))%R with 0%R by field.
    destruct (Rltb 0 0); reflexivity.
  - unfold MAECriterion.nodeMetric, MAECriterion.subsetMedianParallel. cbn. fold y.
    replace (y - y)%R with 0%R by ring. rewrite Rabs_R0. field.
  - unfold HuberCriterion.nodeMetric, sum_labels. cbn. fold y.
    replace (y - (0 + y) / 1)%R with 0%R by field. rewrite Rabs_R0.
    destruct (Rleb 0 delta) eqn:E.
    + field.
    + apply Rleb_false in E. lra.
  - unfold QuantileCriterion.nodeMetric. cbn. fold y.
    rewrite Rmult_0_r, Rtrunc_0. cbn. fold y.
    replace (y - y)%R with 0%R by ring.
    destruct (Rltb 0 0); field.
  - unfold LogCoshCriterion.nodeMetric, sum_labels. cbn. fold y.
    replace (y - (0 + y) / 1)%R with 0%R by field.
    rewrite cosh_0, ln_1. field.
Qed.

Lemma std_max_eps (y : R) : (1 <= y)%R -> std_max y d1e_12 = y.
Proof.
  intros Hy. unfold std_max. cbn. destruct (Rltb y (/ 1000000000000)) eqn:E; [|reflexivity].
  apply Rltb_true in E. lra.
Qed.

Lemma Poisson_singleton (labels : list R) (i : nat) :
  let m := std_max (at_nat labels i) d1e_12 in
  PoissonCriterion.nodeMetric labels [i] = (m - m * ln m)%R.
Proof.
  cbv zeta. unfold PoissonCriterion.nodeMetric, sum_labels. cbn.
  replace ((0 + at_nat labels i) / 1)%R with (at_nat labels i) by field.
  field.
Qed.

(** C5, as stated, fails for the Poisson criterion: on the singleton
    subset with label 1.0 it returns 1.0, and on the one with label 4.0
    a negative value. *)
Lemma Poisson_singleton_not_zero :
  PoissonCriterion.nodeMetric [1%R] [0%nat] = 1%R
  /\ (PoissonCriterion.nodeMetric [4%R] [0%nat] < 0)%R.
Proof.
  split.
  - rewrite Poisson_singleton. cbn [at_nat nth]. rewrite std_max_eps by lra.
    rewrite ln_1. ring.
  - rewrite Poisson_singleton. cbn [at_nat nth]. rewrite std_max_eps by lra.
    assert (H : (1 < ln 4)%R).
    { rewrite <- (ln_exp 1). apply ln_increasing; [apply exp_pos|].
      pose proof exp_le_3. lra. }
    lra.
Qed.

(** C5, amended.  In real arithmetic the MSE, MAE, Huber (for a
    threshold [delta >= 0]), quantile (for a level [0 <= tau <= 1]) and
    log-cosh criteria return a value [>= 0] on every index set and exactly
    0 on every singleton.  The Poisson criterion returns [m - m * ln m]
    on a singleton with label [y], where [m = max(y, 1e-12)]. *)
Theorem criteria_nonneg_and_singletons
        (delta tau : R) (labels : list R) (idx : list nat) (i : nat) :
  (0 <= delta)%R ->
  (0 <= tau <= 1)%R ->
  ((0 <= MSECriterion.nodeMetric labels idx)%R
   /\ (0 <= MAECriterion.nodeMetric labels idx)%R
   /\ (0 <= HuberCriterion.nodeMetric delta labels idx)%R
   /\ (0 <= QuantileCriterion.nodeMetric tau labels idx)%R
   /\ (0 <= LogCoshCriterion.nodeMetric labels idx)%R)
  /\ (MSECriterion.nodeMetric labels [i] = 0%R
      /\ MAECriterion.nodeMetric labels [i] = 0%R
      /\ HuberCriterion.nodeMetric delta labels [i] = 0%R
      /\ QuantileCriterion.nodeMetric tau labels [i] = 0%R
      /\ LogCoshCriterion.nodeMetric labels [i] = 0%R)
  /\ (let m := std_max (at_nat labels i) d1e_12 in
      PoissonCriterion.nodeMetric labels [i] = (m - m * ln m)%R).
Proof.
  intros Hd Ht. split; [|split].
  - repeat split.
    + apply MSE_nonneg.
    + apply MAE_nonneg.
    + now apply Huber_nonneg.
    + now apply Quantile_nonneg.
    + apply LogCosh_nonneg.
  - now apply singleton_scores.
  - apply Poisson_singleton.
Qed.

Lemma criteria_nonneg_and_singletons_witness :
  ((0 <= MSECriterion.nodeMetric [1; 5]%R [0; 1]%nat)%R
   /\ (0 <= MAECriterion.nodeMetric [1; 5]%R [0; 1]%nat)%R
   /\ (0 <= HuberCriterion.nodeMetric 1%R [1; 5]%R [0; 1]%nat)%R
   /\ (0 <= QuantileCriterion.nodeMetric (1 / 2)%R [1; 5]%R [0; 1]%nat)%R
   /\ (0 <= LogCoshCriterion.nodeMetric [1; 5]%R [0; 1]%nat)%R)
  /\ (MSECriterion.nodeMetric [1; 5]%R [0%nat] = 0%R
      /\ MAECriterion.nodeMetric [1; 5]%R [0%nat] = 0%R
      /\ HuberCriterion.nodeMetric 1%R [1; 5]%R [0%nat] = 0%R
      /\ QuantileCriterion.nodeMetric (1 / 2)%R [1; 5]%R [0%nat] = 0%R
      /\ LogCoshCriterion.nodeMetric [1; 5]%R [0%nat] = 0%R)
  /\ (let m := std_max (at_nat [1; 5]%R 0) d1e_12 in
      PoissonCriterion.nodeMetric [1; 5]%R [0%nat] = (m - m * ln m)%R).
Proof.
  apply (@criteria_nonneg_and_singletons 1%R (1 / 2)%R [1; 5]%R [0; 1]%nat 0%nat); lra.
Defined.

(** ** The pruners *)

Section Pruners.
Context {D : Type} {HD : Double D}.

Lemma cc_pruneRec_leaf (alpha : D) (n : Node D) :
  isLeaf n = true ->
  CostComplexityPruner.pruneRec alpha n = Ok (n, (metric n * of_size (samples n))%dbl).
Proof. destruct n as [b s m i l r]; simpl. intros ->. reflexivity. Qed.

(** The rule of [pruneRec] at a node that is not a leaf, once its
    children are pruned. *)
Lemma cc_pruneRec_internal (alpha : D) (s : nat) (m : D) (i : NodeInfo D)
      (l r l' r' : Node D) (errLeft errRight : D) :
  CostComplexityPruner.pruneRec alpha l = Ok (l', errLeft) ->
  CostComplexityPruner.pruneRec alpha r = Ok (r', errRight) ->
  let n := mkNode false s m i (Some l') (Some r') in
  let subtreeError := (errLeft + errRight)%dbl in
  let subtreeLeaves :=
    (CostComplexityPruner.countLeaves (Some l') + CostComplexityPruner.countLeaves (Some r'))%Z in
  let leafCost := (m * of_size s + alpha)%dbl in
  let subtreeCost := (subtreeError + alpha * of_Z subtreeLeaves)%dbl in
  CostComplexityPruner.pruneRec alpha (mkNode false s m i (Some l) (Some r))
  = if (leafCost <=? subtreeCost)%dbl
    then Ok (makeLeaf n zero zero, (m * of_size s)%dbl)
    else Ok (n, subtreeError).
Proof.
  intros Hl Hr. cbn [CostComplexityPruner.pruneRec]. rewrite Hl, Hr. reflexivity.
Qed.

Lemma cc_pruneRec_idempotent (alpha : D) (n : Node D) :
  forall n' e,
    CostComplexityPruner.pruneRec alpha n = Ok (n', e) ->
    CostComplexityPruner.pruneRec alpha n' = Ok (n', e).
Proof.
  induction n as [b s m i l r IHl IHr] using Node_induction.
  intros n' e. destruct b.
  - cbn. intros [= <- <-]. reflexivity.
  - destruct l as [l|]; [|cbn; discriminate].
    destruct (CostComplexityPruner.pruneRec alpha l) as [[l' el]|] eqn:El;
      [|cbn; rewrite El; discriminate].
    destruct r as [r|]; [|cbn; rewrite El; discriminate].
    destruct (CostComplexityPruner.pruneRec alpha r) as [[r' er]|] eqn:Er;
      [|cbn; rewrite El, Er; discriminate].
    rewrite (cc_pruneRec_internal alpha s m i _ _ El Er). cbv zeta.
    simpl in IHl, IHr.
    specialize (IHl _ _ El). specialize (IHr _ _ Er).
    destruct (_ <=? _)%dbl eqn:Hc.
    + intros [= <- <-]. reflexivity.
    + intros [= <- <-].
      rewrite (cc_pruneRec_internal alpha s m i _ _ IHl IHr). cbv zeta.
      rewrite Hc. reflexivity.
Qed.

Context {HU : UnionLayout D}.

Lemma re_tryCollapse_shape (Xv : list D) (D_ : Z) (yv : list D)
      (s : nat) (m : D) (i : NodeInfo D) (l r : option (Node D)) :
  let pruned := mkNode true s m (leaf zero zero) None None in
  let kept := mkNode false s m (leaf zero zero) l r in
  ReducedErrorPruner.tryCollapse Xv D_ yv (mkNode false s m i l r)
  = (msePruned <- ReducedErrorPruner.validate Xv D_ yv pruned ;;
     mseOriginal <- ReducedErrorPruner.validate Xv D_ yv kept ;;
     if (msePruned <=? mseOriginal)%dbl then Ok pruned else Ok kept).
Proof.
  assert (E : forall b : bool, (if b then zero else zero) = (zero : D))
    by (intros []; reflexivity).
  cbv zeta. unfold ReducedErrorPruner.tryCollapse, makeLeaf. cbn.
  rewrite !E. reflexivity.
Qed.

Lemma re_pruneRec_idempotent (Xv : list D) (D_ : Z) (yv : list D) (n : Node D) :
  forall n',
    ReducedErrorPruner.pruneRec_node Xv D_ yv n = Ok n' ->
    ReducedErrorPruner.pruneRec_node Xv D_ yv n' = Ok n'.
Proof.
  induction n as [b s m i l r IHl IHr] using Node_induction.
  intros n'. destruct b.
  - cbn. intros [= <-]. reflexivity.
  - cbn [ReducedErrorPruner.pruneRec_node].
    assert (Hchild : forall c c',
               on_child (fun n => forall n', ReducedErrorPruner.pruneRec_node Xv D_ yv n = Ok n' ->
                                             ReducedErrorPruner.pruneRec_node Xv D_ yv n' = Ok n') c ->
               match c with
               | Some x => x' <- ReducedErrorPruner.pruneRec_node Xv D_ yv x ;; Ok (Some x')
               | None => Ok None
               end = Ok c' ->
               match c' with
               | Some x => x' <- ReducedErrorPruner.pruneRec_node Xv D_ yv x ;; Ok (Some x')
               | None => Ok None
               end = Ok c').
    { intros [c|] c' IH; simpl in *.
      - destruct (ReducedErrorPruner.pruneRec_node Xv D_ yv c) as [x|] eqn:E; [|discriminate].
        simpl. intros [= <-]. rewrite (IH _ eq_refl). reflexivity.
      - intros [= <-]. reflexivity. }
    destruct (match l with Some _ => _ | None => _ end) as [l'|] eqn:El; [|discriminate].
    destruct (match r with Some _ => _ | None => _ end) as [r'|] eqn:Er; [|discriminate].
    apply Hchild in El; [|exact IHl]. apply Hchild in Er; [|exact IHr].
    rewrite re_tryCollapse_shape. cbv zeta.
    destruct (ReducedErrorPruner.validate Xv D_ yv _) as [mp|] eqn:Ep; [|discriminate].
    cbn [bind].
    destruct (ReducedErrorPruner.validate Xv D_ yv (mkNode false _ _ _ _ _)) as [mo|] eqn:Eo;
      [|discriminate].
    cbn [bind].
    destruct (mp <=? mo)%dbl eqn:Hc; intros [= <-].
    + reflexivity.
    + cbn [ReducedErrorPruner.pruneRec_node]. rewrite El, Er.
      rewrite re_tryCollapse_shape. cbv zeta. rewrite Ep. cbn [bind]. rewrite Eo. cbn [bind].
      rewrite Hc. reflexivity.
Qed.

End Pruners.

Section FullTrees.
Context {D : Type} {HD : Double D}.

Lemma cc_pruneRec_full (alpha : D) (n : Node D) :
  full n ->
  exists n' e, CostComplexityPruner.pruneRec alpha n = Ok (n', e) /\ full n'.
Proof.
  induction n as [b s m i l r IHl IHr] using Node_induction.
  destruct b.
  - intros _. eexists _, _. split; [reflexivity|exact I].
  - cbn [full]. destruct l as [l|]; [|tauto]. destruct r as [r|]; [|tauto].
    intros [Hl Hr].
    destruct (IHl Hl) as (l' & el & El & Fl). destruct (IHr Hr) as (r' & er & Er & Fr).
    rewrite (cc_pruneRec_internal alpha s m i _ _ El Er). cbv zeta.
    destruct (_ <=? _)%dbl; eexists _, _; (split; [reflexivity|]).
    + exact I.
    + cbn. tauto.
Qed.

Context {HU : UnionLayout D}.
Variables (Xv : list D) (D_ : Z) (yv : list D).

Lemma re_descend_full (i : nat) (n : Node D) :
  full n -> exists c, ReducedErrorPruner.descend Xv D_ i n = Ok c.
Proof.
  induction n as [b s m inf l r IHl IHr] using Node_induction.
  destruct b.
  - intros _. eexists. reflexivity.
  - cbn [full]. destruct l as [l|]; [|tauto]. destruct r as [r|]; [|tauto].
    intros [Hl Hr]. cbn [ReducedErrorPruner.descend].
    destruct (_ <=? _)%dbl; [apply (IHl Hl)|apply (IHr Hr)].
Qed.

Lemma re_validate_full (n : Node D) :
  full n -> exists mse, ReducedErrorPruner.validate Xv D_ yv n = Ok mse.
Proof.
  intros Hn. unfold ReducedErrorPruner.validate.
  assert (H : forall rows acc,
             exists mse,
               fold_left (fun acc i =>
                            mse <- acc ;;
                            cur <- ReducedErrorPruner.descend Xv D_ i n ;;
                            Ok (mse + (at_nat yv i - getPrediction cur)
                                      * (at_nat yv i - getPrediction cur))%dbl)
                         rows (Ok acc) = Ok mse).
  { induction rows as [|i rows IH]; intros acc; [eexists; reflexivity|].
    cbn [fold_left bind]. destruct (re_descend_full i n Hn) as (c & ->). cbn [bind]. apply IH. }
  destruct (H (seq 0 (length yv)) zero) as (mse & ->). eexists. reflexivity.
Qed.

Lemma re_pruneRec_full (n : Node D) :
  full n ->
  exists n', ReducedErrorPruner.pruneRec_node Xv D_ yv n = Ok n' /\ full n'.
Proof.
  induction n as [b s m inf l r IHl IHr] using Node_induction.
  destruct b.
  - intros _. eexists. split; [reflexivity|exact I].
  - cbn [full]. destruct l as [l|]; [|tauto]. destruct r as [r|]; [|tauto].
    intros [Hl Hr].
    destruct (IHl Hl) as (l' & El & Fl). destruct (IHr Hr) as (r' & Er & Fr).
    cbn [ReducedErrorPruner.pruneRec_node]. rewrite El, Er. cbn [bind].
    rewrite re_tryCollapse_shape. cbv zeta.
    destruct (re_validate_full (mkNode true s m (leaf zero zero) None None) I) as (mp & ->).
    cbn [bind].
    assert (Fk : full (mkNode false s m (leaf zero zero) (Some l') (Some r')))
      by (cbn; tauto).
    destruct (re_validate_full _ Fk) as (mo & ->). cbn [bind].
    destruct (mp <=? mo)%dbl; eexists; (split; [reflexivity|]); [exact I|exact Fk].
Qed.

End FullTrees.

Lemma prune_idempotent_if_returns {D : Type} {HD : Double D} {HU : UnionLayout D}
      (pruner : IPruner D) (root root' : option (Node D)) :
  prune pruner root = Ok root' ->
  prune pruner root' = Ok root'.
Proof.
  destruct pruner as [|g|alpha|Xv D_ yv]; simpl.
  - intros [= <-]. reflexivity.
  - intros [= <-]. reflexivity.
  - destruct root as [n|]; simpl.
    + destruct (CostComplexityPruner.pruneRec alpha n) as [[n' e]|] eqn:E; [|discriminate].
      simpl. intros [= <-]. simpl.
      rewrite (cc_pruneRec_idempotent alpha n E). reflexivity.
    + intros [= <-]. reflexivity.
  - unfold ReducedErrorPruner.prune, ReducedErrorPruner.pruneRec.
    destruct root as [n|]; simpl.
    + destruct (ReducedErrorPruner.pruneRec_node Xv D_ yv n) as [n'|] eqn:E; [|discriminate].
      simpl. intros [= <-].
      rewrite (re_pruneRec_idempotent Xv D_ yv n E). reflexivity.
    + intros [= <-]. reflexivity.
Qed.

Lemma prune_full_node {D : Type} {HD : Double D} {HU : UnionLayout D}
      (pruner : IPruner D) (n : Node D) :
  full n ->
  exists n', prune pruner (Some n) = Ok (Some n') /\ full n'.
Proof.
  intros Hf. destruct pruner as [|g|alpha|Xv D_ yv]; cbn [prune].
  - eexists. split; [reflexivity|exact Hf].
  - eexists. split; [reflexivity|exact Hf].
  - cbn. destruct (cc_pruneRec_full alpha n Hf) as (n' & e & -> & Fn).
    eexists. split; [reflexivity|exact Fn].
  - unfold ReducedErrorPruner.prune, ReducedErrorPruner.pruneRec.
    destruct (re_pruneRec_full Xv D_ yv n Hf) as (n' & -> & Fn).
    eexists. split; [reflexivity|exact Fn].
Qed.

Lemma prune_full {D : Type} {HD : Double D} {HU : UnionLayout D}
      (pruner : IPruner D) (root : option (Node D)) :
  on_child full root ->
  exists root', prune pruner root = Ok root' /\ on_child full root'.
Proof.
  destruct root as [n|]; cbn [on_child].
  - intros Hf. destruct (prune_full_node pruner n Hf) as (n' & Hp & Fn).
    exists (Some n'). split; assumption.
  - intros _. exists None. split; [destruct pruner; reflexivity|exact I].
Qed.

(** C8.  Every pruner is idempotent.  On a tree in which every node
    that is not a leaf has both its children, [prune] returns, and a
    second call of [prune] on the tree the first call left changes
    nothing; and whenever a first call returns, on any tree, so does the
    second, with the same tree. *)
Theorem prune_idempotent (D : Type) (HD : Double D) (HU : UnionLayout D)
        (pruner : IPruner D) (root : option (Node D)) :
  on_child full root ->
  exists root',
    prune pruner root = Ok root'
    /\ prune pruner root' = Ok root'
    /\ (forall any pruned : option (Node D),
           prune pruner any = Ok pruned -> prune pruner pruned = Ok pruned).
Proof.
  intros Hf. destruct (prune_full pruner root Hf) as (root' & Hp & _).
  exists root'. split; [exact Hp|]. split.
  - exact (prune_idempotent_if_returns pruner root Hp).
  - intros any pruned Ho. exact (prune_idempotent_if_returns pruner any Ho).
Qed.

Lemma prune_idempotent_witness :
  let pruner := CostComplexityPruner 0%float in
  let root :=
    Some (mkNode false 5 0x1.999999999999ap-2%float (internal 0 1.5%float)
            (Some (mkNode true 3 0x1.5555555555555p-2%float
                          (leaf 0x1.5555555555555p-2%float 0x1.5555555555555p-2%float)
                          None None))
            (Some (mkNode true 2 0.5%float (leaf 0.5%float 0.5%float) None None))) in
  exists root',
    prune pruner root = Ok root'
    /\ prune pruner root' = Ok root'
    /\ (forall any pruned : option (Node float),
           prune pruner any = Ok pruned -> prune pruner pruned = Ok pruned).
Proof.
  cbv zeta. apply (@prune_idempotent float _ _). cbn. tauto.
Defined.

(** *** Cost-complexity pruning over the reals *)

Lemma cc_alpha0_keeps (n : Node R) :
  positive_gain n ->
  exists e : R,
    CostComplexityPruner.pruneRec 0%R n = Ok (n, e)
    /\ (e <= metric n * of_size (samples n))%R.
Proof.
  induction n as [b s m i l r IHl IHr] using Node_induction.
  destruct b.
  - intros _. eexists. split; [reflexivity|]. cbn. lra.
  - cbn [positive_gain]. destruct l as [l|]; [|tauto]. destruct r as [r|]; [|tauto].
    intros (Hs & Hg & Hl & Hr).
    destruct (IHl Hl) as (el & El & Hel). destruct (IHr Hr) as (er & Er & Her).
    rewrite (cc_pruneRec_internal 0%R s m i _ _ El Er). cbv zeta.
    unfold node_gain in Hg. cbn in Hg, Hel, Her |- *.
    apply Rltb_true in Hg.
    pose proof (of_size_pos Hs) as Hpos. unfold of_size in Hpos. cbn in Hpos.
    remember (IZR (Z.of_nat s)) as S eqn:HS.
    remember (metric l * IZR (Z.of_nat (samples l))
              + metric r * IZR (Z.of_nat (samples r)))%R as W eqn:HW'.
    assert (HW : (W < m * S)%R).
    { assert (Hd : (W / S < m)%R).
      { remember (W / S)%R as Q. lra. }
      apply (Rmult_lt_compat_r S) in Hd; [|exact Hpos].
      unfold Rdiv in Hd. rewrite Rmult_assoc, Rinv_l in Hd by lra.
      rewrite Rmult_1_r in Hd. exact Hd. }
    assert (Hc : Rleb (m * S + 0) (el + er + 0 * IZR
                   (CostComplexityPruner.countLeaves_node l
                    + CostComplexityPruner.countLeaves_node r)) = false).
    { apply Rleb_false. rewrite Rmult_0_l. lra. }
    rewrite Hc. eexists. split; [reflexivity|]. lra.
Qed.




(** C6.  The reduced-error pruner on two trained trees.  On the first
    the root is collapsed, and the leaf predicts 0.0 although the mean of
    the node's targets is 3.0.  On the second the collapse is rejected,
    and the root is left with the split (feature 0, threshold 0.0) in
    place of (feature 0, threshold 4.5): it now predicts 5.0 on the row
    with feature value 1.0. *)
Theorem reduced_error_pruner_runs :
  (let X := [-1; -1; -1; -1; 1; 1; 1; 1]%float in
   let pruner := ReducedErrorPruner [-1; 1]%float 1 [0; 0]%float in
   trained_root (SingleTreeTrainer.train
                   (default_trainer ExhaustiveSplitFinder.make MSECriterion.make pruner)
                   X 1 scenario_y 1)
   = Some (mkNode true 8 4%float (leaf 0%float 0%float) None None)
   /\ mean scenario_y (seq 0 8) = 3%float)
  /\ (let X := [1; 2; 3; 4; 5; 6; 7; 8]%float in
      let grown :=
        trained_root (SingleTreeTrainer.train
                        (default_trainer ExhaustiveSplitFinder.make MSECriterion.make NoPruner)
                        X 1 scenario_y 1) in
      let pruned :=
        trained_root (SingleTreeTrainer.train
                        (default_trainer ExhaustiveSplitFinder.make MSECriterion.make
                                         (ReducedErrorPruner [1; 8]%float 1 [1; 5]%float))
                        X 1 scenario_y 1) in
      option_map (fun n => (isLeaf n, getFeatureIndex n, getThreshold n)) grown
      = Some (false, 0%Z, 4.5%float)
      /\ option_map (fun n => (isLeaf n, getFeatureIndex n, getThreshold n)) pruned
         = Some (false, 0%Z, 0%float)
      /\ option_map (SingleTreeTrainer.predict_from X 0) grown = Some 1%float
      /\ option_map (SingleTreeTrainer.predict_from X 0) pruned = Some 5%float).
Proof.
  cbv zeta. repeat split; vm_compute; reflexivity.
Qed.

(** ** Degenerate input *)


Lemma splitNodeOptimized_empty {D : Type} {HD : Double D} (this : SingleTreeTrainer D)
      (data : list D) (rowLength : Z) (labels : list D) (node : Node D) (depth : Z) :
  SingleTreeTrainer.splitNodeOptimized this data rowLength labels node [] depth
  = makeLeaf1 node zero.
Proof.
  unfold SingleTreeTrainer.splitNodeOptimized.
  destruct (Z.to_nat (maxDepth_ this - depth)); reflexivity.
Qed.

Lemma prune_leaf {D : Type} {HD : Double D} {HU : UnionLayout D}
      (pruner : IPruner D) (n : Node D) :
  isLeaf n = true -> prune pruner (Some n) = Ok (Some n).
Proof.
  destruct n as [b s m i l r]. simpl. intros ->.
  destruct pruner; reflexivity.
Qed.


(** ** The task queue runs to completion *)

Section TaskQueue.
Context {D : Type} {HD : Double D}.
Variable this : SingleTreeTrainer D.
Variables (data : list D) (rowLength : Z) (labels : list D).

Lemma split_indices_length (f : Z) (t : D) (S : list nat) :
  length (fst (SingleTreeTrainer.split_indices data rowLength f t S))
  + length (snd (SingleTreeTrainer.split_indices data rowLength f t S))
  = length S.
Proof.
  unfold SingleTreeTrainer.split_indices.
  rewrite (fold_split_filter (SingleTreeTrainer.goes_left data rowLength f t)). simpl.
  rewrite <- length_app. apply Permutation_length, filter_split_perm.
Qed.

Lemma pushed_potential (node : Node D) (indices : list nat) (depth : Z) (path : NodePtr) :
  queue_potential this
    (map (fun '(b, idx) => mkTask (path ++ [b]) idx (depth + 1))
         (snd (SingleTreeTrainer.processNode this data rowLength labels node indices depth)))
  <= SingleTreeTrainer.task_budget this indices depth.
Proof.
  unfold SingleTreeTrainer.processNode.
  destruct indices as [|i0 rest]; [cbn [snd map]; unfold queue_potential; cbn [map list_sum fold_right]; lia|].
  cbv zeta.
  destruct (SingleTreeTrainer.stop_before_split this (i0 :: rest) depth) eqn:Hstop;
    [cbn [snd map]; unfold queue_potential; cbn [map list_sum fold_right]; lia|].
  destruct (findBestSplit _ _ _ _ _ _ _) as [[f t] g].
  destruct (_ || _); [cbn [snd map]; unfold queue_potential; cbn [map list_sum fold_right]; lia|].
  destruct (SingleTreeTrainer.below_minGain this g); [cbn [snd map]; unfold queue_potential; cbn [map list_sum fold_right]; lia|].
  pose proof (split_indices_length f t (i0 :: rest)) as Hlen.
  destruct (SingleTreeTrainer.split_indices data rowLength f t (i0 :: rest)) as [l r].
  simpl fst in Hlen; simpl snd in Hlen.
  destruct (_ || _); [cbn [snd map]; unfold queue_potential; cbn [map list_sum fold_right]; lia|].
  unfold SingleTreeTrainer.stop_before_split in Hstop.
  apply orb_false_iff in Hstop. destruct Hstop as [Hstop Hlen2].
  apply orb_false_iff in Hstop. destruct Hstop as [Hdepth _].
  apply Nat.ltb_ge in Hlen2. apply Z.leb_gt in Hdepth.
  cbn [snd]. unfold queue_potential. rewrite map_map, map_app, list_sum_app.
  unfold SingleTreeTrainer.task_budget in *.
  replace (Z.to_nat (maxDepth_ this - depth))
    with (S (Z.to_nat (maxDepth_ this - (depth + 1)))) by lia.
  remember (S (Z.to_nat (maxDepth_ this - (depth + 1)))) as k eqn:Hk.
  rewrite <- Hlen.
  destruct l as [|l0 l]; destruct r as [|r0 r];
    cbn [map list_sum fold_right length task_potential task_indices task_depth
         SingleTreeTrainer.task_budget] in *;
    unfold task_potential, SingleTreeTrainer.task_budget;
    cbn [task_indices task_depth length]; rewrite <- ?Hk; nia.
Qed.

Lemma queue_potential_cons (t : SplitTask) (q : list SplitTask) :
  queue_potential this (t :: q) = task_potential this t + queue_potential this q.
Proof. reflexivity. Qed.

Lemma queue_potential_app (q1 q2 : list SplitTask) :
  queue_potential this (q1 ++ q2) = queue_potential this q1 + queue_potential this q2.
Proof. unfold queue_potential. now rewrite map_app, list_sum_app. Qed.

Lemma processTask_potential (root : Node D) (task : SplitTask) (rest : list SplitTask) :
  queue_potential this (snd (SingleTreeTrainer.processTask this data rowLength labels
                                                            root task rest))
  < queue_potential this (task :: rest).
Proof.
  rewrite queue_potential_cons. unfold SingleTreeTrainer.processTask.
  destruct (SingleTreeTrainer.node_at (task_node task) root) as [node|].
  - pose proof (pushed_potential node (task_indices task) (task_depth task) (task_node task))
      as Hp.
    destruct (SingleTreeTrainer.processNode this data rowLength labels node
                (task_indices task) (task_depth task)) as [node' pushed].
    cbn [snd] in *. rewrite queue_potential_app. unfold task_potential. lia.
  - cbn [snd]. unfold task_potential. lia.
Qed.

(** With fuel for the potential of the queue, the worker loop stops on an
    empty queue. *)
Lemma workers_empty_queue (fuel : nat) :
  forall root taskQueue,
    queue_potential this taskQueue <= fuel ->
    snd (SingleTreeTrainer.workers this data rowLength labels fuel root taskQueue) = [].
Proof.
  induction fuel as [|fuel IH]; intros root taskQueue Hq.
  - destruct taskQueue as [|task rest]; [reflexivity|].
    rewrite queue_potential_cons in Hq. unfold task_potential in Hq. lia.
  - destruct taskQueue as [|task rest]; [reflexivity|].
    cbn [SingleTreeTrainer.workers].
    pose proof (processTask_potential root task rest) as Hlt.
    destruct (SingleTreeTrainer.processTask this data rowLength labels root task rest)
      as [root' queue'].
    cbn [snd] in Hlt. apply IH. lia.
Qed.

(** [buildTreeWithTaskQueue] gives the worker loop enough fuel. *)
Lemma buildTreeWithTaskQueue_completes (root : Node D) (rootIndices : list nat) :
  snd (SingleTreeTrainer.workers this data rowLength labels
         (S (SingleTreeTrainer.task_budget this rootIndices 0)) root
         [mkTask [] rootIndices 0])
  = [].
Proof.
  apply workers_empty_queue. rewrite queue_potential_cons.
  unfold task_potential. cbn [task_indices task_depth]. unfold queue_potential. simpl. lia.
Qed.

End TaskQueue.

(** * Further properties *)

(** ** The statistics of a tree *)

Section Stats.
Context {D : Type} {HD : Double D}.

Lemma height_nonneg (n : Node D) : (0 <= height n)%Z.
Proof.
  induction n as [b s m i l r IHl IHr] using Node_induction.
  cbn [height]. destruct b; [lia|].
  destruct l as [l|], r as [r|]; cbn [on_child] in *; lia.
Qed.

Lemma leaves_nonneg (n : Node D) : (0 <= leaves n)%Z.
Proof.
  induction n as [b s m i l r IHl IHr] using Node_induction.
  cbn [leaves]. destruct b; [lia|].
  destruct l as [l|], r as [r|]; cbn [on_child] in *; lia.
Qed.

Lemma leaves_full (n : Node D) : full n -> (1 <= leaves n)%Z.
Proof.
  induction n as [b s m i l r IHl IHr] using Node_induction.
  cbn [leaves full]. destruct b; [lia|].
  destruct l as [l|]; [|tauto]. destruct r as [r|]; [|tauto].
  cbn [on_child] in *. intros [Hl Hr]. specialize (IHl Hl). specialize (IHr Hr). lia.
Qed.

(** [calculateTreeStats] raises [maxDepth] to the depth of the deepest
    node and adds the number of leaves to [leafCount]. *)
Lemma calculateTreeStats_node_spec (n : Node D) :
  forall d m c,
    SingleTreeTrainer.calculateTreeStats_node n d (m, c)
    = (Z.max m (d + height n), (c + leaves n)%Z).
Proof.
  induction n as [b s mt i l r IHl IHr] using Node_induction.
  intros d m c. cbn [SingleTreeTrainer.calculateTreeStats_node height leaves].
  destruct b.
  - f_equal. lia.
  - destruct l as [l|], r as [r|]; cbn [on_child] in *;
      rewrite ?IHl, ?IHr; f_equal;
      try (pose proof (height_nonneg l)); try (pose proof (height_nonneg r)); lia.
Qed.

Lemma countLeaves_node_leaves (n : Node D) :
  (leaves n <= CostComplexityPruner.countLeaves_node n)%Z
  /\ (full n -> CostComplexityPruner.countLeaves_node n = leaves n).
Proof.
  induction n as [b s m i l r IHl IHr] using Node_induction.
  cbn [leaves CostComplexityPruner.countLeaves_node full]. destruct b; [split; [lia|reflexivity]|].
  destruct l as [l|], r as [r|]; cbn [on_child] in *; (split; [|try tauto]).
  - lia.
  - intros [Hl Hr]. destruct IHl as [_ IHl], IHr as [_ IHr].
    rewrite (IHl Hl), (IHr Hr). reflexivity.
  - lia.
  - lia.
  - lia.
Qed.

End Stats.

(** X1.  The leaf count [calculateTreeStats] adds to [leafCount] is the
    count [countLeaves] of the cost-complexity pruner on every tree in
    which each node that is not a leaf has both its children.  On other
    trees [countLeaves], which counts a null child as one leaf, gives at
    least as much. *)
Theorem leafCount_is_countLeaves (D : Type) (HD : Double D)
        (n : Node D) (currentDepth maxDepth leafCount : Z) :
  full n ->
  snd (SingleTreeTrainer.calculateTreeStats (Some n) currentDepth (maxDepth, leafCount))
  = (leafCount + CostComplexityPruner.countLeaves (Some n))%Z
  /\ (forall any : Node D,
         (snd (SingleTreeTrainer.calculateTreeStats (Some any) currentDepth
                                                    (maxDepth, leafCount))
          <= leafCount + CostComplexityPruner.countLeaves (Some any))%Z).
Proof.
  intros Hf. cbn [SingleTreeTrainer.calculateTreeStats CostComplexityPruner.countLeaves].
  split.
  - rewrite calculateTreeStats_node_spec. cbn [snd].
    destruct (countLeaves_node_leaves n) as [_ E]. now rewrite (E Hf).
  - intros any. rewrite calculateTreeStats_node_spec. cbn [snd].
    destruct (countLeaves_node_leaves any) as [E _]. lia.
Qed.

Lemma leafCount_is_countLeaves_witness :
  let n : Node float :=
    mkNode false 4 2%float (internal 0 2.5%float)
           (Some (mkNode true 2 0%float (leaf 1%float 1%float) None None))
           (Some (mkNode true 2 0%float (leaf 5%float 5%float) None None)) in
  snd (SingleTreeTrainer.calculateTreeStats (Some n) 0 (0, 0)%Z)
  = (0 + CostComplexityPruner.countLeaves (Some n))%Z
  /\ (forall any : Node float,
         (snd (SingleTreeTrainer.calculateTreeStats (Some any) 0 (0, 0)%Z)
          <= 0 + CostComplexityPruner.countLeaves (Some any))%Z).
Proof.
  cbv zeta. apply (@leafCount_is_countLeaves float _). cbn. tauto.
Defined.

(** ** The tree grown by the recursive path *)

Section GrownTree.
Context {D : Type} {HD : Double D}.
Variable this : SingleTreeTrainer D.
Variables (data : list D) (rowLength : Z) (labels : list D).

Lemma splitNodeOptimized_rec_height (fuel : nat) :
  forall (node : Node D) (indices : list nat) (depth : Z),
    fuel = Z.to_nat (maxDepth_ this - depth) ->
    (height (SingleTreeTrainer.splitNodeOptimized_rec this data rowLength labels
                                                      fuel node indices depth)
     <= Z.max 0 (maxDepth_ this - depth))%Z.
Proof.
  induction fuel as [|fuel IH]; intros node indices depth Hfuel;
    (destruct indices as [|i0 rest]; [cbn; lia|]);
    cbn [SingleTreeTrainer.splitNodeOptimized_rec]; cbv zeta.
  all: destruct (SingleTreeTrainer.stop_before_split this (i0 :: rest) depth) eqn:Hstop;
    [cbn; lia|].
  all: destruct (findBestSplit _ _ _ _ _ _ _) as [[f t] g].
  all: destruct (_ || _); [cbn; lia|].
  all: destruct (SingleTreeTrainer.below_minGain this g); [cbn; lia|].
  all: destruct (std_partition _ _) as [indices' leftSize].
  all: destruct (_ || _); [cbn; lia|].
  all: unfold SingleTreeTrainer.stop_before_split in Hstop.
  all: apply orb_false_iff in Hstop; destruct Hstop as [Hstop _].
  all: apply orb_false_iff in Hstop; destruct Hstop as [Hdepth _].
  all: pose proof (fuel_step _ _ Hdepth) as Hstep.
  - lia.
  - assert (Hf : fuel = Z.to_nat (maxDepth_ this - (depth + 1))) by lia.
    pose proof (IH newNode (firstn leftSize indices') (depth + 1)%Z Hf) as Hl.
    pose proof (IH newNode (skipn leftSize indices') (depth + 1)%Z Hf) as Hr.
    cbn [height set_children makeInternal isLeaf leftChild rightChild].
    apply Z.leb_gt in Hdepth. lia.
Qed.

Lemma splitNodeOptimized_rec_samples (fuel : nat) :
  forall (indices : list nat) (depth : Z),
    fuel = Z.to_nat (maxDepth_ this - depth) ->
    let n := SingleTreeTrainer.splitNodeOptimized_rec this data rowLength labels
                                                      fuel newNode indices depth in
    samples n = length indices /\ samples_add_up n.
Proof.
  induction fuel as [|fuel IH]; intros indices depth Hfuel;
    (destruct indices as [|i0 rest]; [cbn; tauto|]);
    cbn [SingleTreeTrainer.splitNodeOptimized_rec]; cbv zeta.
  all: destruct (SingleTreeTrainer.stop_before_split this (i0 :: rest) depth) eqn:Hstop;
    [cbn; tauto|].
  all: destruct (findBestSplit _ _ _ _ _ _ _) as [[f t] g].
  all: destruct (_ || _); [cbn; tauto|].
  all: destruct (SingleTreeTrainer.below_minGain this g); [cbn; tauto|].
  all: pose proof (std_partition_spec (SingleTreeTrainer.goes_left data rowLength f t)
                                      (i0 :: rest)) as Hspec.
  all: destruct (std_partition _ _) as [indices' leftSize].
  all: destruct (_ || _); [cbn; tauto|].
  all: unfold SingleTreeTrainer.stop_before_split in Hstop.
  all: apply orb_false_iff in Hstop; destruct Hstop as [Hstop _].
  all: apply orb_false_iff in Hstop; destruct Hstop as [Hdepth _].
  all: pose proof (fuel_step _ _ Hdepth) as Hstep.
  - lia.
  - assert (Hf : fuel = Z.to_nat (maxDepth_ this - (depth + 1))) by lia.
    destruct (IH (firstn leftSize indices') (depth + 1)%Z Hf) as [Sl Al].
    destruct (IH (skipn leftSize indices') (depth + 1)%Z Hf) as [Sr Ar].
    cbv zeta in Sl, Al, Sr, Ar.
    cbn [fst snd] in Hspec. destruct Hspec as (HP & Hk & _).
    apply Permutation_length in HP.
    cbn [samples_add_up set_children makeInternal isLeaf leftChild rightChild samples
         set_samples set_metric].
    split; [reflexivity|]. split; [|split; assumption].
    rewrite Sl, Sr, length_firstn, length_skipn.
    cbn [length] in *. lia.
Qed.

Lemma leaf_samples_add_up (n : Node D) :
  samples_add_up n -> leaf_samples n = samples n.
Proof.
  induction n as [b s m i l r IHl IHr] using Node_induction.
  cbn [samples_add_up leaf_samples samples]. destruct b; [reflexivity|].
  destruct l as [l|]; [|tauto]. destruct r as [r|]; [|tauto].
  cbn [on_child] in *. intros (-> & Hl & Hr). now rewrite (IHl Hl), (IHr Hr).
Qed.

End GrownTree.

Section TrainingRows.
Context {D : Type} {HD : Double D} {HU : UnionLayout D}.
Variable this : SingleTreeTrainer D.
Variables (data : list D) (rowLength : Z) (labels : list D).

(** [predict] at a node [makeInternal] and the two [make_unique] calls
    have set up, for the row [i] of the training matrix: the test is the
    one of the partition. *)
Lemma predict_from_internal (node l r : Node D) (f : Z) (t : D) (i : nat) :
  SingleTreeTrainer.predict_from data (Z.of_nat i * rowLength)
    (set_children (makeInternal node f t) (Some l) (Some r))
  = if SingleTreeTrainer.goes_left data rowLength f t i
    then SingleTreeTrainer.predict_from data (Z.of_nat i * rowLength) l
    else SingleTreeTrainer.predict_from data (Z.of_nat i * rowLength) r.
Proof.
  unfold SingleTreeTrainer.goes_left, feature.
  cbn [SingleTreeTrainer.predict_from set_children makeInternal isLeaf info leftChild
       rightChild getFeatureIndex getThreshold internal_featureIndex internal_threshold].
  destruct (_ <=? _)%dbl; reflexivity.
Qed.

Lemma partitions_side (p : nat -> bool) (S left right : list nat) (i : nat) :
  partitions p S left right ->
  In i S ->
  incl left S /\ incl right S /\ (if p i then In i left else In i right).
Proof.
  intros (HP & _ & HL & HR) Hi. split; [|split].
  - intros x Hx. apply (Permutation_in _ HP). apply in_or_app. now left.
  - intros x Hx. apply (Permutation_in _ HP). apply in_or_app. now right.
  - destruct (p i) eqn:E; [now apply (HL i Hi)|now apply (HR i Hi)].
Qed.

Lemma predict_from_grown (fuel : nat) :
  forall (node : Node D) (indices : list nat) (depth : Z) (i : nat),
    fuel = Z.to_nat (maxDepth_ this - depth) ->
    In i indices ->
    exists S,
      In i S /\ incl S indices
      /\ SingleTreeTrainer.predict_from data (Z.of_nat i * rowLength)
           (SingleTreeTrainer.splitNodeOptimized_rec this data rowLength labels
                                                     fuel node indices depth)
         = mean labels S.
Proof.
  induction fuel as [|fuel IH]; intros node indices depth i Hfuel Hi;
    (destruct indices as [|i0 rest]; [destruct Hi|]);
    cbn [SingleTreeTrainer.splitNodeOptimized_rec]; cbv zeta.
  all: destruct (SingleTreeTrainer.stop_before_split this (i0 :: rest) depth) eqn:Hstop;
    [exists (i0 :: rest); split; [exact Hi|split; [apply incl_refl|reflexivity]]|].
  all: destruct (findBestSplit _ _ _ _ _ _ _) as [[f t] g].
  all: destruct (_ || _);
    [exists (i0 :: rest); split; [exact Hi|split; [apply incl_refl|reflexivity]]|].
  all: destruct (SingleTreeTrainer.below_minGain this g);
    [exists (i0 :: rest); split; [exact Hi|split; [apply incl_refl|reflexivity]]|].
  all: pose proof (std_partition_partitions data rowLength f t (i0 :: rest)) as Hpart.
  all: destruct (std_partition _ _) as [indices' leftSize];
    cbn [fst snd] in Hpart.
  all: destruct (_ || _);
    [exists (i0 :: rest); split; [exact Hi|split; [apply incl_refl|reflexivity]]|].
  all: unfold SingleTreeTrainer.stop_before_split in Hstop.
  all: apply orb_false_iff in Hstop; destruct Hstop as [Hstop _].
  all: apply orb_false_iff in Hstop; destruct Hstop as [Hdepth _].
  all: pose proof (fuel_step _ _ Hdepth) as Hstep.
  - lia.
  - assert (Hf : fuel = Z.to_nat (maxDepth_ this - (depth + 1))) by lia.
    rewrite predict_from_internal.
    destruct (@partitions_side _ _ _ _ i Hpart Hi) as (Il & Ir & Hside).
    cbv beta in Hside. unfold SingleTreeTrainer.goes_left.
    destruct (feature data rowLength i f <=? t)%dbl.
    + destruct (IH newNode _ (depth + 1)%Z i Hf Hside) as (S & HS & Hincl & Hp).
      exists S. split; [exact HS|]. split; [|exact Hp].
      intros x Hx. apply Il, Hincl, Hx.
    + destruct (IH newNode _ (depth + 1)%Z i Hf Hside) as (S & HS & Hincl & Hp).
      exists S. split; [exact HS|]. split; [|exact Hp].
      intros x Hx. apply Ir, Hincl, Hx.
Qed.

End TrainingRows.

(** ** What pruning does to a tree *)

Section PruningShrinks.
Context {D : Type} {HD : Double D}.

Lemma cc_pruneRec_shrinks (alpha : D) (n : Node D) :
  full n ->
  exists n' e,
    CostComplexityPruner.pruneRec alpha n = Ok (n', e)
    /\ full n' /\ (height n' <= height n)%Z /\ (leaves n' <= leaves n)%Z.
Proof.
  induction n as [b s m i l r IHl IHr] using Node_induction.
  destruct b.
  - intros _. eexists _, _. split; [reflexivity|]. split; [exact I|]. lia.
  - cbn [full]. destruct l as [l|]; [|tauto]. destruct r as [r|]; [|tauto].
    intros [Hl Hr].
    destruct (IHl Hl) as (l' & el & El & Fl & Hhl & Hll).
    destruct (IHr Hr) as (r' & er & Er & Fr & Hhr & Hlr).
    rewrite (cc_pruneRec_internal alpha s m i _ _ El Er). cbv zeta.
    pose proof (height_nonneg l). pose proof (height_nonneg r).
    pose proof (leaves_full l Hl). pose proof (leaves_full r Hr).
    destruct (_ <=? _)%dbl; eexists _, _; (split; [reflexivity|]).
    + split; [exact I|]. cbn [height leaves makeLeaf]. lia.
    + split; [cbn; tauto|]. cbn [height leaves]. lia.
Qed.

(** The error [pruneRec] returns is the total error of the leaves of the
    tree it leaves. *)
Lemma cc_pruneRec_error (alpha : D) (n : Node D) :
  forall n' e,
    CostComplexityPruner.pruneRec alpha n = Ok (n', e) -> e = leaf_error n'.
Proof.
  induction n as [b s m i l r IHl IHr] using Node_induction.
  intros n' e. destruct b.
  - cbn. intros [= <- <-]. reflexivity.
  - destruct l as [l|]; [|cbn; discriminate].
    destruct (CostComplexityPruner.pruneRec alpha l) as [[l' el]|] eqn:El;
      [|cbn; rewrite El; discriminate].
    destruct r as [r|]; [|cbn; rewrite El; discriminate].
    destruct (CostComplexityPruner.pruneRec alpha r) as [[r' er]|] eqn:Er;
      [|cbn; rewrite El, Er; discriminate].
    rewrite (cc_pruneRec_internal alpha s m i _ _ El Er). cbv zeta.
    simpl in IHl, IHr.
    specialize (IHl _ _ El). specialize (IHr _ _ Er).
    destruct (_ <=? _)%dbl; intros [= <- <-].
    + reflexivity.
    + cbn [leaf_error]. now rewrite <- IHl, <- IHr.
Qed.

(** A node [pruneRec] turns into a leaf predicts 0.0; a node it keeps,
    keeps its split. *)
Lemma cc_pruneRec_outcome (alpha : D) (n n' : Node D) (e : D) :
  isLeaf n = false ->
  CostComplexityPruner.pruneRec alpha n = Ok (n', e) ->
  samples n' = samples n /\ metric n' = metric n
  /\ ((isLeaf n' = true /\ info n' = leaf zero zero
       /\ leftChild n' = None /\ rightChild n' = None)
      \/ (isLeaf n' = false /\ info n' = info n)).
Proof.
  destruct n as [b s m i l r]. cbn [isLeaf]. intros ->.
  destruct l as [l|]; [|cbn; discriminate].
  destruct (CostComplexityPruner.pruneRec alpha l) as [[l' el]|] eqn:El;
    [|cbn; rewrite El; discriminate].
  destruct r as [r|]; [|cbn; rewrite El; discriminate].
  destruct (CostComplexityPruner.pruneRec alpha r) as [[r' er]|] eqn:Er;
    [|cbn; rewrite El, Er; discriminate].
  rewrite (cc_pruneRec_internal alpha s m i _ _ El Er). cbv zeta.
  assert (E : forall b : bool, (if b then zero else zero) = (zero : D))
    by (intros []; reflexivity).
  destruct (_ <=? _)%dbl; intros [= <- <-]; cbn.
  - rewrite E. split; [reflexivity|]. split; [reflexivity|]. left. repeat split.
  - split; [reflexivity|]. split; [reflexivity|]. right. split; reflexivity.
Qed.

Context {HU : UnionLayout D}.
Variables (Xv : list D) (D_ : Z) (yv : list D).

Lemma re_pruneRec_shrinks (n : Node D) :
  full n ->
  exists n',
    ReducedErrorPruner.pruneRec_node Xv D_ yv n = Ok n'
    /\ full n' /\ (height n' <= height n)%Z /\ (leaves n' <= leaves n)%Z.
Proof.
  induction n as [b s m inf l r IHl IHr] using Node_induction.
  destruct b.
  - intros _. eexists. split; [reflexivity|]. split; [exact I|]. lia.
  - cbn [full]. destruct l as [l|]; [|tauto]. destruct r as [r|]; [|tauto].
    intros [Hl Hr].
    destruct (IHl Hl) as (l' & El & Fl & Hhl & Hll).
    destruct (IHr Hr) as (r' & Er & Fr & Hhr & Hlr).
    pose proof (height_nonneg l). pose proof (height_nonneg r).
    pose proof (leaves_full l Hl). pose proof (leaves_full r Hr).
    cbn [ReducedErrorPruner.pruneRec_node]. rewrite El, Er. cbn [bind].
    rewrite re_tryCollapse_shape. cbv zeta.
    destruct (re_validate_full Xv D_ yv (mkNode true s m (leaf zero zero) None None) I)
      as (mp & ->).
    cbn [bind].
    assert (Fk : full (mkNode false s m (leaf zero zero) (Some l') (Some r')))
      by (cbn; tauto).
    destruct (re_validate_full Xv D_ yv _ Fk) as (mo & ->). cbn [bind].
    destruct (mp <=? mo)%dbl; eexists; (split; [reflexivity|]).
    + split; [exact I|]. cbn [height leaves]. lia.
    + split; [exact Fk|]. cbn [height leaves]. lia.
Qed.

(** Whether [pruneRec] collapses a node or keeps it, the bytes of the
    union hold the leaf written for the trial. *)
Lemma re_pruneRec_outcome (n n' : Node D) :
  isLeaf n = false ->
  ReducedErrorPruner.pruneRec_node Xv D_ yv n = Ok n' ->
  samples n' = samples n /\ metric n' = metric n /\ info n' = leaf zero zero
  /\ (isLeaf n' = true -> leftChild n' = None /\ rightChild n' = None).
Proof.
  destruct n as [b s m i l r]. cbn [isLeaf]. intros ->.
  cbn [ReducedErrorPruner.pruneRec_node].
  destruct (match l with Some _ => _ | None => _ end) as [l'|]; [|discriminate].
  destruct (match r with Some _ => _ | None => _ end) as [r'|]; [|discriminate].
  rewrite re_tryCollapse_shape. cbv zeta.
  destruct (ReducedErrorPruner.validate Xv D_ yv _) as [mp|]; [|discriminate].
  cbn [bind].
  destruct (ReducedErrorPruner.validate Xv D_ yv _) as [mo|]; [|discriminate].
  cbn [bind].
  destruct (mp <=? mo)%dbl; intros [= <-]; cbn; repeat split; discriminate.
Qed.

End PruningShrinks.

Lemma prune_shrinks {D : Type} {HD : Double D} {HU : UnionLayout D}
      (pruner : IPruner D) (n : Node D) :
  full n ->
  exists n',
    prune pruner (Some n) = Ok (Some n')
    /\ full n' /\ (height n' <= height n)%Z /\ (leaves n' <= leaves n)%Z.
Proof.
  intros Hf. destruct pruner as [|g|alpha|Xv D_ yv]; cbn [prune].
  - exists n. split; [reflexivity|]. split; [exact Hf|]. lia.
  - exists n. split; [reflexivity|]. split; [exact Hf|]. lia.
  - cbn. destruct (cc_pruneRec_shrinks alpha n Hf) as (n' & e & -> & Fn).
    exists n'. split; [reflexivity|exact Fn].
  - unfold ReducedErrorPruner.prune, ReducedErrorPruner.pruneRec.
    destruct (re_pruneRec_shrinks Xv D_ yv n Hf) as (n' & -> & Fn).
    exists n'. split; [reflexivity|exact Fn].
Qed.


(** X3.  Pruning never grows a tree.  On a tree in which every node that
    is not a leaf has both its children, each of the four pruners
    returns a tree of the same kind whose depth and leaf count, as
    [calculateTreeStats] computes them, are at most those of the tree it
    was given. *)
Theorem pruning_never_grows (D : Type) (HD : Double D) (HU : UnionLayout D)
        (pruner : IPruner D) (root : Node D) :
  full root ->
  exists root',
    prune pruner (Some root) = Ok (Some root')
    /\ full root'
    /\ (fst (SingleTreeTrainer.calculateTreeStats (Some root') 0 (0, 0)%Z)
        <= fst (SingleTreeTrainer.calculateTreeStats (Some root) 0 (0, 0)%Z))%Z
    /\ (snd (SingleTreeTrainer.calculateTreeStats (Some root') 0 (0, 0)%Z)
        <= snd (SingleTreeTrainer.calculateTreeStats (Some root) 0 (0, 0)%Z))%Z.
Proof.
  intros Hf. destruct (prune_shrinks pruner root Hf) as (n' & Hp & Hfull & Hh & Hl).
  exists n'. split; [exact Hp|]. split; [exact Hfull|].
  cbn [SingleTreeTrainer.calculateTreeStats]. rewrite !calculateTreeStats_node_spec.
  cbn [fst snd]. lia.
Qed.

Lemma pruning_never_grows_witness :
  let root : Node float :=
    mkNode false 4 4%float (internal 0 2.5%float)
           (Some (mkNode true 2 0%float (leaf 1%float 1%float) None None))
           (Some (mkNode true 2 0%float (leaf 5%float 5%float) None None)) in
  exists root',
    prune (CostComplexityPruner 100%float) (Some root) = Ok (Some root')
    /\ full root'
    /\ (fst (SingleTreeTrainer.calculateTreeStats (Some root') 0 (0, 0)%Z)
        <= fst (SingleTreeTrainer.calculateTreeStats (Some root) 0 (0, 0)%Z))%Z
    /\ (snd (SingleTreeTrainer.calculateTreeStats (Some root') 0 (0, 0)%Z)
        <= snd (SingleTreeTrainer.calculateTreeStats (Some root) 0 (0, 0)%Z))%Z.
Proof.
  cbv zeta. apply (@pruning_never_grows float _ _). cbn. tauto.
Defined.

(** X4.  The recursive path loses no sample and counts none twice: the
    node it grows from a fresh [Node] for a subset holds as many samples
    as the subset has indices, every node below it that is not a leaf
    has two children and holds as many samples as the two together, and
    the leaves together hold exactly the samples of the subset. *)
Theorem grown_tree_keeps_every_sample (D : Type) (HD : Double D)
        (this : SingleTreeTrainer D) (data : list D) (rowLength : Z) (labels : list D)
        (indices : list nat) (depth : Z) :
  let n := SingleTreeTrainer.splitNodeOptimized this data rowLength labels
                                                newNode indices depth in
  samples n = length indices
  /\ samples_add_up n
  /\ leaf_samples n = length indices.
Proof.
  intros n.
  destruct (splitNodeOptimized_rec_samples this data rowLength labels indices depth eq_refl)
    as [Hs Ha].
  fold (SingleTreeTrainer.splitNodeOptimized this data rowLength labels newNode
          indices depth) in Hs, Ha.
  fold n in Hs, Ha.
  split; [exact Hs|]. split; [exact Ha|].
  now rewrite (leaf_samples_add_up n Ha).
Qed.

(** X6.  A node the cost-complexity pruner turns into a leaf predicts
    0.0, not the mean of its samples: [pruneRec] takes the prediction
    from [getNodePrediction], which returns 0.0 for a node that is not a
    leaf.  The node keeps its sample count and its metric.  A node the
    pruner keeps, keeps its split. *)
Theorem cost_complexity_collapse_predicts_zero
        (D : Type) (HD : Double D) (HU : UnionLayout D)
        (alpha : D) (n n' : Node D) (e : D) :
  isLeaf n = false ->
  CostComplexityPruner.pruneRec alpha n = Ok (n', e) ->
  samples n' = samples n /\ metric n' = metric n
  /\ ((isLeaf n' = true
       /\ getPrediction n' = zero /\ getNodePrediction n' = zero
       /\ leftChild n' = None /\ rightChild n' = None)
      \/ (isLeaf n' = false
          /\ getFeatureIndex n' = getFeatureIndex n
          /\ getThreshold n' = getThreshold n)).
Proof.
  intros Hn Hp.
  destruct (cc_pruneRec_outcome alpha n Hn Hp) as (Hs & Hm & [(Hl & Hi & Hc)|(Hl & Hi)]).
  - split; [exact Hs|]. split; [exact Hm|]. left.
    unfold getPrediction, getNodePrediction. rewrite Hl, Hi. cbn. tauto.
  - split; [exact Hs|]. split; [exact Hm|]. right.
    unfold getFeatureIndex, getThreshold. rewrite Hl, Hn, Hi. tauto.
Qed.

Lemma cost_complexity_collapse_predicts_zero_witness :
  let n : Node float :=
    mkNode false 4 4%float (internal 0 2.5%float)
           (Some (mkNode true 2 0%float (leaf 1%float 1%float) None None))
           (Some (mkNode true 2 0%float (leaf 5%float 5%float) None None)) in
  let n' : Node float := mkNode true 4 4%float (leaf 0%float 0%float) None None in
  samples n' = samples n /\ metric n' = metric n
  /\ ((isLeaf n' = true
       /\ getPrediction n' = zero /\ getNodePrediction n' = zero
       /\ leftChild n' = None /\ rightChild n' = None)
      \/ (isLeaf n' = false
          /\ getFeatureIndex n' = getFeatureIndex n
          /\ getThreshold n' = getThreshold n)).
Proof.
  cbv zeta.
  apply (@cost_complexity_collapse_predicts_zero float _ _ 100%float _ _ 16%float).
  - reflexivity.
  - vm_compute. reflexivity.
Defined.

(** X7.  The value the cost-complexity [pruneRec] returns is the total
    error of the tree it leaves: the sum over its leaves, from left to
    right, of [metric * samples]. *)
Theorem cost_complexity_returns_leaf_error (D : Type) (HD : Double D)
        (alpha : D) (n n' : Node D) (e : D) :
  CostComplexityPruner.pruneRec alpha n = Ok (n', e) ->
  e = leaf_error n'.
Proof. apply cc_pruneRec_error. Qed.

Lemma cost_complexity_returns_leaf_error_witness :
  let n : Node float :=
    mkNode false 4 4%float (internal 0 2.5%float)
           (Some (mkNode true 2 0.25%float (leaf 1%float 1%float) None None))
           (Some (mkNode true 2 0.5%float (leaf 5%float 5%float) None None)) in
  1.5%float = leaf_error n.
Proof.
  cbv zeta.
  apply (@cost_complexity_returns_leaf_error float _ 0.125%float
           (mkNode false 4 4%float (internal 0 2.5%float)
              (Some (mkNode true 2 0.25%float (leaf 1%float 1%float) None None))
              (Some (mkNode true 2 0.5%float (leaf 5%float 5%float) None None)))).
  vm_compute. reflexivity.
Defined.

(** X8.  The reduced-error pruner erases the split of every node it
    visits.  The trial [makeLeaf(0.0, 0.0)] overwrites the union, and
    the restore step puts back [isLeaf] and the children only: a node
    that stays internal has threshold 0.0 and, as feature index, the low
    word of the bytes of 0.0; a node that is collapsed predicts 0.0. *)
Theorem reduced_error_erases_splits (D : Type) (HD : Double D) (HU : UnionLayout D)
        (Xv : list D) (D_ : Z) (yv : list D) (n n' : Node D) :
  isLeaf n = false ->
  ReducedErrorPruner.pruneRec_node Xv D_ yv n = Ok n' ->
  samples n' = samples n /\ metric n' = metric n
  /\ ((isLeaf n' = true /\ getPrediction n' = zero
       /\ leftChild n' = None /\ rightChild n' = None)
      \/ (isLeaf n' = false
          /\ getThreshold n' = zero
          /\ getFeatureIndex n' = low_word (zero : D))).
Proof.
  intros Hn Hp.
  destruct (re_pruneRec_outcome Xv D_ yv n Hn Hp) as (Hs & Hm & Hi & Hc).
  split; [exact Hs|]. split; [exact Hm|].
  unfold getPrediction, getThreshold, getFeatureIndex. rewrite Hi.
  destruct (isLeaf n') eqn:Hl.
  - left. destruct (Hc eq_refl) as [-> ->]. cbn. tauto.
  - right. cbn. tauto.
Qed.

Lemma reduced_error_erases_splits_witness :
  let n : Node float :=
    mkNode false 4 4%float (internal 0 2.5%float)
           (Some (mkNode true 2 0%float (leaf 1%float 1%float) None None))
           (Some (mkNode true 2 0%float (leaf 5%float 5%float) None None)) in
  let n' : Node float :=
    mkNode false 4 4%float (leaf 0%float 0%float)
           (Some (mkNode true 2 0%float (leaf 1%float 1%float) None None))
           (Some (mkNode true 2 0%float (leaf 5%float 5%float) None None)) in
  samples n' = samples n /\ metric n' = metric n
  /\ ((isLeaf n' = true /\ getPrediction n' = zero
       /\ leftChild n' = None /\ rightChild n' = None)
      \/ (isLeaf n' = false
          /\ getThreshold n' = zero
          /\ getFeatureIndex n' = low_word (zero : float))).
Proof.
  cbv zeta.
  apply (@reduced_error_erases_splits float _ _ [1; 4]%float 1 [1; 5]%float).
  - reflexivity.
  - vm_compute. reflexivity.
Defined.

(** ** The sort *)

Lemma insert_by_perm {A : Type} (lt : A -> A -> bool) (x : A) (l : list A) :
  Permutation (insert_by lt x l) (x :: l).
Proof.
  induction l as [|y l IH]; cbn [insert_by]; [reflexivity|].
  destruct (lt y x); [|reflexivity].
  rewrite IH. apply perm_swap.
Qed.

Lemma std_sort_perm {A : Type} (lt : A -> A -> bool) (l : list A) :
  Permutation (std_sort lt l) l.
Proof.
  induction l as [|x l IH]; [reflexivity|].
  unfold std_sort in *. cbn [fold_right]. rewrite insert_by_perm. now constructor.
Qed.

(** ** The splits the exhaustive finder proposes *)

Section ExhaustiveProposals.
Variables (data : list R) (rowLength : Z) (labels : list R) (indices : list nat).

Lemma exhaustive_proposal_gain (best : Z * R * R) :
  exhaustive_proposal data rowLength indices best -> (0 <= snd best)%R.
Proof.
  intros [->|(_ & H & _)]; cbn [snd]; lra.
Qed.

Lemma exhaustive_scan_proposal (N : nat) (totalSum totalSumSq parentMSE : R) (f : Z) :
  (0 <= f < rowLength)%Z ->
  forall (sorted : list nat) (i : nat) (leftSum leftSumSq : R) (best : Z * R * R),
    incl sorted indices ->
    exhaustive_proposal data rowLength indices best ->
    exhaustive_proposal data rowLength indices
      (ExhaustiveSplitFinder.scan data rowLength labels N totalSum totalSumSq parentMSE f
                                  sorted i leftSum leftSumSq best).
Proof.
  intros Hf. induction sorted as [|idx rest IH]; intros i leftSum leftSumSq best Hin Hb;
    [exact Hb|].
  destruct rest as [|next rest']; [exact Hb|].
  cbn [ExhaustiveSplitFinder.scan]. cbv zeta.
  apply IH; [intros x Hx; apply Hin; now right|].
  destruct (feature data rowLength idx f + ExhaustiveSplitFinder.EPS
            <? feature data rowLength next f)%dbl eqn:Hgap; [|exact Hb].
  match goal with
  | |- context [if ?c then _ else best] => destruct c eqn:Hgain; [|exact Hb]
  end.
  apply Rltb_true in Hgap. apply Rltb_true in Hgain.
  pose proof (exhaustive_proposal_gain Hb) as H0.
  right. cbn [fst snd]. split; [exact Hf|]. split; [lra|].
  exists idx, next.
  split; [apply Hin; now left|]. split; [apply Hin; right; now left|].
  unfold ExhaustiveSplitFinder.EPS in Hgap. cbn [d1e_12 d0_5 dadd dmul Double_R] in *.
  assert (He : (0 < / 1000000000000)%R) by (apply Rinv_0_lt_compat; lra).
  split; lra.
Qed.

Lemma exhaustive_features_proposal (N : nat) (totalSum totalSumSq parentMSE : R) :
  forall (fs : list Z) (best : Z * R * R),
    (forall f, In f fs -> (0 <= f < rowLength)%Z) ->
    exhaustive_proposal data rowLength indices best ->
    exhaustive_proposal data rowLength indices
      (fold_left (ExhaustiveSplitFinder.scan_feature data rowLength labels
                    N totalSum totalSumSq parentMSE indices) fs best).
Proof.
  induction fs as [|f fs IH]; intros best Hfs Hb; [exact Hb|].
  cbn [fold_left]. apply IH; [intros f' Hf'; apply Hfs; now right|].
  unfold ExhaustiveSplitFinder.scan_feature.
  apply exhaustive_scan_proposal; [apply Hfs; now left| |exact Hb].
  intros x Hx. eapply Permutation_in; [apply std_sort_perm|exact Hx].
Qed.

Lemma features_range (f : Z) : In f (features rowLength) -> (0 <= f < rowLength)%Z.
Proof.
  unfold features. intros Hf. apply in_map_iff in Hf. destruct Hf as (k & <- & Hk).
  apply in_seq in Hk. lia.
Qed.

End ExhaustiveProposals.


(** ** The splits the quartile finder proposes *)

(** No [double] is below minus infinity. *)
Lemma float_not_below_neg_infinity (x : float) :
  (x <? neg_infinity)%dbl = false.
Proof.
  cbn [dltb Double_float neg_infinity Limits_float].
  rewrite ltb_spec.
  change (Prim2SF PrimFloat.neg_infinity) with (S754_infinity true).
  destruct (Prim2SF x) as [s|s| |s m e]; try destruct s; reflexivity.
Qed.

Section QuartileProposals.
Variables (X : list float) (D_ : Z) (y : list float) (idx : list nat).

Lemma quartile_buffers_filter (f : Z) (thr : float) :
  QuartileSplitFinder.buffers X D_ idx f thr
  = (filter (SingleTreeTrainer.goes_left X D_ f thr) idx,
     filter (fun i => negb (SingleTreeTrainer.goes_left X D_ f thr i)) idx).
Proof.
  exact (fold_split_filter (SingleTreeTrainer.goes_left X D_ f thr) idx [] []).
Qed.

Lemma quartile_try_threshold_separates (parentMetric : float)
      (crit : ISplitCriterion float) (f : Z) (st : float * float) (thr : float) :
  st = (zero, neg_infinity) \/ separates X D_ idx f (fst st) ->
  let st' := QuartileSplitFinder.try_threshold X D_ y idx parentMetric crit f st thr in
  st' = (zero, neg_infinity) \/ separates X D_ idx f (fst st').
Proof.
  intros Hst. unfold QuartileSplitFinder.try_threshold.
  rewrite quartile_buffers_filter.
  destruct (filter (SingleTreeTrainer.goes_left X D_ f thr) idx) as [|i l] eqn:El;
    [exact Hst|].
  destruct (filter (fun i => negb (SingleTreeTrainer.goes_left X D_ f thr i)) idx)
    as [|j r] eqn:Er; [exact Hst|].
  cbv zeta.
  match goal with
  | |- context [if ?c then _ else st] => destruct c; [|exact Hst]
  end.
  right. cbn [fst]. exists i, j.
  assert (Hi : In i (filter (SingleTreeTrainer.goes_left X D_ f thr) idx))
    by (rewrite El; now left).
  assert (Hj : In j (filter (fun i => negb (SingleTreeTrainer.goes_left X D_ f thr i)) idx))
    by (rewrite Er; now left).
  apply filter_In in Hi. apply filter_In in Hj.
  destruct Hi as [Hi1 Hi2]. destruct Hj as [Hj1 Hj2].
  apply negb_true_iff in Hj2. tauto.
Qed.

Lemma quartile_thresholds_separate (parentMetric : float)
      (crit : ISplitCriterion float) (f : Z) :
  forall (thrs : list float) (st : float * float),
    st = (zero, neg_infinity) \/ separates X D_ idx f (fst st) ->
    let st' := fold_left (QuartileSplitFinder.try_threshold X D_ y idx parentMetric crit f)
                         thrs st in
    st' = (zero, neg_infinity) \/ separates X D_ idx f (fst st').
Proof.
  induction thrs as [|thr thrs IH]; intros st Hst; [exact Hst|].
  cbn [fold_left]. apply IH. now apply quartile_try_threshold_separates.
Qed.

Lemma quartile_scan_feature_proposal (parentMetric : float)
      (crit : ISplitCriterion float) (best : Z * float * float) (f : Z) :
  (0 <= f < D_)%Z ->
  quartile_proposal X D_ idx best ->
  quartile_proposal X D_ idx (QuartileSplitFinder.scan_feature X D_ y idx parentMetric crit best f).
Proof.
  intros Hf Hb. unfold QuartileSplitFinder.scan_feature.
  destruct (_ <? 4)%nat; [exact Hb|]. cbv zeta.
  pose proof (@quartile_thresholds_separate parentMetric crit f
                (QuartileSplitFinder.thrList
                   (std_sort dltb (map (fun i : nat => feature X D_ i f) idx)))
                (zero, neg_infinity) (or_introl eq_refl)) as Hst.
  cbv zeta in Hst.
  destruct (fold_left _ _ _) as [localBestThr localBestGain].
  destruct (localBestGain >? snd best)%dbl eqn:Hc; [|exact Hb].
  destruct Hst as [[= -> ->]|Hsep].
  - now rewrite float_not_below_neg_infinity in Hc.
  - right. cbn [fst snd] in *. split; assumption.
Qed.

Lemma quartile_features_proposal (parentMetric : float) (crit : ISplitCriterion float) :
  forall (fs : list Z) (best : Z * float * float),
    (forall f, In f fs -> (0 <= f < D_)%Z) ->
    quartile_proposal X D_ idx best ->
    quartile_proposal X D_ idx
      (fold_left (QuartileSplitFinder.scan_feature X D_ y idx parentMetric crit) fs best).
Proof.
  induction fs as [|f fs IH]; intros best Hfs Hb; [exact Hb|].
  cbn [fold_left]. apply IH; [intros f' Hf'; apply Hfs; now right|].
  apply quartile_scan_feature_proposal; [apply Hfs; now left|exact Hb].
Qed.

End QuartileProposals.

(** X10.  In IEEE arithmetic, what the quartile finder returns has
    feature index -1 (for a subset of fewer than four samples, or when
    no threshold was scored), or it names one of the [D] features and a
    threshold that has a sample of the subset at or below it and a
    sample of the subset above it: a threshold that leaves a side empty
    is skipped, and an unscored feature never replaces the best. *)
Theorem quartile_split_separates
        (X : list float) (D_ : Z) (y : list float) (idx : list nat)
        (parentMetric : float) (crit : ISplitCriterion float) :
  let best := QuartileSplitFinder.findBestSplit X D_ y idx parentMetric crit in
  let f := fst (fst best) in
  let thr := snd (fst best) in
  best = ((-1)%Z, zero, zero)
  \/ best = ((-1)%Z, zero, neg_infinity)
  \/ ((0 <= f < D_)%Z
      /\ exists i j,
          In i idx /\ In j idx
          /\ SingleTreeTrainer.goes_left X D_ f thr i = true
          /\ SingleTreeTrainer.goes_left X D_ f thr j = false).
Proof.
  intros best f thr. subst best f thr. unfold QuartileSplitFinder.findBestSplit.
  destruct (_ <? 4)%nat; [now left|]. right.
  apply quartile_features_proposal; [apply features_range|now left].
Qed.

(** ** The criteria on the reals, continued *)

Section CriteriaOnReals.
Variable labels : list R.

Lemma MSE_sums (l : list nat) :
  forall s q : R,
    fold_left (fun '(sum, sumSq) i =>
                 let y := at_nat labels i in (sum + y, sumSq + y * y)%dbl)
              l (s, q)
    = (fold_left (fun s i => (s + at_nat labels i)%dbl) l s,
       fold_left (fun q i => (q + at_nat labels i * at_nat labels i)%dbl) l q).
Proof.
  induction l as [|i l IH]; intros s q; [reflexivity|].
  cbn [fold_left]. apply IH.
Qed.

Lemma deviations_sum (m : R) (l : list nat) :
  forall s q v : R,
    (fold_left (fun acc i => acc + (at_nat labels i - m) * (at_nat labels i - m)) l v
     = v
       + (fold_left (fun q i => (q + at_nat labels i * at_nat labels i)%dbl) l q - q)
       - 2 * m * (fold_left (fun s i => (s + at_nat labels i)%dbl) l s - s)
       + INR (length l) * (m * m))%R.
Proof.
  induction l as [|i l IH]; intros s q v.
  - cbn. ring.
  - cbn [fold_left]. rewrite (IH (s + at_nat labels i)%dbl (q + at_nat labels i * at_nat labels i)%dbl).
    change (length (i :: l)) with (S (length l)). rewrite S_INR. cbn. ring.
Qed.

Lemma MSE_is_variance (indices : list nat) :
  indices <> [] ->
  MSECriterion.nodeMetric labels indices = variance labels indices.
Proof.
  intros Hne.
  assert (Hn : (0 < IZR (Z.of_nat (length indices)))%R).
  { apply IZR_lt. destruct indices; [congruence|cbn; lia]. }
  assert (Hv : (0 <= variance labels indices)%R).
  { unfold variance. apply Rmult_le_pos; [|left; now apply Rinv_0_lt_compat].
    apply fold_left_nonneg; [|lra].
    intros s a Hs. pose proof (Rle_0_sqr (at_nat labels a - mean labels indices)) as H2.
    unfold Rsqr in H2. lra. }
  assert (He : (fold_left (fun q i => (q + at_nat labels i * at_nat labels i)%dbl) indices zero
                / of_size (length indices)
                - sum_labels labels indices / of_size (length indices)
                  * (sum_labels labels indices / of_size (length indices)))%dbl
               = variance labels indices).
  { unfold variance. rewrite (deviations_sum (mean labels indices) indices 0 0 0).
    unfold mean, sum_labels, of_size, zero. cbn [of_Z dadd dsub dmul ddiv Double_R].
    rewrite INR_IZR_INZ. field. lra. }
  unfold MSECriterion.nodeMetric. destruct indices as [|i0 rest]; [congruence|].
  rewrite MSE_sums. cbv zeta.
  fold (sum_labels labels (i0 :: rest)). rewrite He.
  unfold std_max. destruct (zero <? variance labels (i0 :: rest))%dbl eqn:E; [reflexivity|].
  apply Rltb_false in E. cbn in E |- *. lra.
Qed.

(** *** A node whose samples all have the same target *)

Variable c : R.
Variable indices : list nat.
Hypothesis pure : forall i, In i indices -> at_nat labels i = c.
Hypothesis nonempty : indices <> [].

Lemma pure_sum_labels : sum_labels labels indices = (INR (length indices) * c)%R.
Proof.
  unfold sum_labels.
  assert (H : forall l s, (forall i, In i l -> at_nat labels i = c) ->
                          fold_left (fun s i => (s + at_nat labels i)%dbl) l s
                          = (s + INR (length l) * c)%R).
  { induction l as [|i l IH]; intros s Hl.
    - cbn. ring.
    - cbn [fold_left]. rewrite IH by (intros j Hj; apply Hl; now right).
      rewrite (Hl i) by now left.
      change (length (i :: l)) with (S (length l)). rewrite S_INR. cbn. ring. }
  rewrite (H indices zero pure). cbn. ring.
Qed.

Lemma INR_length_pos : (0 < INR (length indices))%R.
Proof. apply lt_0_INR. destruct indices; [congruence|cbn; lia]. Qed.

Lemma pure_mean : mean labels indices = c.
Proof.
  unfold mean. rewrite pure_sum_labels. unfold of_size. cbn [of_Z ddiv Double_R].
  rewrite <- INR_IZR_INZ. pose proof INR_length_pos. field. lra.
Qed.

Lemma fold_left_unchanged {A : Type} (f : R -> A -> R) (l : list A) :
  (forall s a, In a l -> f s a = s) ->
  forall s0, fold_left f l s0 = s0.
Proof.
  induction l as [|a l IH]; intros Hf s0; [reflexivity|].
  cbn [fold_left]. rewrite (Hf s0 a) by now left.
  apply IH. intros s b Hb. apply Hf. now right.
Qed.

Lemma zero_div_size : (zero / of_size (length indices))%dbl = 0%R.
Proof.
  unfold zero, of_size. cbn [of_Z ddiv Double_R]. unfold Rdiv. apply Rmult_0_l.
Qed.

(** The sorted targets of the node are all equal to [c]. *)
Lemma pure_sorted (x : R) :
  In x (std_sort dltb (map (at_nat labels) indices)) -> x = c.
Proof.
  intros Hx. apply (Permutation_in _ (std_sort_perm _ _)) in Hx.
  apply in_map_iff in Hx. destruct Hx as (i & <- & Hi). now apply pure.
Qed.

Lemma pure_sorted_length :
  length (std_sort (@dltb R _) (map (at_nat labels) indices)) = length indices.
Proof.
  rewrite (Permutation_length (std_sort_perm _ _)). apply length_map.
Qed.

Lemma pure_sorted_at (k : nat) :
  k < length indices ->
  at_nat (std_sort dltb (map (at_nat labels) indices)) k = c.
Proof.
  intros Hk. apply pure_sorted. apply nth_In.
  now rewrite pure_sorted_length.
Qed.

Lemma max_element_pure (v : list R) :
  v <> [] -> (forall x, In x v -> x = c) -> MAECriterion.max_element v = c.
Proof.
  destruct v as [|x v]; [congruence|]. intros _ Hv.
  unfold MAECriterion.max_element.
  rewrite (Hv x) by now left.
  assert (H : forall l, (forall y, In y l -> y = c) ->
                        fold_left (fun best y : R => if (best <? y)%dbl then y else best) l c
                        = c).
  { induction l as [|y l IH]; intros Hl; [reflexivity|].
    cbn [fold_left]. rewrite (Hl y) by now left.
    destruct (c <? c)%dbl; apply IH; intros z Hz; apply Hl; now right. }
  apply H. intros y Hy. apply Hv. now right.
Qed.

Lemma pure_median : MAECriterion.subsetMedianParallel labels indices = c.
Proof.
  unfold MAECriterion.subsetMedianParallel. cbv zeta. rewrite length_map.
  assert (Hlen : 0 < length indices) by (destruct indices; [congruence|cbn; lia]).
  assert (Hmid : Nat.div (length indices) 2 < length indices)
    by (apply Nat.div_lt; lia).
  destruct (Nat.eqb _ 1) eqn:Hodd.
  - now apply pure_sorted_at.
  - rewrite pure_sorted_at by exact Hmid.
    rewrite max_element_pure.
    + cbn. field.
    + apply Nat.eqb_neq in Hodd.
      assert (H2 : 2 <= length indices).
      { destruct (length indices) as [|[|k]]; [lia|now cbn in Hodd|lia]. }
      assert (Hd : 1 <= Nat.div (length indices) 2)
        by (apply Nat.div_le_lower_bound; lia).
      intros E. apply (f_equal (@length R)) in E.
      rewrite length_firstn, pure_sorted_length in E.
      change (length (@nil R)) with 0 in E. lia.
    + intros x Hx. apply pure_sorted.
      rewrite <- (firstn_skipn (Nat.div (length indices) 2)). apply in_or_app. now left.
Qed.

End CriteriaOnReals.

Lemma Rtrunc_range (x : R) (m : Z) :
  (0 <= x <= IZR m)%R -> (0 <= Rtrunc x <= m)%Z.
Proof.
  intros [H0 Hm]. unfold Rtrunc. destruct (Rle_dec 0 x) as [_|Hn]; [|lra].
  destruct (base_Int_part x) as [Hle Hgt]. split.
  - assert (H1 : (-1 < IZR (Int_part x))%R) by lra.
    assert (H2 : (-1 < Int_part x)%Z) by (apply lt_IZR; exact H1).
    lia.
  - apply le_IZR. lra.
Qed.

Section PureNode.
Variables (labels : list R) (c : R) (indices : list nat).
Hypothesis pure : forall i, In i indices -> at_nat labels i = c.
Hypothesis nonempty : indices <> [].

Lemma pure_MSE : MSECriterion.nodeMetric labels indices = 0%R.
Proof.
  rewrite MSE_is_variance by exact nonempty. unfold variance.
  rewrite (pure_mean labels pure nonempty).
  rewrite fold_left_unchanged.
  - unfold Rdiv. apply Rmult_0_l.
  - intros s i Hi. rewrite (pure i Hi). ring.
Qed.

Lemma pure_MAE : MAECriterion.nodeMetric labels indices = 0%R.
Proof.
  unfold MAECriterion.nodeMetric. destruct indices as [|i0 rest] eqn:E; [congruence|].
  rewrite <- E in *. cbv zeta. rewrite (pure_median labels pure nonempty).
  rewrite fold_left_unchanged.
  - apply zero_div_size.
  - intros s i Hi. rewrite (pure i Hi). cbn.
    replace (c - c)%R with 0%R by ring. rewrite Rabs_R0. ring.
Qed.

Lemma pure_Huber (delta : R) :
  (0 <= delta)%R -> HuberCriterion.nodeMetric delta labels indices = 0%R.
Proof.
  intros Hd.
  unfold HuberCriterion.nodeMetric. destruct indices as [|i0 rest] eqn:E; [congruence|].
  rewrite <- E in *. cbv zeta. fold (mean labels indices).
  rewrite (pure_mean labels pure nonempty).
  rewrite fold_left_unchanged.
  - apply zero_div_size.
  - intros s i Hi. rewrite (pure i Hi). cbn.
    replace (c - c)%R with 0%R by ring. rewrite Rabs_R0.
    destruct (Rleb 0 delta) eqn:El; [ring|].
    apply Rleb_false in El. lra.
Qed.

Lemma pure_LogCosh : LogCoshCriterion.nodeMetric labels indices = 0%R.
Proof.
  unfold LogCoshCriterion.nodeMetric. destruct indices as [|i0 rest] eqn:E; [congruence|].
  rewrite <- E in *. cbv zeta. fold (mean labels indices).
  rewrite (pure_mean labels pure nonempty).
  rewrite fold_left_unchanged.
  - apply zero_div_size.
  - intros s i Hi. rewrite (pure i Hi). cbn.
    replace (c - c)%R with 0%R by ring. rewrite cosh_0, ln_1. ring.
Qed.

Lemma pure_Quantile (tau : R) :
  (0 <= tau <= 1)%R -> QuantileCriterion.nodeMetric tau labels indices = 0%R.
Proof.
  intros Ht.
  unfold QuantileCriterion.nodeMetric. destruct indices as [|i0 rest] eqn:E; [congruence|].
  rewrite <- E in *. cbv zeta.
  assert (Hlen : 0 < length indices) by (destruct indices; [congruence|cbn; lia]).
  assert (Hk : (0 <= to_size_t (tau * of_size (length indices - 1))%dbl
                <= Z.of_nat (length indices - 1))%Z).
  { cbn [to_size_t Double_R]. apply Rtrunc_range.
    unfold of_size. cbn [of_Z dmul Double_R].
    assert (Hn : (0 <= IZR (Z.of_nat (length indices - 1)))%R) by (apply IZR_le; lia).
    remember (IZR (Z.of_nat (length indices - 1))) as n. nra. }
  assert (Hq : at_Z (std_sort dltb (map (at_nat labels) indices))
                    (to_size_t (tau * of_size (length indices - 1))%dbl) = c).
  { unfold at_Z. destruct (_ <? 0)%Z eqn:Hneg; [apply Z.ltb_lt in Hneg; lia|].
    apply (@pure_sorted_at labels c indices pure). lia. }
  rewrite Hq.
  rewrite fold_left_unchanged.
  - apply zero_div_size.
  - intros s v Hv. rewrite (@pure_sorted labels c indices pure v Hv). cbn.
    replace (c - c)%R with 0%R by ring.
    destruct (Rltb 0 0); ring.
Qed.

End PureNode.





(** ** evaluate *)

(** X13.  [evaluate] on an empty test set divides 0.0 by 0: in IEEE
    arithmetic both errors come out as NaN, whatever the tree and the
    feature matrix. *)
Theorem evaluate_empty_is_nan (this : SingleTreeTrainer float) (X : list float)
        (rowLength : Z) :
  SingleTreeTrainer.evaluate this X rowLength [] = (nan, nan).
Proof.
  unfold SingleTreeTrainer.evaluate. cbn [length seq fold_left].
  unfold of_size, zero. cbn [of_Z ddiv Double_float].
  vm_compute. reflexivity.
Qed.

Section EvaluateOnReals.
Variable d : nat -> R.

Lemma errors_accumulate (l : list nat) :
  forall a0 b0 : R,
    let r := fold_left (fun '(mse, mae) i => (mse + d i * d i, mae + Rabs (d i))%R)
                       l (a0, b0) in
    (a0 <= fst r)%R /\ (b0 <= snd r)%R
    /\ ((snd r - b0) * (snd r - b0) <= INR (length l) * (fst r - a0))%R.
Proof.
  induction l as [|i l IH]; intros a0 b0.
  - cbn. split; [lra|]. split; [lra|]. ring_simplify. lra.
  - cbn [fold_left]. cbv zeta.
    specialize (IH (a0 + d i * d i)%R (b0 + Rabs (d i))%R). cbv zeta in IH.
    destruct (fold_left _ l _) as [a' b']. cbn [fst snd] in *.
    destruct IH as (Ha & Hb & Hc).
    pose proof (Rabs_pos (d i)) as Ht.
    assert (Hsq : (Rabs (d i) * Rabs (d i) = d i * d i)%R).
    { unfold Rabs. destruct (Rcase_abs (d i)); ring. }
    pose proof (Rle_0_sqr (d i)) as Hd2. unfold Rsqr in Hd2.
    change (length (i :: l)) with (S (length l)). rewrite S_INR.
    pose proof (pos_INR (length l)) as Hk.
    remember (INR (length l)) as k. remember (Rabs (d i)) as t.
    remember (d i * d i)%R as dd.
    split; [lra|]. split; [lra|].
    remember (b' - b0 - t)%R as u. remember (a' - a0 - dd)%R as w.
    replace (b' - b0)%R with (u + t)%R by lra.
    replace (a' - a0)%R with (w + dd)%R by lra.
    assert (Hu : (0 <= u)%R) by lra. assert (Hw : (0 <= w)%R) by lra.
    replace ((b' - (b0 + t)) * (b' - (b0 + t)))%R with (u * u)%R in Hc by (subst u; ring).
    replace (a' - (a0 + dd))%R with w in Hc by (subst w; ring).
    rewrite <- Hsq.
    assert (Hmix : (2 * u * t <= k * (t * t) + w)%R).
    { destruct (Req_dec k 0) as [K0|K0].
      - rewrite K0 in *. assert (u = 0)%R by nra. subst u. nra.
      - assert (Hk1 : (1 <= k)%R).
        { subst k. destruct (length l); [now cbn in K0|].
          rewrite S_INR. pose proof (pos_INR n). lra. }
        pose proof (Rle_0_sqr (k * t - u)) as Hs. unfold Rsqr in Hs.
        assert (Hprod : (0 <= k * (k * (t * t) + w - 2 * u * t))%R) by nra.
        nra. }
    nra.
Qed.

End EvaluateOnReals.



(** ** The tree the task queue builds *)

Section Paths.
Context {D : Type} {HD : Double D}.

Lemma diverge_sym (p q : NodePtr) : diverge p q -> diverge q p.
Proof.
  revert q. induction p as [|a p IH]; intros [|b q]; cbn; try tauto.
  intros [Hab|Hd]; [left; congruence|right; now apply IH].
Qed.

Lemma diverge_app_r (p q s : NodePtr) : diverge p q -> diverge p (q ++ s).
Proof.
  revert q. induction p as [|a p IH]; intros [|b q]; cbn; try tauto.
  intros [Hab|Hd]; [now left|right; now apply IH].
Qed.

Lemma diverge_siblings (p : NodePtr) : diverge (p ++ [goLeft]) (p ++ [goRight]).
Proof. induction p as [|a p IH]; cbn; [left; discriminate|now right]. Qed.

Lemma node_at_store_diverge (p q : NodePtr) (v : Node D) :
  diverge p q ->
  forall r, SingleTreeTrainer.node_at p (SingleTreeTrainer.store_at q v r)
            = SingleTreeTrainer.node_at p r.
Proof.
  revert q. induction p as [|a p IH]; intros [|b q]; cbn [diverge]; try tauto.
  intros Hd r. destruct r as [bl s m i l rc].
  destruct a, b; cbn [SingleTreeTrainer.node_at SingleTreeTrainer.store_at
                      leftChild rightChild];
    destruct l as [l|], rc as [rc|];
    cbn [SingleTreeTrainer.node_at set_children leftChild rightChild]; try reflexivity.
  all: destruct Hd as [Hd|Hd]; try congruence; now apply IH.
Qed.

Lemma store_at_comm (p q : NodePtr) (v w : Node D) :
  diverge p q ->
  forall r,
    SingleTreeTrainer.store_at p v (SingleTreeTrainer.store_at q w r)
    = SingleTreeTrainer.store_at q w (SingleTreeTrainer.store_at p v r).
Proof.
  revert q. induction p as [|a p IH]; intros [|b q]; cbn [diverge]; try tauto.
  intros Hd r. destruct r as [bl s m i l rc].
  destruct a, b; cbn [SingleTreeTrainer.store_at leftChild rightChild];
    destruct l as [l|], rc as [rc|];
    cbn [SingleTreeTrainer.store_at set_children leftChild rightChild isLeaf samples
         metric info]; try reflexivity.
  all: destruct Hd as [Hd|Hd]; try congruence; now rewrite (IH _ Hd).
Qed.

Lemma node_at_store_app (p q : NodePtr) (m : Node D) :
  forall r n,
    SingleTreeTrainer.node_at p r = Some n ->
    SingleTreeTrainer.node_at (p ++ q) (SingleTreeTrainer.store_at p m r)
    = SingleTreeTrainer.node_at q m.
Proof.
  induction p as [|a p IH]; intros r n Hr; [reflexivity|].
  destruct r as [bl s mt i l rc].
  destruct a; cbn [SingleTreeTrainer.node_at SingleTreeTrainer.store_at app
                   leftChild rightChild] in *.
  - destruct l as [l|]; [|discriminate].
    cbn [SingleTreeTrainer.node_at set_children leftChild]. now apply (IH l n).
  - destruct rc as [rc|]; [|discriminate].
    cbn [SingleTreeTrainer.node_at set_children rightChild]. now apply (IH rc n).
Qed.

Lemma store_at_app (p q : NodePtr) (m v : Node D) :
  forall r n,
    SingleTreeTrainer.node_at p r = Some n ->
    SingleTreeTrainer.store_at (p ++ q) v (SingleTreeTrainer.store_at p m r)
    = SingleTreeTrainer.store_at p (SingleTreeTrainer.store_at q v m) r.
Proof.
  induction p as [|a p IH]; intros r n Hr; [reflexivity|].
  destruct r as [bl s mt i l rc].
  destruct a; cbn [SingleTreeTrainer.node_at SingleTreeTrainer.store_at app
                   leftChild rightChild] in *.
  - destruct l as [l|]; [|discriminate].
    cbn [SingleTreeTrainer.store_at set_children leftChild rightChild isLeaf samples
         metric info]. now rewrite (IH l n).
  - destruct rc as [rc|]; [|discriminate].
    cbn [SingleTreeTrainer.store_at set_children leftChild rightChild isLeaf samples
         metric info]. now rewrite (IH rc n).
Qed.

End Paths.

Section QueueIsRecursion.
Context {D : Type} {HD : Double D}.
Variable this : SingleTreeTrainer D.
Variables (data : list D) (rowLength : Z) (labels : list D).

(** The tasks [processTask] pushes: none, or one for each side that is
    not empty, the left one first; and none at the depth limit. *)
Lemma processNode_pushed (node : Node D) (indices : list nat) (depth : Z) :
  exists left right,
    snd (SingleTreeTrainer.processNode this data rowLength labels node indices depth)
    = child_tasks left right
    /\ (child_tasks left right <> [] -> (maxDepth_ this <=? depth)%Z = false).
Proof.
  unfold SingleTreeTrainer.processNode.
  destruct indices as [|i0 rest]; [exists [], []; split; [reflexivity|now intros []]|].
  cbv zeta.
  destruct (SingleTreeTrainer.stop_before_split this (i0 :: rest) depth) eqn:Hstop;
    [exists [], []; split; [reflexivity|now intros []]|].
  destruct (findBestSplit _ _ _ _ _ _ _) as [[f t] g].
  destruct (_ || _); [exists [], []; split; [reflexivity|now intros []]|].
  destruct (SingleTreeTrainer.below_minGain this g);
    [exists [], []; split; [reflexivity|now intros []]|].
  destruct (SingleTreeTrainer.split_indices data rowLength f t (i0 :: rest)) as [l r].
  destruct (_ || _); [exists [], []; split; [reflexivity|now intros []]|].
  exists l, r. split; [reflexivity|]. intros _.
  unfold SingleTreeTrainer.stop_before_split in Hstop.
  apply orb_false_iff in Hstop. destruct Hstop as [Hstop _].
  apply orb_false_iff in Hstop. now destruct Hstop as [Hdepth _].
Qed.

Lemma run_tasks_cons (root : Node D) (t : SplitTask) (q : list SplitTask) :
  run_tasks this data rowLength labels root (t :: q)
  = run_tasks this data rowLength labels (run_task this data rowLength labels root t) q.
Proof. reflexivity. Qed.

Lemma run_tasks_app (root : Node D) (q1 q2 : list SplitTask) :
  run_tasks this data rowLength labels root (q1 ++ q2)
  = run_tasks this data rowLength labels (run_tasks this data rowLength labels root q1) q2.
Proof. apply fold_left_app. Qed.

(** The subtree of a task, stored where the task points, is the node
    [processTask] leaves there with the pushed tasks run on it. *)
Lemma run_task_unfold (root n : Node D) (task : SplitTask) :
  SingleTreeTrainer.node_at (task_node task) root = Some n ->
  run_task this data rowLength labels root task
  = run_tasks this data rowLength labels
      (SingleTreeTrainer.store_at (task_node task)
         (fst (SingleTreeTrainer.processNode this data rowLength labels n
                 (task_indices task) (task_depth task))) root)
      (map (child_task (task_node task) (task_depth task))
           (snd (SingleTreeTrainer.processNode this data rowLength labels n
                   (task_indices task) (task_depth task)))).
Proof.
  intros Hn. unfold run_task. rewrite Hn.
  destruct task as [p idx d]. cbn [task_node task_indices task_depth] in *.
  unfold task_tree.
  destruct (processNode_pushed n idx d) as (l & r & Hpushed & Hdepth).
  assert (Hkids : forall fuel' pushed m,
             fuel' = Z.to_nat (maxDepth_ this - (d + 1)) ->
             SingleTreeTrainer.store_at p
               (fold_left (fun n '(b, idx) =>
                   match SingleTreeTrainer.node_at [b] n with
                   | Some c =>
                       SingleTreeTrainer.store_at [b]
                         (grow_by_tasks this data rowLength labels fuel' c idx (d + 1)) n
                   | None => n
                   end) pushed m) root
             = run_tasks this data rowLength labels (SingleTreeTrainer.store_at p m root)
                         (map (child_task p d) pushed)).
  { intros fuel' pushed. induction pushed as [|[b idx'] pushed IH]; intros m Hfuel;
      [reflexivity|].
    cbn [fold_left map]. rewrite run_tasks_cons. rewrite (IH _ Hfuel). f_equal.
    unfold run_task, child_task. cbn [task_node task_indices task_depth].
    rewrite (node_at_store_app p [b] m root Hn).
    destruct (SingleTreeTrainer.node_at [b] m) as [c|]; [|reflexivity].
    rewrite (store_at_app p [b] m _ root Hn).
    unfold task_tree. now rewrite Hfuel. }
  destruct (Z.to_nat (maxDepth_ this - d)) as [|fuel'] eqn:Hfuel;
    cbn [grow_by_tasks];
    destruct (SingleTreeTrainer.processNode this data rowLength labels n idx d)
      as [node' pushed]; cbn [fst snd] in *.
  - destruct pushed as [|x pushed]; [reflexivity|].
    assert (Hd : (maxDepth_ this <=? d)%Z = false)
      by (apply Hdepth; rewrite <- Hpushed; discriminate).
    apply Z.leb_gt in Hd. lia.
  - destruct pushed as [|x pushed]; [reflexivity|].
    apply Hkids. lia.
Qed.

Lemma run_task_comm (root : Node D) (t1 t2 : SplitTask) :
  diverge (task_node t1) (task_node t2) ->
  run_task this data rowLength labels (run_task this data rowLength labels root t1) t2
  = run_task this data rowLength labels (run_task this data rowLength labels root t2) t1.
Proof.
  intros Hd. pose proof (diverge_sym _ _ Hd) as Hd'.
  unfold run_task.
  destruct (SingleTreeTrainer.node_at (task_node t1) root) as [n1|] eqn:E1;
    destruct (SingleTreeTrainer.node_at (task_node t2) root) as [n2|] eqn:E2;
    rewrite ?(node_at_store_diverge _ _ _ Hd), ?(node_at_store_diverge _ _ _ Hd'),
            ?E1, ?E2; try reflexivity.
  symmetry. now apply store_at_comm.
Qed.

Lemma run_tasks_task_comm (t : SplitTask) (q : list SplitTask) :
  Forall (fun t' => diverge (task_node t) (task_node t')) q ->
  forall root,
    run_tasks this data rowLength labels (run_task this data rowLength labels root t) q
    = run_task this data rowLength labels (run_tasks this data rowLength labels root q) t.
Proof.
  induction q as [|t' q IH]; intros Hq root; [reflexivity|].
  inversion Hq as [|? ? Ht' Hq']; subst.
  rewrite !run_tasks_cons.
  rewrite (run_task_comm root t t' Ht'). now apply IH.
Qed.

Lemma run_tasks_comm (q1 q2 : list SplitTask) :
  Forall (fun t => Forall (fun t' => diverge (task_node t) (task_node t')) q2) q1 ->
  forall root,
    run_tasks this data rowLength labels (run_tasks this data rowLength labels root q1) q2
    = run_tasks this data rowLength labels (run_tasks this data rowLength labels root q2) q1.
Proof.
  induction q1 as [|t q1 IH]; intros Hq root; [reflexivity|].
  inversion Hq as [|? ? Ht Hq1]; subst.
  rewrite !run_tasks_cons.
  rewrite (IH Hq1). now rewrite run_tasks_task_comm.
Qed.

Lemma antichain_app (q1 q2 : list SplitTask) :
  antichain q1 -> antichain q2 ->
  Forall (fun t => Forall (fun t' => diverge (task_node t) (task_node t')) q2) q1 ->
  antichain (q1 ++ q2).
Proof.
  induction q1 as [|t q1 IH]; intros H1 H2 Hc; [exact H2|].
  cbn [app antichain] in *. destruct H1 as [Ht H1].
  inversion Hc as [|? ? Hc1 Hc2]; subst.
  split; [apply Forall_app; now split|now apply IH].
Qed.

(** The tasks pushed for a node point to its two children. *)
Lemma pushed_antichain (path : NodePtr) (depth : Z) (left right : list nat) :
  antichain (map (child_task path depth) (child_tasks left right)).
Proof.
  unfold child_tasks.
  destruct left as [|l0 left], right as [|r0 right]; cbn; repeat split; auto.
  constructor; [apply diverge_siblings|constructor].
Qed.

Lemma pushed_diverge (t : SplitTask) (path : NodePtr) (depth : Z)
      (pushed : list (Branch * list nat)) :
  diverge (task_node t) path ->
  Forall (fun t' => diverge (task_node t) (task_node t'))
         (map (child_task path depth) pushed).
Proof.
  intros Hd. apply Forall_forall. intros t' Ht'.
  apply in_map_iff in Ht'. destruct Ht' as ([b idx] & <- & _).
  cbn [child_task task_node]. now apply diverge_app_r.
Qed.

(** The worker loop, given fuel for the potential of the queue, leaves
    the tree in which every queued task has been run to the end. *)
Lemma workers_run_tasks (fuel : nat) :
  forall (root : Node D) (taskQueue : list SplitTask),
    antichain taskQueue ->
    queue_potential this taskQueue <= fuel ->
    SingleTreeTrainer.workers this data rowLength labels fuel root taskQueue
    = (run_tasks this data rowLength labels root taskQueue, []).
Proof.
  induction fuel as [|fuel IH]; intros root taskQueue Ha Hq.
  - destruct taskQueue as [|task rest]; [reflexivity|].
    rewrite queue_potential_cons in Hq. unfold task_potential in Hq. lia.
  - destruct taskQueue as [|task rest]; [reflexivity|].
    cbn [SingleTreeTrainer.workers].
    pose proof (processTask_potential this data rowLength labels root task rest) as Hlt.
    cbn [antichain] in Ha. destruct Ha as [Hhead Hrest].
    rewrite run_tasks_cons.
    unfold SingleTreeTrainer.processTask in *.
    destruct (SingleTreeTrainer.node_at (task_node task) root) as [n|] eqn:Hn.
    + rewrite (run_task_unfold root task Hn).
      destruct (processNode_pushed n (task_indices task) (task_depth task))
        as (l & r & Hpushed & _).
      destruct (SingleTreeTrainer.processNode this data rowLength labels n
                  (task_indices task) (task_depth task)) as [node' pushed].
      cbn [fst snd] in *.
      change (map (fun '(b, idx) => mkTask (task_node task ++ [b]) idx (task_depth task + 1))
                  pushed)
        with (map (child_task (task_node task) (task_depth task)) pushed) in *.
      assert (Hcross : Forall (fun t => Forall (fun t' => diverge (task_node t) (task_node t'))
                                               (map (child_task (task_node task)
                                                                (task_depth task)) pushed))
                              rest).
      { apply Forall_forall. intros t Ht. apply pushed_diverge.
        apply diverge_sym. rewrite Forall_forall in Hhead. now apply Hhead. }
      rewrite IH.
      * rewrite run_tasks_app. now rewrite (run_tasks_comm Hcross).
      * apply antichain_app; [exact Hrest| |exact Hcross].
        rewrite Hpushed. apply pushed_antichain.
      * lia.
    + unfold run_task. rewrite Hn. cbn [snd] in Hlt. apply IH; [exact Hrest|lia].
Qed.

(** [buildTreeWithTaskQueue] builds the subtree of the root task. *)
Lemma buildTreeWithTaskQueue_task_tree (root : Node D) (rootIndices : list nat) :
  SingleTreeTrainer.buildTreeWithTaskQueue this data rowLength labels root rootIndices
  = task_tree this data rowLength labels root rootIndices 0.
Proof.
  unfold SingleTreeTrainer.buildTreeWithTaskQueue.
  rewrite workers_run_tasks.
  - reflexivity.
  - cbn. auto.
  - rewrite queue_potential_cons. unfold task_potential, queue_potential.
    cbn [task_indices task_depth map list_sum fold_right]. lia.
Qed.

End QueueIsRecursion.

Section TaskTree.
Context {D : Type} {HD : Double D}.
Variable this : SingleTreeTrainer D.
Variables (data : list D) (rowLength : Z) (labels : list D).

(** The two shapes of the subtree of a task, with the proposal of the
    finder behind the split. *)
Lemma task_tree_split (node : Node D) (indices : list nat) (depth : Z) :
  let n := task_tree this data rowLength labels node indices depth in
  (isLeaf n = true
   /\ n = fst (SingleTreeTrainer.processNode this data rowLength labels node indices depth)
   /\ (indices <> [] ->
       samples n = length indices /\ getPrediction n = mean labels indices))
  \/ (exists node0 f t,
         let left := fst (SingleTreeTrainer.split_indices data rowLength f t indices) in
         let right := snd (SingleTreeTrainer.split_indices data rowLength f t indices) in
         ((maxDepth_ this <=? depth)%Z = false
          /\ SingleTreeTrainer.too_small this (length left) = false
          /\ SingleTreeTrainer.too_small this (length right) = false
          /\ samples node0 = length indices
          /\ n = set_children (makeInternal node0 f t)
                              (Some (queue_child this data rowLength labels left depth))
                              (Some (queue_child this data rowLength labels right depth)))
         /\ metric node0 = nodeMetric (criterion_ this) labels indices
         /\ exists g,
             findBestSplit (finder_ this) data rowLength labels indices
                           (nodeMetric (criterion_ this) labels indices) (criterion_ this)
             = (f, t, g)
             /\ (f <? 0)%Z = false /\ (g <=? zero)%dbl = false).
Proof.
  intros n. subst n. unfold task_tree.
  assert (Hleaf : forall fuel node' ,
             grow_by_tasks this data rowLength labels fuel node indices depth = node' ->
             snd (SingleTreeTrainer.processNode this data rowLength labels node indices depth)
             = [] ->
             node' = fst (SingleTreeTrainer.processNode this data rowLength labels
                                                        node indices depth)).
  { intros fuel node' <- Hs. destruct fuel; cbn [grow_by_tasks];
      destruct (SingleTreeTrainer.processNode this data rowLength labels node indices depth)
        as [n' pushed]; cbn [fst snd] in *; subst pushed; reflexivity. }
  remember (Z.to_nat (maxDepth_ this - depth)) as fuel eqn:Hfuel.
  pose proof (Hleaf fuel _ eq_refl) as Hl. clear Hleaf.
  unfold SingleTreeTrainer.processNode in Hl |- *.
  destruct indices as [|i0 rest].
  { left. rewrite (Hl eq_refl). cbn. split; [reflexivity|]. split; [reflexivity|].
    intros []. reflexivity. }
  cbv zeta in Hl |- *.
  destruct (SingleTreeTrainer.stop_before_split this (i0 :: rest) depth) eqn:Hstop.
  { left. rewrite (Hl eq_refl). cbn. repeat split; reflexivity. }
  destruct (findBestSplit (finder_ this) data rowLength labels (i0 :: rest) _ _)
    as [[f t] g] eqn:Hfind.
  destruct ((f <? 0)%Z || (g <=? zero)%dbl) eqn:Hfg.
  { left. rewrite (Hl eq_refl). cbn. repeat split; reflexivity. }
  destruct (SingleTreeTrainer.below_minGain this g) eqn:Hmin.
  { left. rewrite (Hl eq_refl). cbn. repeat split; reflexivity. }
  destruct (SingleTreeTrainer.split_indices data rowLength f t (i0 :: rest))
    as [l r] eqn:Hsp.
  destruct (SingleTreeTrainer.too_small this (length l)
            || SingleTreeTrainer.too_small this (length r)) eqn:Hsmall.
  { left. rewrite (Hl eq_refl). cbn. repeat split; reflexivity. }
  clear Hl. right.
  exists (set_samples (set_metric node (nodeMetric (criterion_ this) labels (i0 :: rest)))
                      (length (i0 :: rest))), f, t.
  rewrite Hsp. cbn [fst snd]. cbv zeta.
  apply orb_false_iff in Hsmall. destruct Hsmall as [Hsl Hsr].
  pose proof Hstop as Hstop'.
  unfold SingleTreeTrainer.stop_before_split in Hstop.
  apply orb_false_iff in Hstop. destruct Hstop as [Hstop _].
  apply orb_false_iff in Hstop. destruct Hstop as [Hdepth _].
  split; [|split; [reflexivity|]].
  - split; [exact Hdepth|]. split; [exact Hsl|]. split; [exact Hsr|].
    split; [reflexivity|].
    pose proof (fuel_step _ _ Hdepth) as Hstep. rewrite <- Hfuel in Hstep.
    rewrite Hstep. cbn [grow_by_tasks]. unfold SingleTreeTrainer.processNode. cbv zeta.
    rewrite Hstop', Hfind, Hfg, Hmin, Hsp. rewrite Hsl, Hsr. cbn [orb].
    unfold queue_child, task_tree.
    destruct l as [|l0 l], r as [|r0 r]; reflexivity.
  - exists g. apply orb_false_iff in Hfg. destruct Hfg as [Hf Hg].
    split; [reflexivity|]. split; [exact Hf|exact Hg].
Qed.

(** The two shapes of the subtree of a task. *)
Lemma task_tree_cases (node : Node D) (indices : list nat) (depth : Z) :
  let n := task_tree this data rowLength labels node indices depth in
  (isLeaf n = true
   /\ n = fst (SingleTreeTrainer.processNode this data rowLength labels node indices depth)
   /\ (indices <> [] ->
       samples n = length indices /\ getPrediction n = mean labels indices))
  \/ (exists node0 f t,
         let left := fst (SingleTreeTrainer.split_indices data rowLength f t indices) in
         let right := snd (SingleTreeTrainer.split_indices data rowLength f t indices) in
         (maxDepth_ this <=? depth)%Z = false
         /\ SingleTreeTrainer.too_small this (length left) = false
         /\ SingleTreeTrainer.too_small this (length right) = false
         /\ samples node0 = length indices
         /\ n = set_children (makeInternal node0 f t)
                             (Some (queue_child this data rowLength labels left depth))
                             (Some (queue_child this data rowLength labels right depth))).
Proof.
  destruct (task_tree_split node indices depth) as [Hleaf|(node0 & f & t & Hsplit & _)].
  - left. exact Hleaf.
  - right. exists node0, f, t. exact Hsplit.
Qed.

(** The metric a task leaves at its node. *)
Lemma task_tree_metric (node : Node D) (indices : list nat) (depth : Z) :
  indices <> [] ->
  metric (task_tree this data rowLength labels node indices depth)
  = nodeMetric (criterion_ this) labels indices
  /\ samples (task_tree this data rowLength labels node indices depth) = length indices.
Proof.
  intros Hne.
  destruct (task_tree_split node indices depth)
    as [(_ & -> & _)|(node0 & f & t & (_ & _ & _ & Hs & ->) & Hm & _)].
  - unfold SingleTreeTrainer.processNode.
    destruct indices as [|i0 rest]; [congruence|]. cbv zeta.
    destruct (SingleTreeTrainer.stop_before_split this (i0 :: rest) depth);
      [split; reflexivity|].
    destruct (findBestSplit _ _ _ _ _ _ _) as [[f t] g].
    destruct (_ || _); [split; reflexivity|].
    destruct (SingleTreeTrainer.below_minGain this g); [split; reflexivity|].
    destruct (SingleTreeTrainer.split_indices _ _ _ _ _) as [l r].
    destruct (_ || _); split; reflexivity.
  - split; [exact Hm|exact Hs].
Qed.

End TaskTree.

Section TaskTreeProperties.
Context {D : Type} {HD : Double D}.
Variable this : SingleTreeTrainer D.
Variables (data : list D) (rowLength : Z) (labels : list D).

Lemma task_tree_height (k : nat) :
  forall (node : Node D) (indices : list nat) (depth : Z),
    k = Z.to_nat (maxDepth_ this - depth) ->
    (height (task_tree this data rowLength labels node indices depth)
     <= Z.max 0 (maxDepth_ this - depth))%Z.
Proof.
  induction k as [|k IH]; intros node indices depth Hk;
    destruct (task_tree_cases this data rowLength labels node indices depth)
      as [(Hl & _)|(node0 & f & t & Hd & _ & _ & _ & ->)].
  - destruct (task_tree _ _ _ _ _ _ _) as [b s m i l r]. cbn in *. subst b. lia.
  - apply Z.leb_gt in Hd. lia.
  - destruct (task_tree _ _ _ _ _ _ _) as [b s m i l r]. cbn in *. subst b. lia.
  - apply Z.leb_gt in Hd.
    assert (Hk' : k = Z.to_nat (maxDepth_ this - (depth + 1))) by lia.
    assert (Hc : forall side,
               (height (queue_child this data rowLength labels side depth)
                <= Z.max 0 (maxDepth_ this - (depth + 1)))%Z).
    { intros [|i0 side]; [cbn; lia|]. now apply IH. }
    pose proof (Hc (fst (SingleTreeTrainer.split_indices data rowLength f t indices))).
    pose proof (Hc (snd (SingleTreeTrainer.split_indices data rowLength f t indices))).
    cbn [height set_children makeInternal isLeaf leftChild rightChild]. lia.
Qed.

Lemma too_small_empty :
  (- 2 ^ 31 <= minSamplesLeaf_ this < 2 ^ 31)%Z ->
  minSamplesLeaf_ this <> 0%Z ->
  forall side : list nat,
    SingleTreeTrainer.too_small this (length side) = false -> side <> [].
Proof.
  intros Hint Hnz side Hs ->. unfold SingleTreeTrainer.too_small, size_t_of_int in Hs.
  apply Z.ltb_ge in Hs. cbn [length] in Hs.
  pose proof (Z.mod_pos_bound (minSamplesLeaf_ this) (2 ^ 64) ltac:(lia)) as Hb.
  assert (Hm : (minSamplesLeaf_ this mod 2 ^ 64 = 0)%Z) by lia.
  destruct (Z_lt_le_dec (minSamplesLeaf_ this) 0) as [Hneg|Hpos].
  - assert (E : (minSamplesLeaf_ this mod 2 ^ 64 = minSamplesLeaf_ this + 2 ^ 64)%Z).
    { symmetry. apply (Z.mod_unique _ _ (-1)); lia. }
    lia.
  - rewrite Z.mod_small in Hm by lia. lia.
Qed.

Lemma task_tree_full (k : nat) :
  (- 2 ^ 31 <= minSamplesLeaf_ this < 2 ^ 31)%Z ->
  minSamplesLeaf_ this <> 0%Z ->
  forall (indices : list nat) (depth : Z),
    k = Z.to_nat (maxDepth_ this - depth) ->
    let n := task_tree this data rowLength labels newNode indices depth in
    full n /\ samples_add_up n /\ (indices <> [] -> samples n = length indices).
Proof.
  intros Hint Hnz.
  induction k as [|k IH]; intros indices depth Hk n; subst n;
    destruct (task_tree_cases this data rowLength labels newNode indices depth)
      as [(Hl & _ & Hs)|(node0 & f & t & Hd & Hsl & Hsr & Hs0 & ->)].
  - destruct (task_tree _ _ _ _ _ _ _) as [b s m i l r]. cbn in *. subst b.
    split; [exact I|]. split; [exact I|]. intros Hne. now apply Hs.
  - apply Z.leb_gt in Hd. lia.
  - destruct (task_tree _ _ _ _ _ _ _) as [b s m i l r]. cbn in *. subst b.
    split; [exact I|]. split; [exact I|]. intros Hne. now apply Hs.
  - apply Z.leb_gt in Hd.
    assert (Hk' : k = Z.to_nat (maxDepth_ this - (depth + 1))) by lia.
    pose proof (@too_small_empty Hint Hnz _ Hsl) as Hnl.
    pose proof (@too_small_empty Hint Hnz _ Hsr) as Hnr.
    pose proof (split_indices_length data rowLength f t indices) as Hlen.
    destruct (SingleTreeTrainer.split_indices data rowLength f t indices) as [l r].
    cbn [fst snd] in *.
    destruct (IH l (depth + 1)%Z Hk') as (Fl & Al & Sl).
    destruct (IH r (depth + 1)%Z Hk') as (Fr & Ar & Sr).
    specialize (Sl Hnl). specialize (Sr Hnr).
    unfold queue_child.
    destruct l as [|l0 l]; [congruence|]. destruct r as [|r0 r]; [congruence|].
    cbn [full samples_add_up set_children makeInternal isLeaf samples leftChild rightChild].
    split; [tauto|]. split; [|intros _; exact Hs0].
    split; [|tauto]. rewrite Sl, Sr, Hs0. lia.
Qed.

Context {HU : UnionLayout D}.

Lemma predict_from_task_tree (k : nat) :
  forall (node : Node D) (indices : list nat) (depth : Z) (i : nat),
    k = Z.to_nat (maxDepth_ this - depth) ->
    In i indices ->
    exists S,
      In i S /\ incl S indices
      /\ SingleTreeTrainer.predict_from data (Z.of_nat i * rowLength)
           (task_tree this data rowLength labels node indices depth)
         = mean labels S.
Proof.
  induction k as [|k IH]; intros node indices depth i Hk Hi;
    destruct (task_tree_cases this data rowLength labels node indices depth)
      as [(Hl & _ & Hs)|(node0 & f & t & Hd & _ & _ & _ & ->)].
  - exists indices. split; [exact Hi|]. split; [apply incl_refl|].
    assert (Hne : indices <> []) by (intros ->; destruct Hi).
    destruct (Hs Hne) as [_ <-].
    destruct (task_tree _ _ _ _ _ _ _) as [b s m inf l r]. cbn in *. now subst b.
  - apply Z.leb_gt in Hd. lia.
  - exists indices. split; [exact Hi|]. split; [apply incl_refl|].
    assert (Hne : indices <> []) by (intros ->; destruct Hi).
    destruct (Hs Hne) as [_ <-].
    destruct (task_tree _ _ _ _ _ _ _) as [b s m inf l r]. cbn in *. now subst b.
  - apply Z.leb_gt in Hd.
    assert (Hk' : k = Z.to_nat (maxDepth_ this - (depth + 1))) by lia.
    rewrite predict_from_internal.
    pose proof (split_indices_partitions data rowLength f t indices) as Hpart.
    destruct (@partitions_side _ _ _ _ i Hpart Hi) as (Il & Ir & Hside).
    cbv beta in Hside. unfold SingleTreeTrainer.goes_left.
    destruct (feature data rowLength i f <=? t)%dbl.
    + unfold queue_child.
      destruct (fst (SingleTreeTrainer.split_indices data rowLength f t indices))
        as [|l0 l] eqn:El; [destruct Hside|].
      destruct (IH newNode (l0 :: l) (depth + 1)%Z i Hk' Hside) as (S & HS & Hincl & Hp).
      exists S. split; [exact HS|]. split; [|exact Hp].
      intros x Hx. apply Il, Hincl, Hx.
    + unfold queue_child.
      destruct (snd (SingleTreeTrainer.split_indices data rowLength f t indices))
        as [|r0 r] eqn:Er; [destruct Hside|].
      destruct (IH newNode (r0 :: r) (depth + 1)%Z i Hk' Hside) as (S & HS & Hincl & Hp).
      exists S. split; [exact HS|]. split; [|exact Hp].
      intros x Hx. apply Ir, Hincl, Hx.
Qed.

End TaskTreeProperties.

(** X5.  What the trained tree predicts for a row of its own training
    matrix.  Trained with no post-pruning (the no-op or the min-gain
    pruner), on either path and for every number of threads, [predict]
    on training row [i] returns the mean of the targets of a set of
    training rows that contains [i]: the rows that reached the same
    leaf. *)
Theorem training_row_prediction (D : Type) (HD : Double D) (HU : UnionLayout D)
        (maxDepth minSamplesLeaf : Z) (finder : ISplitFinder D)
        (criterion : ISplitCriterion D) (minGain : option D)
        (data : list D) (rowLength : Z) (labels : list D) (numThreads : Z) (i : nat) :
  let pruner := match minGain with
                | Some g => MinGainPrePruner g
                | None => NoPruner
                end in
  let this := mkTrainer maxDepth minSamplesLeaf finder criterion pruner None in
  i < length labels ->
  exists t S,
    SingleTreeTrainer.train this data rowLength labels numThreads = Ok t
    /\ In i S
    /\ (forall j, In j S -> j < length labels)
    /\ SingleTreeTrainer.predict t data (Z.of_nat i * rowLength) = mean labels S.
Proof.
  intros pruner this Hi.
  assert (Hin : In i (seq 0 (length labels))) by (apply in_seq; lia).
  assert (Epr : forall r, prune (pruner_ this) r = Ok r)
    by (intros r; subst this pruner; destruct minGain; reflexivity).
  assert (Hboth : exists S,
             In i S /\ incl S (seq 0 (length labels))
             /\ SingleTreeTrainer.predict_from data (Z.of_nat i * rowLength)
                  (if (1000 <? length labels)%nat && (1 <? numThreads)%Z
                   then SingleTreeTrainer.buildTreeWithTaskQueue this data rowLength labels
                          newNode (seq 0 (length labels))
                   else SingleTreeTrainer.splitNodeOptimized this data rowLength labels
                          newNode (seq 0 (length labels)) 0)
                = mean labels S).
  { destruct ((1000 <? length labels)%nat && (1 <? numThreads)%Z).
    - rewrite buildTreeWithTaskQueue_task_tree.
      exact (@predict_from_task_tree D HD this data rowLength labels HU _ newNode
               (seq 0 (length labels)) 0%Z i eq_refl Hin).
    - exact (@predict_from_grown D HD HU this data rowLength labels _ newNode
               (seq 0 (length labels)) 0%Z i eq_refl Hin). }
  destruct Hboth as (S & HS & Hincl & Hp).
  unfold SingleTreeTrainer.train. cbv zeta.
  rewrite Epr. cbn [bind].
  eexists. exists S. split; [reflexivity|]. split; [exact HS|]. split.
  - intros j Hj. apply Hincl in Hj. apply in_seq in Hj. lia.
  - exact Hp.
Qed.

Lemma training_row_prediction_witness :
  let this := mkTrainer 800 2 ExhaustiveSplitFinder.make MSECriterion.make NoPruner None in
  let data := [1; 2; 3; 4]%float in
  let labels := [1; 1; 5; 5]%float in
  exists t S,
    SingleTreeTrainer.train this data 1 labels 4 = Ok t
    /\ In 2 S
    /\ (forall j, In j S -> j < length labels)
    /\ SingleTreeTrainer.predict t data (Z.of_nat 2 * 1) = mean labels S.
Proof.
  cbv zeta.
  apply (@training_row_prediction float _ _ 800 2 ExhaustiveSplitFinder.make
           MSECriterion.make None [1; 2; 3; 4]%float 1 [1; 1; 5; 5]%float 4 2).
  simpl. lia.
Defined.

(** X15.  The task queue builds a tree by recursion.  Served in FIFO
    order by one worker, the loop of [buildTreeWithTaskQueue] drains the
    queue within the budget of tasks, and the tree it leaves is the one
    a depth-first recursion over [processTask] describes: at each node,
    what [processTask] leaves there, with the child of every pushed
    task replaced by the subtree of that task. *)
Theorem task_queue_is_recursion (D : Type) (HD : Double D)
        (this : SingleTreeTrainer D) (data : list D) (rowLength : Z) (labels : list D)
        (root : Node D) (rootIndices : list nat) :
  SingleTreeTrainer.workers this data rowLength labels
    (S (SingleTreeTrainer.task_budget this rootIndices 0)) root [mkTask [] rootIndices 0]
  = (task_tree this data rowLength labels root rootIndices 0, [])
  /\ SingleTreeTrainer.buildTreeWithTaskQueue this data rowLength labels root rootIndices
     = task_tree this data rowLength labels root rootIndices 0.
Proof.
  split; [|apply buildTreeWithTaskQueue_task_tree].
  rewrite workers_run_tasks.
  - reflexivity.
  - cbn. auto.
  - rewrite queue_potential_cons. unfold task_potential, queue_potential.
    cbn [task_indices task_depth map list_sum fold_right]. lia.
Qed.

(** X16.  With a [minSamplesLeaf_] other than 0, the tree the task
    queue builds is as sound as the one the recursion builds: every
    node that is not a leaf has both its children and holds as many
    samples as the two together, the root holds one sample per index,
    the leaves hold them all, and no node lies deeper than
    [maxDepth_]. *)
Theorem task_queue_tree_is_sound (D : Type) (HD : Double D)
        (this : SingleTreeTrainer D) (data : list D) (rowLength : Z) (labels : list D)
        (rootIndices : list nat) :
  (- 2 ^ 31 <= minSamplesLeaf_ this < 2 ^ 31)%Z ->
  minSamplesLeaf_ this <> 0%Z ->
  rootIndices <> [] ->
  let n := SingleTreeTrainer.buildTreeWithTaskQueue this data rowLength labels
                                                    newNode rootIndices in
  full n
  /\ samples_add_up n
  /\ samples n = length rootIndices
  /\ leaf_samples n = length rootIndices
  /\ (fst (SingleTreeTrainer.calculateTreeStats (Some n) 0 (0, 0)%Z)
      <= Z.max 0 (maxDepth_ this))%Z.
Proof.
  intros Hint Hnz Hne n. subst n. rewrite buildTreeWithTaskQueue_task_tree.
  destruct (@task_tree_full D HD this data rowLength labels _ Hint Hnz rootIndices 0%Z eq_refl)
    as (Hf & Ha & Hs).
  pose proof (@task_tree_height D HD this data rowLength labels _ newNode rootIndices 0%Z
                eq_refl) as Hh.
  split; [exact Hf|]. split; [exact Ha|]. split; [exact (Hs Hne)|].
  split; [rewrite (leaf_samples_add_up _ Ha); exact (Hs Hne)|].
  cbn [SingleTreeTrainer.calculateTreeStats]. rewrite calculateTreeStats_node_spec.
  cbn [fst].
  pose proof (height_nonneg (task_tree this data rowLength labels newNode rootIndices 0)).
  lia.
Qed.

Lemma task_queue_tree_is_sound_witness :
  let this := default_trainer (D := float) ExhaustiveSplitFinder.make MSECriterion.make
                              NoPruner in
  let n := SingleTreeTrainer.buildTreeWithTaskQueue this [1; 2; 3; 4]%float 1
                                                    [1; 1; 5; 5]%float newNode [0; 1; 2; 3] in
  full n
  /\ samples_add_up n
  /\ samples n = length [0; 1; 2; 3]
  /\ leaf_samples n = length [0; 1; 2; 3]
  /\ (fst (SingleTreeTrainer.calculateTreeStats (Some n) 0 (0, 0)%Z)
      <= Z.max 0 (maxDepth_ this))%Z.
Proof.
  cbv zeta.
  apply (@task_queue_tree_is_sound float _
           (default_trainer ExhaustiveSplitFinder.make MSECriterion.make NoPruner)).
  - simpl. lia.
  - simpl. lia.
  - discriminate.
Defined.

Lemma train_full_tree {D : Type} {HD : Double D} {HU : UnionLayout D}
        (this : SingleTreeTrainer D) (data : list D) (rowLength : Z) (labels : list D)
        (numThreads : Z) :
  (- 2 ^ 31 <= minSamplesLeaf_ this < 2 ^ 31)%Z ->
  minSamplesLeaf_ this <> 0%Z ->
  exists t root,
    SingleTreeTrainer.train this data rowLength labels numThreads = Ok t
    /\ root_ t = Some root
    /\ full root
    /\ (fst (SingleTreeTrainer.tree_stats t) <= Z.max 0 (maxDepth_ this))%Z.
Proof.
  intros Hint Hnz. unfold SingleTreeTrainer.train. cbv zeta.
  assert (Hgrown : exists n,
             (if (1000 <? length labels)%nat && (1 <? numThreads)%Z
              then SingleTreeTrainer.buildTreeWithTaskQueue this data rowLength labels
                     newNode (seq 0 (length labels))
              else SingleTreeTrainer.splitNodeOptimized this data rowLength labels
                     newNode (seq 0 (length labels)) 0) = n
             /\ full n /\ (height n <= Z.max 0 (maxDepth_ this))%Z).
  { eexists. split; [reflexivity|].
    destruct ((1000 <? length labels)%nat && (1 <? numThreads)%Z).
    - rewrite buildTreeWithTaskQueue_task_tree. split.
      + apply (@task_tree_full D HD this data rowLength labels _ Hint Hnz
                 (seq 0 (length labels)) 0%Z eq_refl).
      + pose proof (@task_tree_height D HD this data rowLength labels _ newNode
                      (seq 0 (length labels)) 0%Z eq_refl) as Hh.
        lia.
    - split; [apply splitNodeOptimized_full|].
      pose proof (@splitNodeOptimized_rec_height D HD this data rowLength labels _ newNode
                    (seq 0 (length labels)) 0%Z eq_refl) as Hh.
      unfold SingleTreeTrainer.splitNodeOptimized. lia. }
  destruct Hgrown as (n & -> & Hf & Hh).
  destruct (prune_shrinks (pruner_ this) n Hf) as (n' & Hp & Hfull & Hheight & _).
  rewrite Hp. cbn [bind]. eexists. exists n'. split; [reflexivity|].
  split; [reflexivity|]. split; [exact Hfull|].
  unfold SingleTreeTrainer.tree_stats. cbn [root_ SingleTreeTrainer.calculateTreeStats].
  rewrite calculateTreeStats_node_spec. cbn [fst].
  pose proof (height_nonneg n'). lia.
Qed.




(** ** Around the trainer: the data split, the choice of the pruner *)

Lemma three_way_split {A : Type} (l : list A) (a b : nat) :
  a <= b ->
  firstn a l ++ firstn (b - a) (skipn a l) ++ skipn b l = l.
Proof.
  intros Hab. replace b with ((b - a) + a) at 2 by lia.
  rewrite <- skipn_skipn. now rewrite !firstn_skipn.
Qed.

Lemma size_t_mul_small (a b : Z) :
  (0 <= a)%Z -> (0 <= b)%Z -> (a * b < 2 ^ 64)%Z -> size_t_mul a b = (a * b)%Z.
Proof. intros Ha Hb Hab. unfold size_t_mul. apply Z.mod_small. nia. Qed.

Lemma size_t_add_small (a b : Z) :
  (0 <= a)%Z -> (0 <= b)%Z -> (a + b < 2 ^ 64)%Z -> size_t_add a b = (a + b)%Z.
Proof. intros Ha Hb Hab. unfold size_t_add. apply Z.mod_small. lia. Qed.

Lemma size_t_of_int_small (a : Z) :
  (0 <= a < 2 ^ 31)%Z -> size_t_of_int a = a.
Proof. intros Ha. unfold size_t_of_int. apply Z.mod_small. lia. Qed.

(** The three blocks of rows, for cuts within the data. *)
Lemma blocks_cover {A : Type} (X y : list A) (feat trainRows valRows : Z) :
  (0 <= feat)%Z -> (0 <= trainRows)%Z -> (0 <= valRows)%Z ->
  (trainRows + valRows <= Z.of_nat (length y))%Z ->
  Z.of_nat (length X) = (Z.of_nat (length y) * feat)%Z ->
  let cut1 := (trainRows * feat)%Z in
  let cut2 := ((trainRows + valRows) * feat)%Z in
  let X_train := assign_range X 0 cut1 in
  let y_train := assign_range y 0 trainRows in
  let X_val := assign_range X cut1 cut2 in
  let y_val := assign_range y trainRows (trainRows + valRows) in
  let X_test := assign_from X cut2 in
  let y_test := assign_from y (trainRows + valRows) in
  y_train ++ y_val ++ y_test = y
  /\ X_train ++ X_val ++ X_test = X
  /\ Z.of_nat (length y_train) = trainRows
  /\ Z.of_nat (length y_val) = valRows
  /\ Z.of_nat (length X_train) = (Z.of_nat (length y_train) * feat)%Z
  /\ Z.of_nat (length X_val) = (Z.of_nat (length y_val) * feat)%Z
  /\ Z.of_nat (length X_test) = (Z.of_nat (length y_test) * feat)%Z.
Proof.
  intros Hf Ht Hv Hsum HX. cbv zeta. unfold assign_range, assign_from.
  rewrite !Z.sub_0_r. change (Z.to_nat 0) with 0. rewrite !skipn_O.
  assert (E1 : Z.to_nat (trainRows + valRows - trainRows)
               = Z.to_nat (trainRows + valRows) - Z.to_nat trainRows) by lia.
  assert (E2 : Z.to_nat ((trainRows + valRows) * feat - trainRows * feat)
               = Z.to_nat ((trainRows + valRows) * feat) - Z.to_nat (trainRows * feat))
    by nia.
  rewrite E1, E2.
  assert (Hc1 : (0 <= trainRows * feat <= (trainRows + valRows) * feat)%Z) by nia.
  assert (Hc2 : ((trainRows + valRows) * feat <= Z.of_nat (length X))%Z) by nia.
  split; [apply three_way_split; lia|].
  split; [apply three_way_split; lia|].
  rewrite !length_firstn, !length_skipn.
  repeat split; nia.
Qed.

(** X18.  The split of the application hands out consecutive blocks of
    rows that cover the data, the features of a row in step with its
    target.  When the row counts computed from the ratios stay within
    the data (the iterators of the source then stay in range), the
    training, validation and test targets are the targets in their
    order, the three feature blocks are the feature matrix in its
    order, and every block of the matrix holds [rowLength - 1] values
    for each target of its block. *)
Theorem validation_split_covers_rows (D : Type) (HD : Double D) (HS : SplitLiterals D)
        (X y : list D) (rowLength : Z) (valSplit : D) :
  let feat := (rowLength - 1)%Z in
  let withVal := (valSplit >? zero)%dbl in
  let trainRows :=
    to_size_t (of_size (length y) * (if withVal then d0_7 else d0_8))%dbl in
  let valRows :=
    if withVal then to_size_t (of_size (length y) * valSplit)%dbl else 0%Z in
  let dp := SingleTreeApp.splitDatasetWithValidation X y rowLength valSplit in
  (1 <= rowLength < 2 ^ 31)%Z ->
  (0 <= trainRows)%Z -> (0 <= valRows)%Z ->
  (trainRows + valRows <= Z.of_nat (length y))%Z ->
  Z.of_nat (length X) = (Z.of_nat (length y) * feat)%Z ->
  (Z.of_nat (length X) < 2 ^ 64)%Z -> (Z.of_nat (length y) < 2 ^ 64)%Z ->
  SingleTreeApp.rowLength dp = feat
  /\ SingleTreeApp.y_train dp ++ SingleTreeApp.y_val dp ++ SingleTreeApp.y_test dp = y
  /\ SingleTreeApp.X_train dp ++ SingleTreeApp.X_val dp ++ SingleTreeApp.X_test dp = X
  /\ Z.of_nat (length (SingleTreeApp.y_train dp)) = trainRows
  /\ Z.of_nat (length (SingleTreeApp.y_val dp)) = valRows
  /\ Z.of_nat (length (SingleTreeApp.X_train dp))
     = (Z.of_nat (length (SingleTreeApp.y_train dp)) * feat)%Z
  /\ Z.of_nat (length (SingleTreeApp.X_val dp))
     = (Z.of_nat (length (SingleTreeApp.y_val dp)) * feat)%Z
  /\ Z.of_nat (length (SingleTreeApp.X_test dp))
     = (Z.of_nat (length (SingleTreeApp.y_test dp)) * feat)%Z.
Proof.
  intros feat withVal trainRows valRows dp Hrl Ht Hv Hsum HX HXs Hys.
  subst dp. unfold SingleTreeApp.splitDatasetWithValidation. cbv zeta.
  fold feat. fold withVal.
  assert (Hfeat : (0 <= feat < 2 ^ 31)%Z) by (subst feat; lia).
  rewrite (size_t_of_int_small Hfeat).
  destruct withVal eqn:Hw; cbn [SingleTreeApp.rowLength SingleTreeApp.y_train
    SingleTreeApp.y_val SingleTreeApp.y_test SingleTreeApp.X_train SingleTreeApp.X_val
    SingleTreeApp.X_test].
  - fold trainRows. fold valRows.
    rewrite (size_t_add_small Ht Hv) by lia.
    rewrite (size_t_mul_small Ht) by nia.
    rewrite (size_t_mul_small (a := trainRows + valRows)) by nia.
    split; [reflexivity|].
    apply (blocks_cover X y); lia.
  - fold trainRows. subst valRows.
    rewrite (size_t_mul_small Ht) by nia.
    split; [reflexivity|].
    pose proof (@blocks_cover D X y feat trainRows 0 ltac:(lia) Ht ltac:(lia) Hsum HX) as Hb.
    cbv zeta in Hb. rewrite !Z.add_0_r in Hb.
    assert (Ee : forall (l : list D) (a : Z), assign_range l a a = [])
      by (intros l a; unfold assign_range; now rewrite Z.sub_diag).
    rewrite !Ee in Hb. cbn [app length] in Hb |- *. exact Hb.
Qed.

Lemma validation_split_covers_rows_witness :
  let X := [1; 2; 3; 4; 5; 6; 7; 8; 9; 10]%float in
  let y := [10; 20; 30; 40; 50; 60; 70; 80; 90; 100]%float in
  let dp := SingleTreeApp.splitDatasetWithValidation X y 2 0x1.999999999999ap-3%float in
  SingleTreeApp.rowLength dp = 1%Z
  /\ SingleTreeApp.y_train dp ++ SingleTreeApp.y_val dp ++ SingleTreeApp.y_test dp = y
  /\ SingleTreeApp.X_train dp ++ SingleTreeApp.X_val dp ++ SingleTreeApp.X_test dp = X
  /\ Z.of_nat (length (SingleTreeApp.y_train dp)) = 7%Z
  /\ Z.of_nat (length (SingleTreeApp.y_val dp)) = 2%Z
  /\ Z.of_nat (length (SingleTreeApp.X_train dp))
     = (Z.of_nat (length (SingleTreeApp.y_train dp)) * 1)%Z
  /\ Z.of_nat (length (SingleTreeApp.X_val dp))
     = (Z.of_nat (length (SingleTreeApp.y_val dp)) * 1)%Z
  /\ Z.of_nat (length (SingleTreeApp.X_test dp))
     = (Z.of_nat (length (SingleTreeApp.y_test dp)) * 1)%Z.
Proof.
  cbv zeta.
  pose proof (@validation_split_covers_rows float _ _
                [1; 2; 3; 4; 5; 6; 7; 8; 9; 10]%float
                [10; 20; 30; 40; 50; 60; 70; 80; 90; 100]%float 2
                0x1.999999999999ap-3%float) as H.
  cbv zeta in H. vm_compute in H. vm_compute.
  apply H; intuition discriminate.
Defined.

(** X24.  The two-way split of the bagging application, under the same
    condition: the first [trainRows] targets with their rows of
    [rowLength - 1] features are the training set, the rest is the test
    set, and nothing is lost or reordered. *)
Theorem two_way_split_covers_rows (D : Type) (HD : Double D) (HS : SplitLiterals D)
        (X y : list D) (rowLength : Z) :
  let feat := (rowLength - 1)%Z in
  let trainRows := to_size_t (of_size (length y) * d0_8)%dbl in
  let dp := DataSplit.splitDataset X y rowLength in
  (1 <= rowLength < 2 ^ 31)%Z ->
  (0 <= trainRows <= Z.of_nat (length y))%Z ->
  Z.of_nat (length X) = (Z.of_nat (length y) * feat)%Z ->
  (Z.of_nat (length X) < 2 ^ 64)%Z ->
  DataSplit.rowLength dp = feat
  /\ DataSplit.y_train dp ++ DataSplit.y_test dp = y
  /\ DataSplit.X_train dp ++ DataSplit.X_test dp = X
  /\ Z.of_nat (length (DataSplit.y_train dp)) = trainRows
  /\ Z.of_nat (length (DataSplit.X_train dp))
     = (Z.of_nat (length (DataSplit.y_train dp)) * feat)%Z
  /\ Z.of_nat (length (DataSplit.X_test dp))
     = (Z.of_nat (length (DataSplit.y_test dp)) * feat)%Z.
Proof.
  intros feat trainRows dp Hrl [Ht Hsum] HX HXs.
  subst dp. unfold DataSplit.splitDataset. cbv zeta. fold feat. fold trainRows.
  assert (Hfeat : (0 <= feat < 2 ^ 31)%Z) by (subst feat; lia).
  rewrite (size_t_of_int_small Hfeat).
  rewrite (size_t_mul_small Ht) by nia.
  cbn [DataSplit.rowLength DataSplit.y_train DataSplit.y_test DataSplit.X_train
       DataSplit.X_test].
  split; [reflexivity|].
  pose proof (@blocks_cover D X y feat trainRows 0 ltac:(lia) Ht ltac:(lia) ltac:(lia) HX)
    as Hb.
  cbv zeta in Hb. rewrite !Z.add_0_r in Hb.
  assert (Ee : forall (l : list D) (a : Z), assign_range l a a = [])
    by (intros l a; unfold assign_range; now rewrite Z.sub_diag).
  rewrite !Ee in Hb. cbn [app length] in Hb.
  tauto.
Qed.

Lemma two_way_split_covers_rows_witness :
  let X := [1; 2; 3; 4; 5; 6; 7; 8; 9; 10]%float in
  let y := [10; 20; 30; 40; 50]%float in
  let dp := DataSplit.splitDataset X y 3 in
  DataSplit.rowLength dp = (3 - 1)%Z
  /\ DataSplit.y_train dp ++ DataSplit.y_test dp = y
  /\ DataSplit.X_train dp ++ DataSplit.X_test dp = X
  /\ Z.of_nat (length (DataSplit.y_train dp))
     = to_size_t (of_size (D := float) (length y) * d0_8)%dbl
  /\ Z.of_nat (length (DataSplit.X_train dp))
     = (Z.of_nat (length (DataSplit.y_train dp)) * (3 - 1))%Z
  /\ Z.of_nat (length (DataSplit.X_test dp))
     = (Z.of_nat (length (DataSplit.y_test dp)) * (3 - 1))%Z.
Proof.
  cbv zeta.
  apply (@two_way_split_covers_rows float Double_float SplitLiterals_float
           [1; 2; 3; 4; 5; 6; 7; 8; 9; 10]%float [10; 20; 30; 40; 50]%float 3).
  - lia.
  - vm_compute. split; discriminate.
  - reflexivity.
  - vm_compute. reflexivity.
Defined.

Lemma reduced_error_never_bagged {D : Type} {HD : Double D} {HU : UnionLayout D}
      (bagging : BaggingTrainer.BaggingTrainer D) (rowLength : Z) :
  match BaggingTrainer.createPruner bagging [] rowLength [] with
  | ReducedErrorPruner _ _ _ => False
  | _ => True
  end.
Proof.
  unfold BaggingTrainer.createPruner.
  destruct (String.eqb _ "mingain"%string); [exact I|].
  destruct (String.eqb _ "cost_complexity"%string); [exact I|].
  destruct (String.eqb _ "reduced_error"%string); exact I.
Qed.


(** X19.  Which pruner the application builds.  [createPruner] returns
    a reduced-error pruner only for the type [reduced_error] and only
    with validation features and targets that are both non-empty, so
    that [validate] never divides by an empty count; for that type with
    an empty validation array, and for every unknown type, it returns
    the no-op pruner.  [BaggingTrainer::train] calls its own
    [createPruner] with two empty arrays: a bagged tree is never pruned
    by reduced error. *)
Theorem reduced_error_needs_validation_data (D : Type) (HD : Double D) (HU : UnionLayout D)
        (type : String.string) (param : D) (X_val : list D) (rowLength : Z)
        (y_val : list D) (bagging : BaggingTrainer.BaggingTrainer D) :
  match SingleTreeApp.createPruner type param X_val rowLength y_val with
  | ReducedErrorPruner Xv_ D_ yv_ =>
      type = "reduced_error"%string
      /\ Xv_ = X_val /\ D_ = rowLength /\ yv_ = y_val
      /\ X_val <> [] /\ y_val <> []
  | MinGainPrePruner minGain_ => type = "mingain"%string /\ minGain_ = param
  | CostComplexityPruner alpha_ => type = "cost_complexity"%string /\ alpha_ = param
  | NoPruner =>
      type <> "mingain"%string /\ type <> "cost_complexity"%string
      /\ (type = "reduced_error"%string -> X_val = [] \/ y_val = [])
  end
  /\ match BaggingTrainer.createPruner bagging [] rowLength [] with
     | ReducedErrorPruner _ _ _ => False
     | _ => True
     end.
Proof.
  split.
  - unfold SingleTreeApp.createPruner.
    destruct (String.eqb type "mingain"%string) eqn:E1;
      [apply String.eqb_eq in E1; now split|].
    destruct (String.eqb type "cost_complexity"%string) eqn:E2;
      [apply String.eqb_eq in E2; now split|].
    apply String.eqb_neq in E1. apply String.eqb_neq in E2.
    destruct (String.eqb type "reduced_error"%string) eqn:E3.
    + apply String.eqb_eq in E3.
      destruct X_val as [|x X_val]; [split; [exact E1|split; [exact E2|now left]]|].
      destruct y_val as [|y y_val]; [split; [exact E1|split; [exact E2|now right]]|].
      repeat split; try assumption; discriminate.
    + apply String.eqb_neq in E3. split; [exact E1|]. split; [exact E2|]. tauto.
  - apply reduced_error_never_bagged.
Qed.

(** ** BaggingTrainer *)

Lemma nth_flat_map_rows {A B : Type} (g : A -> list B) (m : nat) (d : B) (a0 : A) :
  (forall x, length (g x) = m) ->
  forall (l : list A) (k j : nat),
    k < length l -> j < m ->
    nth (k * m + j) (flat_map g l) d = nth j (g (nth k l a0)) d.
Proof.
  intros Hg. induction l as [|a l IH]; intros k j Hk Hj; [cbn in Hk; lia|].
  cbn [flat_map]. destruct k as [|k].
  - cbn [Nat.mul Nat.add nth]. apply app_nth1. now rewrite Hg.
  - cbn [nth length] in *. rewrite app_nth2 by (rewrite Hg; lia).
    rewrite Hg. replace (S k * m + j - m) with (k * m + j) by lia.
    apply IH; lia.
Qed.

Lemma length_flat_map_rows {A B : Type} (g : A -> list B) (m : nat) :
  (forall x, length (g x) = m) ->
  forall l : list A, length (flat_map g l) = length l * m.
Proof.
  intros Hg. induction l as [|a l IH]; [reflexivity|].
  cbn [flat_map length]. rewrite length_app, Hg, IH. lia.
Qed.

(** X20.  The rows of a bootstrap sample keep their targets.
    [extractSubsetOptimized] lays out one row of [rowLength] features
    for each drawn index, in the order of the draws: feature [f] of row
    [k] of the sample is feature [f] of the [k]-th drawn row of the
    data, and target [k] of the sample is the target of that row. *)
Theorem bootstrap_rows_keep_their_targets (D : Type) (HD : Double D)
        (originalData : list D) (rowLength : Z) (originalLabels : list D)
        (indices : list nat) (k : nat) (f : Z) :
  k < length indices ->
  (0 <= f < rowLength)%Z ->
  let subData :=
    fst (BaggingTrainer.extractSubsetOptimized originalData rowLength originalLabels
                                               indices) in
  let subLabels :=
    snd (BaggingTrainer.extractSubsetOptimized originalData rowLength originalLabels
                                               indices) in
  feature subData rowLength k f = feature originalData rowLength (nth k indices 0) f
  /\ at_nat subLabels k = at_nat originalLabels (nth k indices 0)
  /\ Z.of_nat (length subData) = (Z.of_nat (length indices) * rowLength)%Z
  /\ length subLabels = length indices.
Proof.
  intros Hk Hf subData subLabels. subst subData subLabels.
  unfold BaggingTrainer.extractSubsetOptimized. cbn [fst snd].
  set (m := Z.to_nat rowLength).
  set (g := fun idx : nat =>
              map (fun j : nat => at_Z originalData (Z.of_nat idx * rowLength + Z.of_nat j))
                  (seq 0 m)).
  assert (Hg : forall x, length (g x) = m)
    by (intros x; unfold g; now rewrite length_map, length_seq).
  split; [|split; [|split]].
  - unfold feature at 1. unfold at_Z at 1.
    destruct (_ <? 0)%Z eqn:Hneg; [apply Z.ltb_lt in Hneg; nia|].
    replace (Z.to_nat (Z.of_nat k * rowLength + f)) with (k * m + Z.to_nat f)
      by (subst m; nia).
    rewrite (nth_flat_map_rows g zero 0 Hg indices Hk) by (subst m; lia).
    unfold g.
    rewrite (nth_indep _ zero
               (at_Z originalData (Z.of_nat (nth k indices 0) * rowLength + Z.of_nat 0)))
      by (rewrite length_map, length_seq; subst m; lia).
    rewrite (map_nth (fun j : nat => at_Z originalData
                                      (Z.of_nat (nth k indices 0) * rowLength + Z.of_nat j))
                     (seq 0 m) 0).
    rewrite seq_nth by (subst m; lia).
    unfold feature. f_equal. lia.
  - unfold at_nat at 1.
    rewrite (nth_indep _ zero (at_nat originalLabels 0)) by now rewrite length_map.
    now rewrite (map_nth (fun idx => at_nat originalLabels idx) indices 0).
  - rewrite (length_flat_map_rows g Hg). subst m. nia.
  - apply length_map.
Qed.

Lemma bootstrap_rows_keep_their_targets_witness :
  let data := [1; 2; 3; 4; 5; 6]%float in
  let labels := [10; 20; 30]%float in
  let subData := fst (BaggingTrainer.extractSubsetOptimized data 2 labels [2; 0; 2]) in
  let subLabels := snd (BaggingTrainer.extractSubsetOptimized data 2 labels [2; 0; 2]) in
  feature subData 2 1 1 = feature data 2 (nth 1 [2; 0; 2] 0) 1
  /\ at_nat subLabels 1 = at_nat labels (nth 1 [2; 0; 2] 0)
  /\ Z.of_nat (length subData) = (Z.of_nat (length [2; 0; 2]) * 2)%Z
  /\ length subLabels = length [2; 0; 2].
Proof.
  cbv zeta.
  apply (@bootstrap_rows_keep_their_targets float _ [1; 2; 3; 4; 5; 6]%float 2
           [10; 20; 30]%float [2; 0; 2] 1 1).
  - simpl. lia.
  - lia.
Defined.

Lemma int_of_size_t_small (n : Z) :
  (- 2 ^ 31 <= n < 2 ^ 31)%Z -> int_of_size_t n = n.
Proof.
  intros Hn. unfold int_of_size_t. cbv zeta.
  destruct (Z_lt_le_dec n 0) as [Hneg|Hpos].
  - assert (E : (n mod 2 ^ 32 = n + 2 ^ 32)%Z)
      by (symmetry; apply (Z.mod_unique _ _ (-1)); lia).
    rewrite E. destruct (_ <? _)%Z eqn:Hc; [apply Z.ltb_lt in Hc; lia|lia].
  - rewrite Z.mod_small by lia.
    destruct (_ <? _)%Z eqn:Hc; [reflexivity|apply Z.ltb_ge in Hc; lia].
Qed.

Section Bagging.
Context {D : Type} {HD : Double D} {HU : UnionLayout D}.
Variable this : BaggingTrainer.BaggingTrainer D.
Variables (numThreads : Z) (draw : nat -> nat -> nat).
Variables (data : list D) (rowLength : Z) (labels : list D).
Hypothesis labels_int : (Z.of_nat (length labels) < 2 ^ 31)%Z.
Hypothesis data_int : (Z.of_nat (length data) < 2 ^ 31)%Z.
Hypothesis product_int : (- 2 ^ 31 <= Z.of_nat (length labels) * rowLength < 2 ^ 31)%Z.

(** The two tests [train] opens with. *)
Lemma bagging_guard :
  ((int_of_size_t (Z.of_nat (length labels)) =? 0)%Z
   || (match data with [] => true | _ => false end)
   || (rowLength <=? 0)%Z
   || negb (int_of_size_t (Z.of_nat (length data))
            =? int_mul (int_of_size_t (Z.of_nat (length labels))) rowLength)%Z) = true
  <-> (labels = [] \/ data = [] \/ (rowLength <= 0)%Z
       \/ Z.of_nat (length data) <> (Z.of_nat (length labels) * rowLength)%Z).
Proof.
  unfold int_mul. rewrite !int_of_size_t_small by lia.
  rewrite !orb_true_iff, negb_true_iff, Z.eqb_eq, Z.leb_le, Z.eqb_neq.
  split.
  - intros [[[H|H]|H]|H].
    + left. destruct labels; [reflexivity|cbn in H; lia].
    + right. left. destruct data; [reflexivity|discriminate].
    + tauto.
    + tauto.
  - intros [->|[->|[H|H]]]; tauto.
Qed.

Lemma bagging_train_refuses :
  (labels = [] \/ data = [] \/ (rowLength <= 0)%Z
   \/ Z.of_nat (length data) <> (Z.of_nat (length labels) * rowLength)%Z) ->
  BaggingTrainer.train this numThreads draw data rowLength labels
  = Returns (BaggingTrainer.set_trees this [] []).
Proof.
  intros Hd. apply bagging_guard in Hd. apply orb_true_iff in Hd.
  unfold BaggingTrainer.train. cbv zeta.
  destruct Hd as [Hd|Hd]; [now rewrite Hd|].
  match goal with
  | |- (if ?c then _ else _) = _ => destruct c; [reflexivity|]
  end.
  now rewrite Hd.
Qed.

(** The sample size [bootstrapSample] computes for the data. *)
Hypothesis sample_size :
  (0 <= to_int (of_Z (Z.of_nat (length labels)) * BaggingTrainer.sampleRatio_ this)%dbl
   <= Z.of_nat (length labels))%Z.

Lemma bagging_bootstrap (trees : list (option (SingleTreeTrainer D)))
      (oob : list (list nat)) (dist : nat -> nat) :
  exists sampleIndices oobIndices,
    BaggingTrainer.bootstrapSample (BaggingTrainer.set_trees this trees oob)
                                   (Z.of_nat (length labels)) dist
    = Returns (sampleIndices, oobIndices).
Proof.
  unfold BaggingTrainer.bootstrapSample. cbv zeta.
  cbn [BaggingTrainer.sampleRatio_ BaggingTrainer.set_trees].
  destruct (_ <? 0)%Z eqn:E1; [apply Z.ltb_lt in E1; lia|].
  destruct (_ - _ <? 0)%Z eqn:E2; [apply Z.ltb_lt in E2; lia|].
  eexists. eexists. reflexivity.
Qed.

Hypothesis minSamplesLeaf_int :
  (- 2 ^ 31 <= BaggingTrainer.minSamplesLeaf_ this < 2 ^ 31)%Z.
Hypothesis minSamplesLeaf_nonzero : BaggingTrainer.minSamplesLeaf_ this <> 0%Z.

Lemma bagging_train_tree (trees : list (option (SingleTreeTrainer D)))
      (oob : list (list nat)) (t : nat) :
  exists s o,
    BaggingTrainer.train_tree (BaggingTrainer.set_trees this trees oob) numThreads draw
                              data rowLength labels (Z.of_nat (length labels)) t
    = Returns (s, o)
    /\ bagged_tree (Some s).
Proof.
  unfold BaggingTrainer.train_tree.
  destruct (bagging_bootstrap trees oob (draw t)) as (sampleIndices & oobIndices & ->).
  cbn [and_then].
  destruct (BaggingTrainer.extractSubsetOptimized _ _ _ _) as [subData subLabels].
  cbn [BaggingTrainer.maxDepth_ BaggingTrainer.minSamplesLeaf_ BaggingTrainer.splitMethod_
       BaggingTrainer.criterion_ BaggingTrainer.set_trees].
  set (tree := mkTrainer _ _ _ _ _ _).
  destruct (@train_full_tree D HD HU tree subData rowLength subLabels numThreads
              minSamplesLeaf_int minSamplesLeaf_nonzero)
    as (s & root & Hs & Hroot & Hfull & _).
  rewrite Hs. cbn [of_Exec and_then]. exists s, oobIndices. split; [reflexivity|].
  exists s, root. split; [reflexivity|]. split; [exact Hroot|]. split; [exact Hfull|].
  unfold SingleTreeTrainer.train in Hs. cbv zeta in Hs.
  destruct (prune _ _) as [r|]; [|discriminate]. cbn [bind] in Hs.
  injection Hs as <-. cbn [pruner_]. subst tree. cbn [pruner_].
  pose proof (reduced_error_never_bagged (BaggingTrainer.set_trees this trees oob) rowLength)
    as Hp.
  exact Hp.
Qed.

(** The loop over the trees adds one trained tree at each turn. *)
Lemma bagging_loop (ts : list nat) :
  forall (trees : list (option (SingleTreeTrainer D))) (oob : list (list nat)),
    Forall bagged_tree trees ->
    length oob = length trees ->
    exists trees' oob',
      fold_left (fun acc t =>
                   and_then acc (fun this =>
                   and_then (BaggingTrainer.train_tree this numThreads draw data rowLength
                                                       labels (Z.of_nat (length labels)) t)
                            (fun r =>
                   Returns (BaggingTrainer.set_trees this
                              (BaggingTrainer.trees_ this ++ [Some (fst r)])
                              (BaggingTrainer.oobIndices_ this ++ [snd r])))))
                ts (Returns (BaggingTrainer.set_trees this trees oob))
      = Returns (BaggingTrainer.set_trees this trees' oob')
      /\ Forall bagged_tree trees'
      /\ length trees' = length trees + length ts
      /\ length oob' = length trees'.
Proof.
  induction ts as [|t ts IH]; intros trees oob Ht Ho.
  - exists trees, oob. cbn. repeat split; auto.
  - cbn [fold_left and_then].
    destruct (bagging_train_tree trees oob t) as (s & o & Hs & Hb).
    rewrite Hs. cbn [and_then fst snd BaggingTrainer.trees_ BaggingTrainer.oobIndices_
                     BaggingTrainer.set_trees].
    change (BaggingTrainer.mkBagging _ _ _ _ _ _ _ _ (trees ++ [Some s]) (oob ++ [o]))
      with (BaggingTrainer.set_trees this (trees ++ [Some s]) (oob ++ [o])).
    destruct (IH (trees ++ [Some s]) (oob ++ [o])) as (trees' & oob' & Hf & HF & Hl & Hlo).
    + apply Forall_app. split; [exact Ht|]. now constructor.
    + rewrite !length_app. cbn. lia.
    + exists trees', oob'. split; [exact Hf|]. split; [exact HF|].
      rewrite length_app in Hl. cbn [length] in *. split; [lia|exact Hlo].
Qed.

End Bagging.

(** X21.  The ensemble trainer refuses degenerate input.  With sizes
    that fit an [int], [BaggingTrainer::train] called with no targets, no
    features, a row length that is not positive, or a feature array
    whose size is not the number of targets times the row length,
    returns with no tree built; [predict] then answers 0.0 for every
    sample. *)
Theorem bagging_refuses_degenerate_input
        (D : Type) (HD : Double D) (HU : UnionLayout D)
        (this : BaggingTrainer.BaggingTrainer D) (numThreads : Z) (draw : nat -> nat -> nat)
        (data : list D) (rowLength : Z) (labels : list D) :
  (Z.of_nat (length labels) < 2 ^ 31)%Z ->
  (Z.of_nat (length data) < 2 ^ 31)%Z ->
  (- 2 ^ 31 <= Z.of_nat (length labels) * rowLength < 2 ^ 31)%Z ->
  (labels = [] \/ data = [] \/ (rowLength <= 0)%Z
   \/ Z.of_nat (length data) <> (Z.of_nat (length labels) * rowLength)%Z) ->
  exists t,
    BaggingTrainer.train this numThreads draw data rowLength labels = Returns t
    /\ BaggingTrainer.trees_ t = []
    /\ BaggingTrainer.oobIndices_ t = []
    /\ (forall (X : list D) (offset : Z), BaggingTrainer.predict t X offset = zero).
Proof.
  intros Hl Hd Hp Hdeg.
  rewrite (bagging_train_refuses this numThreads draw Hl Hd Hp Hdeg).
  eexists. split; [reflexivity|]. repeat split.
Qed.

Lemma bagging_refuses_degenerate_input_witness :
  let this : BaggingTrainer.BaggingTrainer float :=
    BaggingTrainer.mkBagging 10 1%float 800 2 MSECriterion.make ExhaustiveSplitFinder.make
                             "none"%string 0x1.47ae147ae147bp-7%float [] [] in
  exists t,
    BaggingTrainer.train this 4 (fun t k => k) [1; 2; 3]%float 2 [1; 5]%float = Returns t
    /\ BaggingTrainer.trees_ t = []
    /\ BaggingTrainer.oobIndices_ t = []
    /\ (forall (X : list float) (offset : Z), BaggingTrainer.predict t X offset = zero).
Proof.
  cbv zeta.
  apply (@bagging_refuses_degenerate_input float _ _).
  - simpl. lia.
  - simpl. lia.
  - simpl. lia.
  - right. right. right. simpl. lia.
Defined.

(** X22.  On sound input the ensemble trainer trains every tree.  With
    sizes that fit an [int], a positive row length, a feature array of
    the number of targets times the row length, a sample size
    [static_cast<int>(dataSize * sampleRatio_)] between 0 and the
    number of targets, and a [minSamplesLeaf_] other than 0,
    [BaggingTrainer::train] returns with [numTrees_] trees and as many
    out-of-bag lists, whatever the draws and the number of threads;
    each tree has a root, has both children at every node that is not a
    leaf, and carries a pruner other than the reduced-error one. *)
Theorem bagging_trains_every_tree
        (D : Type) (HD : Double D) (HU : UnionLayout D)
        (this : BaggingTrainer.BaggingTrainer D) (numThreads : Z) (draw : nat -> nat -> nat)
        (data : list D) (rowLength : Z) (labels : list D) :
  (Z.of_nat (length labels) < 2 ^ 31)%Z ->
  (Z.of_nat (length data) < 2 ^ 31)%Z ->
  (- 2 ^ 31 <= Z.of_nat (length labels) * rowLength < 2 ^ 31)%Z ->
  labels <> [] ->
  (0 < rowLength)%Z ->
  Z.of_nat (length data) = (Z.of_nat (length labels) * rowLength)%Z ->
  (0 <= BaggingTrainer.numTrees_ this)%Z ->
  (0 <= to_int (of_Z (Z.of_nat (length labels)) * BaggingTrainer.sampleRatio_ this)%dbl
   <= Z.of_nat (length labels))%Z ->
  (- 2 ^ 31 <= BaggingTrainer.minSamplesLeaf_ this < 2 ^ 31)%Z ->
  BaggingTrainer.minSamplesLeaf_ this <> 0%Z ->
  exists t,
    BaggingTrainer.train this numThreads draw data rowLength labels = Returns t
    /\ Z.of_nat (length (BaggingTrainer.trees_ t)) = BaggingTrainer.numTrees_ this
    /\ Z.of_nat (length (BaggingTrainer.oobIndices_ t)) = BaggingTrainer.numTrees_ this
    /\ Forall bagged_tree (BaggingTrainer.trees_ t).
Proof.
  intros Hl Hd Hp Hne Hrl Hsz Hnt Hss Hmi Hmz.
  assert (Hg : ((int_of_size_t (Z.of_nat (length labels)) =? 0)%Z
                || (match data with [] => true | _ => false end)
                || (rowLength <=? 0)%Z
                || negb (int_of_size_t (Z.of_nat (length data))
                         =? int_mul (int_of_size_t (Z.of_nat (length labels))) rowLength)%Z)
               = false).
  { destruct (_ || _ || _ || _) eqn:E; [|reflexivity].
    apply (@bagging_guard _ data rowLength labels Hl Hd Hp) in E.
    destruct E as [E|[E|[E|E]]]; [congruence| |lia|congruence].
    subst data. cbn [length] in Hsz. destruct labels; [congruence|cbn [length] in Hsz; nia]. }
  apply orb_false_iff in Hg. destruct Hg as [Hg1 Hg2].
  unfold BaggingTrainer.train. cbv zeta. rewrite Hg1, Hg2.
  rewrite int_of_size_t_small by lia.
  destruct (@bagging_loop D HD HU this numThreads draw data rowLength labels Hss Hmi Hmz
              (seq 0 (Z.to_nat (BaggingTrainer.numTrees_ this)))
              [] [] (Forall_nil _) eq_refl)
    as (trees' & oob' & Hf & HF & Hlt & Hlo).
  cbn [BaggingTrainer.numTrees_ BaggingTrainer.set_trees] in *.
  rewrite Hf. eexists. split; [reflexivity|].
  cbn [BaggingTrainer.trees_ BaggingTrainer.oobIndices_ BaggingTrainer.set_trees
       BaggingTrainer.numTrees_].
  rewrite length_seq in Hlt. cbn [length] in Hlt.
  split; [lia|]. split; [lia|exact HF].
Qed.

Lemma bagging_trains_every_tree_witness :
  let this : BaggingTrainer.BaggingTrainer float :=
    BaggingTrainer.mkBagging 3 1%float 800 2 MSECriterion.make ExhaustiveSplitFinder.make
                             "reduced_error"%string 0x1.47ae147ae147bp-7%float [] [] in
  exists t,
    BaggingTrainer.train this 4 (fun t k => k) [1; 2; 3; 4]%float 1 [1; 1; 5; 5]%float
    = Returns t
    /\ Z.of_nat (length (BaggingTrainer.trees_ t)) = BaggingTrainer.numTrees_ this
    /\ Z.of_nat (length (BaggingTrainer.oobIndices_ t)) = BaggingTrainer.numTrees_ this
    /\ Forall bagged_tree (BaggingTrainer.trees_ t).
Proof.
  cbv zeta.
  apply (@bagging_trains_every_tree float _ _); simpl; try lia; try discriminate.
  vm_compute. split; discriminate.
Defined.

(** X29.  A sample ratio that asks for more rows than there are, or for
    a negative number of rows, ends the training of the ensemble.  On
    sound input and with at least one tree to train, if
    [static_cast<int>(dataSize * sampleRatio_)] is negative or above the
    number of targets, [bootstrapSample] hands [reserve] a negative
    count and [BaggingTrainer::train] does not return: the run ends on
    [std::length_error]. *)
Theorem bagging_sample_ratio_out_of_range
        (D : Type) (HD : Double D) (HU : UnionLayout D)
        (this : BaggingTrainer.BaggingTrainer D) (numThreads : Z) (draw : nat -> nat -> nat)
        (data : list D) (rowLength : Z) (labels : list D) :
  (Z.of_nat (length labels) < 2 ^ 31)%Z ->
  (Z.of_nat (length data) < 2 ^ 31)%Z ->
  (- 2 ^ 31 <= Z.of_nat (length labels) * rowLength < 2 ^ 31)%Z ->
  labels <> [] ->
  (0 < rowLength)%Z ->
  Z.of_nat (length data) = (Z.of_nat (length labels) * rowLength)%Z ->
  (0 < BaggingTrainer.numTrees_ this)%Z ->
  (to_int (of_Z (Z.of_nat (length labels)) * BaggingTrainer.sampleRatio_ this)%dbl < 0
   \/ Z.of_nat (length labels)
      < to_int (of_Z (Z.of_nat (length labels)) * BaggingTrainer.sampleRatio_ this)%dbl)%Z ->
  BaggingTrainer.train this numThreads draw data rowLength labels = LengthError.
Proof.
  intros Hl Hd Hp Hne Hrl Hsz Hnt Hss.
  assert (Hg : ((int_of_size_t (Z.of_nat (length labels)) =? 0)%Z
                || (match data with [] => true | _ => false end)
                || (rowLength <=? 0)%Z
                || negb (int_of_size_t (Z.of_nat (length data))
                         =? int_mul (int_of_size_t (Z.of_nat (length labels))) rowLength)%Z)
               = false).
  { destruct (_ || _ || _ || _) eqn:E; [|reflexivity].
    apply (@bagging_guard _ data rowLength labels Hl Hd Hp) in E.
    destruct E as [E|[E|[E|E]]]; [congruence| |lia|congruence].
    subst data. cbn [length] in Hsz. destruct labels; [congruence|cbn [length] in Hsz; nia]. }
  apply orb_false_iff in Hg. destruct Hg as [Hg1 Hg2].
  unfold BaggingTrainer.train. cbv zeta. rewrite Hg1, Hg2.
  rewrite int_of_size_t_small by lia.
  cbn [BaggingTrainer.numTrees_ BaggingTrainer.set_trees].
  destruct (Z.to_nat (BaggingTrainer.numTrees_ this)) as [|n] eqn:En; [lia|].
  cbn [seq fold_left and_then].
  assert (Hfirst : BaggingTrainer.train_tree (BaggingTrainer.set_trees this [] [])
                     numThreads draw data rowLength labels (Z.of_nat (length labels)) 0
                   = LengthError).
  { unfold BaggingTrainer.train_tree, BaggingTrainer.bootstrapSample. cbv zeta.
    cbn [BaggingTrainer.sampleRatio_ BaggingTrainer.set_trees].
    destruct (_ <? 0)%Z eqn:E1; [reflexivity|]. apply Z.ltb_ge in E1.
    destruct (_ - _ <? 0)%Z eqn:E2; [reflexivity|]. apply Z.ltb_ge in E2. lia. }
  unfold BaggingTrainer.set_trees in Hfirst |- *. rewrite Hfirst. cbn [and_then].
  generalize (seq 1 n). intros ts. induction ts as [|t ts IH]; [reflexivity|exact IH].
Qed.

Lemma bagging_sample_ratio_out_of_range_witness :
  let this : BaggingTrainer.BaggingTrainer float :=
    BaggingTrainer.mkBagging 10 1.5%float 800 2 MSECriterion.make ExhaustiveSplitFinder.make
                             "none"%string 0x1.47ae147ae147bp-7%float [] [] in
  BaggingTrainer.train this 4 (fun t k => k) [1; 2; 3; 4]%float 1 [1; 1; 5; 5]%float
  = LengthError.
Proof.
  cbv zeta.
  apply (@bagging_sample_ratio_out_of_range float _ _); simpl; try lia; try discriminate.
  right. vm_compute. reflexivity.
Defined.

(** ** The bootstrap sample *)

Lemma filter_seq_sorted (p : nat -> bool) (len start : nat) :
  StronglySorted lt (filter p (seq start len)).
Proof.
  revert start. induction len as [|len IH]; intros start; cbn [seq filter]; [constructor|].
  destruct (p start); [|apply IH].
  constructor; [apply IH|].
  apply Forall_forall. intros i Hi. apply filter_In in Hi. destruct Hi as [Hi _].
  apply in_seq in Hi. lia.
Qed.

(** X30.  What [bootstrapSample] hands back when it returns: the sample
    holds [static_cast<int>(dataSize * sampleRatio_)] indices, the
    draws in their order, and the out-of-bag list holds exactly the rows
    below [dataSize] that were never drawn, each once and in ascending
    order. *)
Theorem out_of_bag_is_complement (D : Type) (HD : Double D) (HU : UnionLayout D)
        (this : BaggingTrainer.BaggingTrainer D) (dataSize : Z) (dist : nat -> nat)
        (sampleIndices oobIndices : list nat) :
  BaggingTrainer.bootstrapSample this dataSize dist = Returns (sampleIndices, oobIndices) ->
  Z.of_nat (length sampleIndices)
  = to_int (of_Z dataSize * BaggingTrainer.sampleRatio_ this)%dbl
  /\ (forall k, k < length sampleIndices -> nth k sampleIndices 0 = dist k)
  /\ (forall i, In i oobIndices <-> (Z.of_nat i < dataSize)%Z /\ ~ In i sampleIndices)
  /\ StronglySorted lt oobIndices.
Proof.
  unfold BaggingTrainer.bootstrapSample. cbv zeta.
  destruct (_ <? 0)%Z eqn:E1; [discriminate|]. apply Z.ltb_ge in E1.
  destruct (_ - _ <? 0)%Z eqn:E2; [discriminate|]. apply Z.ltb_ge in E2.
  intros [= <- <-].
  split; [rewrite length_map, length_seq; lia|].
  split.
  { intros k Hk. rewrite length_map, length_seq in Hk.
    rewrite (nth_indep _ 0 (dist 0)) by (rewrite length_map, length_seq; exact Hk).
    rewrite map_nth, seq_nth by exact Hk. reflexivity. }
  split.
  { intros i. rewrite filter_In, in_seq, negb_true_iff.
    assert (Hex : existsb (Nat.eqb i)
                    (map dist (seq 0 (Z.to_nat (to_int (of_Z dataSize
                                                        * BaggingTrainer.sampleRatio_ this)%dbl))))
                  = false
                  <-> ~ In i (map dist (seq 0 (Z.to_nat (to_int (of_Z dataSize
                                                        * BaggingTrainer.sampleRatio_ this)%dbl))))).
    { split.
      - intros Hf Hin. 
        assert (Ht : existsb (Nat.eqb i)
                    (map dist (seq 0 (Z.to_nat (to_int (of_Z dataSize
                                                        * BaggingTrainer.sampleRatio_ this)%dbl))))
                     = true).
        { apply existsb_exists. exists i. split; [exact Hin|apply Nat.eqb_refl]. }
        congruence.
      - intros Hn. destruct (existsb _ _) eqn:E; [|reflexivity].
        apply existsb_exists in E. destruct E as (x & Hx & Hix).
        apply Nat.eqb_eq in Hix. subst x. contradiction. }
    rewrite Hex. split; intros [H1 H2]; (split; [lia|exact H2]). }
  apply filter_seq_sorted.
Qed.

Lemma out_of_bag_is_complement_witness :
  let this : BaggingTrainer.BaggingTrainer float :=
    BaggingTrainer.mkBagging 10 1%float 800 2 MSECriterion.make ExhaustiveSplitFinder.make
                             "none"%string 0x1.47ae147ae147bp-7%float [] [] in
  let sampleIndices := [0; 2; 0; 2] in
  let oobIndices := [1; 3] in
  Z.of_nat (length sampleIndices)
  = to_int (of_Z 4 * BaggingTrainer.sampleRatio_ this)%dbl
  /\ (forall k, k < length sampleIndices -> nth k sampleIndices 0 = 2 * (k mod 2))
  /\ (forall i, In i oobIndices <-> (Z.of_nat i < 4)%Z /\ ~ In i sampleIndices)
  /\ StronglySorted lt oobIndices.
Proof.
  cbv zeta.
  apply (@out_of_bag_is_complement float _ _ _ 4 (fun k => 2 * (k mod 2))).
  vm_compute. reflexivity.
Defined.

(** ** Cost-complexity pruning is optimal *)

Section CostComplexityOptimal.
Variable alpha : R.

Lemma cost_complexity_leaf (p : Node R) :
  isLeaf p = true ->
  cost_complexity alpha p = (metric p * of_size (samples p) + alpha)%R.
Proof.
  destruct p as [b s m i l r]. cbn [isLeaf]. intros ->.
  unfold cost_complexity. cbn. ring.
Qed.

Lemma cost_complexity_internal (s : nat) (m : R) (i : NodeInfo R) (l r : Node R) :
  cost_complexity alpha (mkNode false s m i (Some l) (Some r))
  = (cost_complexity alpha l + cost_complexity alpha r)%R.
Proof.
  unfold cost_complexity. cbn [leaf_error leaves]. cbn [of_Z dadd dmul Double_R].
  rewrite plus_IZR. ring.
Qed.

Lemma pruning_of_refl (n : Node R) : full n -> pruning_of n n.
Proof.
  induction n as [b s m i l r IHl IHr] using Node_induction.
  cbn [full pruning_of]. destruct b; [reflexivity|].
  destruct l as [l|]; [|tauto]. destruct r as [r|]; [|tauto].
  cbn [on_child] in *. intros [Hl Hr]. right. cbn. repeat split.
  exists l, r. auto.
Qed.

Lemma cc_pruneRec_optimal (n : Node R) :
  full n ->
  exists n' e,
    CostComplexityPruner.pruneRec alpha n = Ok (n', e)
    /\ full n'
    /\ pruning_of n' n
    /\ (forall p, pruning_of p n ->
                  (cost_complexity alpha n' <= cost_complexity alpha p)%R).
Proof.
  induction n as [b s m i l r IHl IHr] using Node_induction.
  destruct b.
  - intros _. eexists _, _. split; [reflexivity|]. split; [exact I|].
    split; [reflexivity|]. intros p Hp. cbn in Hp. subst p. lra.
  - cbn [full]. destruct l as [l|]; [|tauto]. destruct r as [r|]; [|tauto].
    intros [Hl Hr]. cbn [on_child] in *.
    destruct (IHl Hl) as (l' & el & El & Fl & Pl & Ol).
    destruct (IHr Hr) as (r' & er & Er & Fr & Pr & Or).
    rewrite (cc_pruneRec_internal alpha s m i _ _ El Er). cbv zeta.
    pose proof (cc_pruneRec_error alpha l El) as Eel.
    pose proof (cc_pruneRec_error alpha r Er) as Eer.
    assert (Hkeep : (el + er
                     + alpha * of_Z (CostComplexityPruner.countLeaves (Some l')
                                     + CostComplexityPruner.countLeaves (Some r')))%dbl
                    = cost_complexity alpha (mkNode false s m i (Some l') (Some r'))).
    { rewrite cost_complexity_internal. unfold cost_complexity.
      cbn [CostComplexityPruner.countLeaves].
      destruct (countLeaves_node_leaves l') as [_ Cl].
      destruct (countLeaves_node_leaves r') as [_ Cr].
      rewrite (Cl Fl), (Cr Fr), Eel, Eer.
      cbn [of_Z dadd dmul Double_R]. rewrite plus_IZR. ring. }
    rewrite Hkeep.
    assert (Hany : forall p,
               pruning_of p (mkNode false s m i (Some l) (Some r)) ->
               (cost_complexity alpha p = m * of_size s + alpha)%R
               \/ (cost_complexity alpha (mkNode false s m i (Some l') (Some r'))
                   <= cost_complexity alpha p)%R).
    { intros p Hp. cbn [pruning_of] in Hp.
      destruct Hp as [(Hpl & Hps & Hpm)|(Hpl & Hps & Hpm & pl & pr & Hcl & Hcr & Hl' & Hr')].
      - left. rewrite (cost_complexity_leaf p Hpl), Hps, Hpm. reflexivity.
      - right. destruct p as [pb psz pm pinf pL pR]. cbn in Hpl, Hcl, Hcr. subst pb pL pR.
        rewrite !cost_complexity_internal.
        pose proof (Ol pl Hl'). pose proof (Or pr Hr'). lra. }
    destruct (_ <=? _)%dbl eqn:Hc; eexists _, _; (split; [reflexivity|]).
    + apply Rleb_true in Hc. cbn [dadd dmul Double_R] in Hc.
      split; [exact I|]. split; [left; repeat split|].
      intros p Hp. rewrite cost_complexity_leaf by reflexivity. cbn [metric samples makeLeaf].
      destruct (Hany p Hp) as [E|E]; lra.
    + apply Rleb_false in Hc. cbn [dadd dmul Double_R] in Hc.
      split; [cbn; tauto|]. split.
      * right. cbn. repeat split. exists l', r'. auto.
      * intros p Hp. destruct (Hany p Hp) as [E|E]; lra.
Qed.

End CostComplexityOptimal.



(** * The gain of a split and the error of a tree, in real arithmetic *)

(** ** Sums over the reals *)

Section SumsOnReals.
Variable g : nat -> R.

Lemma fold_sum_shift (l : list nat) :
  forall s : R,
    fold_left (fun s i => (s + g i)%R) l s
    = (s + fold_left (fun s i => (s + g i)%R) l 0)%R.
Proof.
  induction l as [|i l IH]; intros s; cbn [fold_left].
  - ring.
  - rewrite (IH (s + g i)%R), (IH (0 + g i)%R). ring.
Qed.

Lemma fold_sum_app (l r : list nat) :
  fold_left (fun s i => (s + g i)%R) (l ++ r) 0%R
  = (fold_left (fun s i => (s + g i)%R) l 0 + fold_left (fun s i => (s + g i)%R) r 0)%R.
Proof. rewrite fold_left_app. apply fold_sum_shift. Qed.

Lemma fold_sum_perm (l l' : list nat) :
  Permutation l l' ->
  fold_left (fun s i => (s + g i)%R) l 0%R = fold_left (fun s i => (s + g i)%R) l' 0%R.
Proof.
  induction 1 as [|x l l' _ IH|x y l|l l' l'' _ IH1 _ IH2]; cbn [fold_left].
  - reflexivity.
  - rewrite (fold_sum_shift l), (fold_sum_shift l'), IH. reflexivity.
  - f_equal. ring.
  - congruence.
Qed.

End SumsOnReals.

(** ** The sort and the partition, continued *)

Lemma filter_perm {A : Type} (p : A -> bool) (l l' : list A) :
  Permutation l l' -> Permutation (filter p l) (filter p l').
Proof.
  induction 1 as [|x l l' _ IH|x y l|l l' l'' _ IH1 _ IH2]; cbn [filter].
  - constructor.
  - destruct (p x); [now constructor|assumption].
  - destruct (p x), (p y); try reflexivity. apply perm_swap.
  - now transitivity (filter p l').
Qed.

Lemma filter_all {A : Type} (p : A -> bool) (l : list A) :
  Forall (fun a => p a = true) l -> filter p l = l.
Proof.
  induction 1 as [|x l Hx _ IH]; cbn [filter]; [reflexivity|].
  rewrite Hx, IH. reflexivity.
Qed.

Lemma filter_none {A : Type} (p : A -> bool) (l : list A) :
  Forall (fun a => p a = false) l -> filter p l = [].
Proof.
  induction 1 as [|x l Hx _ IH]; cbn [filter]; [reflexivity|].
  rewrite Hx, IH. reflexivity.
Qed.

(** The two sides of a partition are, up to their order, the elements
    that pass the test and those that fail it. *)
Lemma sides_are_filters {A : Type} (p : A -> bool) (S l r : list A) :
  Permutation (l ++ r) S ->
  Forall (fun a => p a = true) l ->
  Forall (fun a => p a = false) r ->
  Permutation l (filter p S)
  /\ Permutation r (filter (fun a => negb (p a)) S).
Proof.
  intros HP Hl Hr. split.
  - rewrite <- (filter_perm p HP), filter_app, (filter_all _ Hl), (filter_none _ Hr).
    now rewrite app_nil_r.
  - rewrite <- (filter_perm (fun a => negb (p a)) HP), filter_app.
    rewrite (filter_none (fun a => negb (p a)) (l := l)), (filter_all (fun a => negb (p a)) (l := r)).
    + reflexivity.
    + eapply Forall_impl; [|exact Hr]. cbv beta. intros a ->. reflexivity.
    + eapply Forall_impl; [|exact Hl]. cbv beta. intros a ->. reflexivity.
Qed.

Section SortOnReals.
Variable F : nat -> R.

Lemma insert_by_sorted (x : nat) (l : list nat) :
  StronglySorted (fun a b => (F a <= F b)%R) l ->
  StronglySorted (fun a b => (F a <= F b)%R) (insert_by (fun a b => Rltb (F a) (F b)) x l).
Proof.
  induction 1 as [|y l Hs IH Hy]; cbn [insert_by].
  - constructor; constructor.
  - destruct (Rltb (F y) (F x)) eqn:E.
    + apply Rltb_true in E. constructor; [exact IH|].
      apply Forall_forall. intros z Hz.
      apply (Permutation_in _ (insert_by_perm _ x l)) in Hz.
      destruct Hz as [<-|Hz]; [lra|].
      rewrite Forall_forall in Hy. now apply Hy.
    + apply Rltb_false in E. constructor; [now constructor|].
      constructor; [exact E|].
      eapply Forall_impl; [|exact Hy]. cbv beta. intros z Hz. lra.
Qed.

Lemma std_sort_sorted (l : list nat) :
  StronglySorted (fun a b => (F a <= F b)%R) (std_sort (fun a b => Rltb (F a) (F b)) l).
Proof.
  induction l as [|x l IH]; [constructor|].
  apply insert_by_sorted, IH.
Qed.

Lemma sorted_cut (pre rest : list nat) :
  StronglySorted (fun a b => (F a <= F b)%R) (pre ++ rest) ->
  forall a b, In a pre -> In b rest -> (F a <= F b)%R.
Proof.
  induction pre as [|x pre IH]; intros Hs a b Ha Hb; [destruct Ha|].
  cbn in Hs. apply StronglySorted_inv in Hs. destruct Hs as [Hs Hx].
  destruct Ha as [<-|Ha].
  - rewrite Forall_forall in Hx. apply Hx, in_or_app. now right.
  - now apply IH.
Qed.

End SortOnReals.

(** ** The MSE of a subset, in closed form *)

Section MSEOnReals.
Variable labels : list R.

Lemma MSE_closed (l : list nat) :
  l <> [] ->
  MSECriterion.nodeMetric labels l
  = (fold_left (fun q i => (q + at_nat labels i * at_nat labels i)%R) l 0
     / IZR (Z.of_nat (length l))
     - fold_left (fun s i => (s + at_nat labels i)%R) l 0 / IZR (Z.of_nat (length l))
       * (fold_left (fun s i => (s + at_nat labels i)%R) l 0 / IZR (Z.of_nat (length l))))%R.
Proof.
  intros Hne.
  assert (Hn : (0 < IZR (Z.of_nat (length l)))%R).
  { apply IZR_lt. destruct l; [congruence|cbn; lia]. }
  rewrite (MSE_is_variance labels Hne). unfold variance.
  rewrite (deviations_sum labels (mean labels l) l 0 0 0).
  unfold mean, sum_labels, of_size, zero. cbn [of_Z dadd dsub dmul ddiv Double_R].
  rewrite INR_IZR_INZ. field. lra.
Qed.

Lemma MSE_perm (l l' : list nat) :
  Permutation l l' ->
  MSECriterion.nodeMetric labels l = MSECriterion.nodeMetric labels l'.
Proof.
  intros HP. destruct l as [|i l].
  - apply Permutation_nil in HP. subst l'. reflexivity.
  - assert (Hne : l' <> []).
    { intros ->. symmetry in HP. apply Permutation_nil in HP. discriminate. }
    rewrite (@MSE_closed (i :: l)) by discriminate. rewrite (MSE_closed Hne).
    rewrite (Permutation_length HP).
    rewrite (fold_sum_perm (fun i => at_nat labels i) HP).
    rewrite (fold_sum_perm (fun i => (at_nat labels i * at_nat labels i)%R) HP).
    reflexivity.
Qed.

End MSEOnReals.

(** ** The gain the exhaustive finder reports *)

Section ExhaustiveGain.
Variables (data : list R) (rowLength : Z) (labels : list R) (indices : list nat).

(** The gain computed at a cut of the sorted indices into a left part
    at or below the threshold and a right part above it. *)
Lemma gain_at_cut (f : Z) (thr : R) (L Rr : list nat) :
  Permutation (L ++ Rr) indices ->
  L <> [] -> Rr <> [] ->
  Forall (fun i => SingleTreeTrainer.goes_left data rowLength f thr i = true) L ->
  Forall (fun i => SingleTreeTrainer.goes_left data rowLength f thr i = false) Rr ->
  let tS := fold_left (fun s i => (s + at_nat labels i)%R) indices 0%R in
  let tQ := fold_left (fun q i => (q + at_nat labels i * at_nat labels i)%R) indices 0%R in
  let N := length indices in
  ExhaustiveSplitFinder.gain_of N tS tQ
    (tQ / of_size N - tS / of_size N * (tS / of_size N))%R
    (length L)
    (fold_left (fun s i => (s + at_nat labels i)%R) L 0%R)
    (fold_left (fun q i => (q + at_nat labels i * at_nat labels i)%R) L 0%R)
  = MSE_reduction data rowLength labels indices f thr
  /\ filter (SingleTreeTrainer.goes_left data rowLength f thr) indices <> []
  /\ filter (fun i => negb (SingleTreeTrainer.goes_left data rowLength f thr i)) indices <> [].
Proof.
  intros HP HL HR Hl Hr tS tQ N.
  destruct (sides_are_filters _ HP Hl Hr) as [PL PR].
  assert (HfL : filter (SingleTreeTrainer.goes_left data rowLength f thr) indices <> []).
  { intros E. rewrite E in PL. symmetry in PL. apply Permutation_nil in PL. contradiction. }
  assert (HfR : filter (fun i => negb (SingleTreeTrainer.goes_left data rowLength f thr i))
                       indices <> []).
  { intros E. rewrite E in PR. symmetry in PR. apply Permutation_nil in PR. contradiction. }
  split; [|split; assumption].
  assert (Hi : indices <> []).
  { intros E. rewrite E in HP. symmetry in HP. apply Permutation_nil in HP.
    apply app_eq_nil in HP. destruct HP. contradiction. }
  unfold MSE_reduction. cbv zeta.
  rewrite <- (MSE_perm labels PL), <- (MSE_perm labels PR).
  rewrite <- (Permutation_length PL), <- (Permutation_length PR).
  rewrite (MSE_closed labels Hi), (MSE_closed labels HL), (MSE_closed labels HR).
  assert (HN : N = (length L + length Rr)%nat).
  { subst N. rewrite <- (Permutation_length HP), length_app. reflexivity. }
  assert (HtS : tS = (fold_left (fun s i => (s + at_nat labels i)%R) L 0
                       + fold_left (fun s i => (s + at_nat labels i)%R) Rr 0)%R).
  { subst tS. rewrite <- (fold_sum_perm (fun i => at_nat labels i) HP).
    apply fold_sum_app. }
  assert (HtQ : tQ = (fold_left (fun q i => (q + at_nat labels i * at_nat labels i)%R) L 0
                       + fold_left (fun q i => (q + at_nat labels i * at_nat labels i)%R)
                                   Rr 0)%R).
  { subst tQ. rewrite <- (fold_sum_perm (fun i => (at_nat labels i * at_nat labels i)%R) HP).
    apply (fold_sum_app (fun i => (at_nat labels i * at_nat labels i)%R)). }
  unfold ExhaustiveSplitFinder.gain_of. cbv zeta.
  fold N. fold tS. fold tQ.
  replace (N - length L)%nat with (length Rr) by lia.
  unfold of_size. cbn [of_Z dadd dsub dmul ddiv Double_R].
  replace (tS - fold_left (fun s i => (s + at_nat labels i)%R) L 0)%R
    with (fold_left (fun s i => (s + at_nat labels i)%R) Rr 0%R) by (rewrite HtS; ring).
  replace (tQ - fold_left (fun q i => (q + at_nat labels i * at_nat labels i)%R) L 0)%R
    with (fold_left (fun q i => (q + at_nat labels i * at_nat labels i)%R) Rr 0%R)
    by (rewrite HtQ; ring).
  reflexivity.
Qed.

End ExhaustiveGain.

Section ExhaustiveScan.
Variables (data : list R) (rowLength : Z) (labels : list R) (indices : list nat).

Lemma scan_exact (f : Z) (srt : list nat) :
  Permutation srt indices ->
  StronglySorted (fun a b => (feature data rowLength a f <= feature data rowLength b f)%R) srt ->
  let tS := fold_left (fun s i => (s + at_nat labels i)%R) indices 0%R in
  let tQ := fold_left (fun q i => (q + at_nat labels i * at_nat labels i)%R) indices 0%R in
  let N := length indices in
  forall (rest pre : list nat) (best : Z * R * R),
    pre ++ rest = srt ->
    exact_proposal data rowLength labels indices best ->
    exact_proposal data rowLength labels indices
      (ExhaustiveSplitFinder.scan data rowLength labels N tS tQ
         (tQ / of_size N - tS / of_size N * (tS / of_size N))%R f rest (length pre)
         (fold_left (fun s i => (s + at_nat labels i)%R) pre 0%R)
         (fold_left (fun q i => (q + at_nat labels i * at_nat labels i)%R) pre 0%R)
         best).
Proof.
  intros HP Hsorted tS tQ N.
  induction rest as [|idx rest IH]; intros pre best Hsplit HQ; [exact HQ|].
  destruct rest as [|next tl]; [exact HQ|].
  cbn [ExhaustiveSplitFinder.scan]. cbv zeta.
  assert (Hlen : S (length pre) = length (pre ++ [idx])).
  { rewrite length_app. cbn. lia. }
  assert (HS : (fold_left (fun s i => (s + at_nat labels i)%R) pre 0 + at_nat labels idx)%R
               = fold_left (fun s i => (s + at_nat labels i)%R) (pre ++ [idx]) 0%R).
  { rewrite fold_left_app. reflexivity. }
  assert (HSq : (fold_left (fun q i => (q + at_nat labels i * at_nat labels i)%R) pre 0
                 + at_nat labels idx * at_nat labels idx)%R
                = fold_left (fun q i => (q + at_nat labels i * at_nat labels i)%R)
                            (pre ++ [idx]) 0%R).
  { rewrite fold_left_app. reflexivity. }
  cbn [dadd dmul Double_R]. rewrite Hlen, HS, HSq.
  apply IH; [rewrite <- app_assoc; exact Hsplit|].
  match goal with
  | |- context [if ?c then (if _ then _ else best) else best] => destruct c eqn:Egap
  end; [|exact HQ].
  match goal with |- context [if ?c then _ else best] => destruct c end; [|exact HQ].
  apply Rltb_true in Egap. unfold ExhaustiveSplitFinder.EPS in Egap.
  cbn [d1e_12 Double_R] in Egap.
  assert (Hcut : (feature data rowLength idx f
                  <= 5 / 10 * (feature data rowLength idx f + feature data rowLength next f)
                  < feature data rowLength next f)%R) by lra.
  assert (Hs' : StronglySorted
                  (fun a b => (feature data rowLength a f <= feature data rowLength b f)%R)
                  ((pre ++ [idx]) ++ next :: tl)).
  { rewrite <- app_assoc. cbn [app]. rewrite Hsplit. exact Hsorted. }
  destruct (@gain_at_cut data rowLength labels indices f
              (5 / 10 * (feature data rowLength idx f + feature data rowLength next f))%R
              (pre ++ [idx]) (next :: tl)) as (Hg & HfL & HfR).
  - rewrite <- app_assoc. cbn [app]. rewrite Hsplit. exact HP.
  - destruct pre; discriminate.
  - discriminate.
  - apply Forall_forall. intros i Hi.
    unfold SingleTreeTrainer.goes_left. apply Rleb_true.
    assert (Hle : (feature data rowLength i f <= feature data rowLength idx f)%R).
    { apply in_app_or in Hi. destruct Hi as [Hi|[<-|[]]]; [|lra].
      apply (@sorted_cut (fun a => feature data rowLength a f) pre (idx :: next :: tl));
        [rewrite Hsplit; exact Hsorted|exact Hi|now left]. }
    lra.
  - apply Forall_forall. intros i Hi.
    unfold SingleTreeTrainer.goes_left. apply Rleb_false.
    assert (Hle : (feature data rowLength next f <= feature data rowLength i f)%R).
    { destruct Hi as [<-|Hi]; [lra|].
      apply (@sorted_cut (fun a => feature data rowLength a f) (pre ++ [idx; next]) tl).
      - rewrite <- app_assoc. cbn [app]. rewrite Hsplit. exact Hsorted.
      - apply in_or_app. right. right. now left.
      - exact Hi. }
    lra.
  - right. cbn [fst snd]. cbn [d0_5 dadd dmul Double_R].
    split; [exact HfL|]. split; [exact HfR|]. exact Hg.
Qed.

Lemma scan_feature_exact (best : Z * R * R) (f : Z) :
  let tS := fold_left (fun s i => (s + at_nat labels i)%R) indices 0%R in
  let tQ := fold_left (fun q i => (q + at_nat labels i * at_nat labels i)%R) indices 0%R in
  let N := length indices in
  exact_proposal data rowLength labels indices best ->
  exact_proposal data rowLength labels indices
    (ExhaustiveSplitFinder.scan_feature data rowLength labels N tS tQ
       (tQ / of_size N - tS / of_size N * (tS / of_size N))%R indices best f).
Proof.
  intros tS tQ N HQ. unfold ExhaustiveSplitFinder.scan_feature. cbv zeta.
  pose proof (std_sort_sorted (fun a => feature data rowLength a f) indices) as Hs.
  cbv beta in Hs.
  exact (@scan_exact f _ (std_sort_perm _ indices) Hs _ [] best eq_refl HQ).
Qed.

Lemma findBestSplit_exact (currentMetric : R) (criterion : ISplitCriterion R) :
  exact_proposal data rowLength labels indices
    (ExhaustiveSplitFinder.findBestSplit data rowLength labels indices currentMetric criterion).
Proof.
  unfold ExhaustiveSplitFinder.findBestSplit. cbv zeta.
  destruct (length indices <? 2)%nat; [now left|].
  unfold ExhaustiveSplitFinder.totals.
  rewrite (MSE_sums labels indices). 
  assert (Hfold : forall fs best,
             exact_proposal data rowLength labels indices best ->
             exact_proposal data rowLength labels indices
               (fold_left
                  (ExhaustiveSplitFinder.scan_feature data rowLength labels (length indices)
                     (fold_left (fun s i => (s + at_nat labels i)%dbl) indices zero)
                     (fold_left (fun q i => (q + at_nat labels i * at_nat labels i)%dbl)
                                indices zero)
                     (fold_left (fun q i => (q + at_nat labels i * at_nat labels i)%dbl)
                                indices zero / of_size (length indices)
                      - fold_left (fun s i => (s + at_nat labels i)%dbl) indices zero
                        / of_size (length indices)
                        * (fold_left (fun s i => (s + at_nat labels i)%dbl) indices zero
                           / of_size (length indices)))%dbl
                     indices)
                  fs best)).
  { induction fs as [|f fs IH]; intros best HQ; [exact HQ|].
    cbn [fold_left]. apply IH. exact (@scan_feature_exact best f HQ). }
  destruct (1000 <? length indices)%nat.
  - match goal with |- context [if ?c then _ else _] => destruct c end; [|now left].
    apply Hfold. now left.
  - apply Hfold. now left.
Qed.

End ExhaustiveScan.

(** ** The gain at the nodes of a tree grown with the exhaustive finder
    and the MSE criterion *)

Section ExactGrowth.
Variable this : SingleTreeTrainer R.
Variables (data : list R) (rowLength : Z) (labels : list R).
Hypothesis exhaustive : finder_ this = ExhaustiveSplitFinder.make.
Hypothesis MSE : criterion_ this = MSECriterion.make.

Lemma splitNodeOptimized_rec_metric (fuel : nat) (node : Node R) (indices : list nat)
      (depth : Z) :
  indices <> [] ->
  metric (SingleTreeTrainer.splitNodeOptimized_rec this data rowLength labels
                                                   fuel node indices depth)
  = nodeMetric (criterion_ this) labels indices
  /\ samples (SingleTreeTrainer.splitNodeOptimized_rec this data rowLength labels
                                                       fuel node indices depth)
     = length indices.
Proof.
  intros Hne. destruct indices as [|i0 rest]; [congruence|].
  destruct fuel; cbn [SingleTreeTrainer.splitNodeOptimized_rec]; cbv zeta.
  all: destruct (SingleTreeTrainer.stop_before_split this (i0 :: rest) depth);
    [split; reflexivity|].
  all: destruct (findBestSplit _ _ _ _ _ _ _) as [[f t] g].
  all: destruct (_ || _); [split; reflexivity|].
  all: destruct (SingleTreeTrainer.below_minGain this g); [split; reflexivity|].
  all: destruct (std_partition _ _) as [indices' leftSize].
  all: destruct (_ || _); split; reflexivity.
Qed.

(** The split the trainer performs on the finder's proposal has the
    gain the finder reported, which is the gain the nodes record. *)
Lemma accepted_split_gain (indices : list nat) (f : Z) (t g : R) (l r : Node R) :
  findBestSplit (finder_ this) data rowLength labels indices
                (nodeMetric (criterion_ this) labels indices) (criterion_ this)
  = (f, t, g) ->
  (f <? 0)%Z = false ->
  let indices' := fst (std_partition (SingleTreeTrainer.goes_left data rowLength f t) indices) in
  let leftSize := snd (std_partition (SingleTreeTrainer.goes_left data rowLength f t) indices) in
  firstn leftSize indices' <> [] /\ skipn leftSize indices' <> []
  /\ (metric l = nodeMetric (criterion_ this) labels (firstn leftSize indices') ->
      samples l = length (firstn leftSize indices') ->
      metric r = nodeMetric (criterion_ this) labels (skipn leftSize indices') ->
      samples r = length (skipn leftSize indices') ->
      (nodeMetric (criterion_ this) labels indices
       - (metric l * of_size (samples l) + metric r * of_size (samples r))
         / of_size (length indices))%R = g).
Proof.
  intros Hfind Hf indices' leftSize.
  rewrite exhaustive in Hfind. cbn [findBestSplit ExhaustiveSplitFinder.make] in Hfind.
  pose proof (findBestSplit_exact data rowLength labels indices
                (nodeMetric (criterion_ this) labels indices) (criterion_ this)) as HQ.
  rewrite Hfind in HQ.
  destruct HQ as [HQ|(HfL & HfR & Hg)].
  { injection HQ as -> _ _. discriminate. }
  cbn [fst snd] in HfL, HfR, Hg.
  destruct (std_partition_spec (SingleTreeTrainer.goes_left data rowLength f t) indices)
    as (HP & _ & HL & HR).
  fold indices' in HP, HL, HR. fold leftSize in HL, HR.
  rewrite <- (firstn_skipn leftSize indices') in HP.
  destruct (sides_are_filters _ HP HL HR) as [PL PR].
  split.
  { intros E. rewrite E in PL. apply Permutation_nil in PL. contradiction. }
  split.
  { intros E. rewrite E in PR. apply Permutation_nil in PR. contradiction. }
  intros Hml Hsl Hmr Hsr. rewrite Hml, Hsl, Hmr, Hsr, MSE, Hg.
  cbn [nodeMetric MSECriterion.make]. unfold MSE_reduction. cbv zeta.
  rewrite (MSE_perm labels PL), (MSE_perm labels PR).
  rewrite (Permutation_length PL), (Permutation_length PR).
  reflexivity.
Qed.

Lemma grown_positive_gain (fuel : nat) :
  forall (node : Node R) (indices : list nat) (depth : Z),
    fuel = Z.to_nat (maxDepth_ this - depth) ->
    positive_gain (SingleTreeTrainer.splitNodeOptimized_rec this data rowLength labels
                                                            fuel node indices depth).
Proof.
  induction fuel as [|fuel IH]; intros node indices depth Hfuel;
    (destruct indices as [|i0 rest]; [exact I|]);
    cbn [SingleTreeTrainer.splitNodeOptimized_rec]; cbv zeta.
  all: destruct (SingleTreeTrainer.stop_before_split this (i0 :: rest) depth) eqn:Hstop;
    [exact I|].
  all: destruct (findBestSplit _ _ _ _ _ _ _) as [[f t] g] eqn:Hfind.
  all: destruct (_ || _) eqn:Hfg; [exact I|].
  all: destruct (SingleTreeTrainer.below_minGain this g); [exact I|].
  all: pose proof (fun l r => @accepted_split_gain (i0 :: rest) f t g l r) as Hgain.
  all: destruct (std_partition _ _) as [indices' leftSize]; cbn [fst snd] in Hgain.
  all: destruct (SingleTreeTrainer.too_small this leftSize || _); [exact I|].
  all: unfold SingleTreeTrainer.stop_before_split in Hstop.
  all: apply orb_false_iff in Hstop; destruct Hstop as [Hstop _].
  all: apply orb_false_iff in Hstop; destruct Hstop as [Hdepth _].
  all: pose proof (fuel_step _ _ Hdepth) as Hstep.
  - lia.
  - assert (Hf' : fuel = Z.to_nat (maxDepth_ this - (depth + 1))) by lia.
    apply orb_false_iff in Hfg. destruct Hfg as [Hf Hg].
    rewrite metric_set in Hfind.
    set (l := SingleTreeTrainer.splitNodeOptimized_rec this data rowLength labels fuel
                newNode (firstn leftSize indices') (depth + 1)).
    set (r := SingleTreeTrainer.splitNodeOptimized_rec this data rowLength labels fuel
                newNode (skipn leftSize indices') (depth + 1)).
    destruct (Hgain l r Hfind Hf) as (HneL & HneR & Heq).
    destruct (@splitNodeOptimized_rec_metric fuel newNode _ (depth + 1)%Z HneL) as [Hml Hsl].
    destruct (@splitNodeOptimized_rec_metric fuel newNode _ (depth + 1)%Z HneR) as [Hmr Hsr].
    specialize (Heq Hml Hsl Hmr Hsr).
    cbn [positive_gain set_children makeInternal set_samples set_metric
         isLeaf samples metric leftChild rightChild info].
    split; [cbn; lia|].
    split.
    + unfold node_gain.
      cbn [set_children makeInternal set_samples set_metric
           isLeaf samples metric leftChild rightChild info].
      cbn [dsub dadd dmul ddiv Double_R]. 
      fold l r. rewrite Heq.
      apply Rltb_true. apply Rleb_false in Hg. exact Hg.
    + split; [apply IH; exact Hf'|apply IH; exact Hf'].
Qed.

End ExactGrowth.

Section ExactTaskGrowth.
Variable this : SingleTreeTrainer R.
Variables (data : list R) (rowLength : Z) (labels : list R).
Hypothesis exhaustive : finder_ this = ExhaustiveSplitFinder.make.
Hypothesis MSE : criterion_ this = MSECriterion.make.

Lemma task_tree_positive_gain (k : nat) :
  forall (node : Node R) (indices : list nat) (depth : Z),
    k = Z.to_nat (maxDepth_ this - depth) ->
    positive_gain (task_tree this data rowLength labels node indices depth).
Proof.
  induction k as [|k IH]; intros node indices depth Hk;
    destruct (task_tree_split this data rowLength labels node indices depth)
      as [(Hl & _)|(node0 & f & t & (Hd & _ & _ & Hs0 & ->) & Hm
                    & g & Hfind & Hf & Hg)].
  - destruct (task_tree _ _ _ _ _ _ _) as [b s m i l r]. cbn in *. subst b. exact I.
  - apply Z.leb_gt in Hd. lia.
  - destruct (task_tree _ _ _ _ _ _ _) as [b s m i l r]. cbn in *. subst b. exact I.
  - apply Z.leb_gt in Hd.
    assert (Hk' : k = Z.to_nat (maxDepth_ this - (depth + 1))) by lia.
    rewrite exhaustive in Hfind. cbn [findBestSplit ExhaustiveSplitFinder.make] in Hfind.
    pose proof (findBestSplit_exact data rowLength labels indices
                  (nodeMetric (criterion_ this) labels indices) (criterion_ this)) as HQ.
    rewrite Hfind in HQ.
    destruct HQ as [HQ|(HfL & HfR & Hgain)].
    { injection HQ as -> _ _. discriminate. }
    cbn [fst snd] in HfL, HfR, Hgain.
    unfold SingleTreeTrainer.split_indices.
    rewrite (fold_split_filter (SingleTreeTrainer.goes_left data rowLength f t)).
    cbn [fst snd app]. unfold queue_child.
    destruct (filter (SingleTreeTrainer.goes_left data rowLength f t) indices)
      as [|l0 l] eqn:El; [congruence|].
    destruct (filter (fun i => negb (SingleTreeTrainer.goes_left data rowLength f t i)) indices)
      as [|r0 r] eqn:Er; [congruence|].
    destruct (@task_tree_metric _ _ this data rowLength labels newNode (l0 :: l)
                (depth + 1)%Z ltac:(discriminate)) as [Hml Hsl].
    destruct (@task_tree_metric _ _ this data rowLength labels newNode (r0 :: r)
                (depth + 1)%Z ltac:(discriminate)) as [Hmr Hsr].
    cbn [positive_gain set_children makeInternal isLeaf samples metric leftChild rightChild info].
    assert (Hi : indices <> []) by (intros ->; discriminate).
    split; [rewrite Hs0; destruct indices; [congruence|cbn; lia]|].
    split.
    + unfold node_gain.
      cbn [set_children makeInternal isLeaf samples metric leftChild rightChild info].
      rewrite Hml, Hsl, Hmr, Hsr, Hm, Hs0, MSE. cbn [nodeMetric MSECriterion.make].
      unfold MSE_reduction in Hgain. cbv zeta in Hgain. rewrite El, Er in Hgain.
      cbn [dsub dadd dmul ddiv Double_R]. rewrite <- Hgain.
      apply Rltb_true. apply Rleb_false in Hg. exact Hg.
    + split; apply IH; exact Hk'.
Qed.

End ExactTaskGrowth.

(** ** Growth does not look at a post-pruner *)

Section GrowthIgnoresPruner.
Context {D : Type} {HD : Double D}.
Variables (this this' : SingleTreeTrainer D).
Variables (data : list D) (rowLength : Z) (labels : list D).
Hypothesis same_maxDepth : maxDepth_ this = maxDepth_ this'.
Hypothesis same_minSamplesLeaf : minSamplesLeaf_ this = minSamplesLeaf_ this'.
Hypothesis same_finder : finder_ this = finder_ this'.
Hypothesis same_criterion : criterion_ this = criterion_ this'.
Hypothesis same_minGain :
  forall g : D,
    SingleTreeTrainer.below_minGain this g = SingleTreeTrainer.below_minGain this' g.

Lemma stop_before_split_same (indices : list nat) (depth : Z) :
  SingleTreeTrainer.stop_before_split this indices depth
  = SingleTreeTrainer.stop_before_split this' indices depth.
Proof.
  unfold SingleTreeTrainer.stop_before_split.
  rewrite same_maxDepth, same_minSamplesLeaf. reflexivity.
Qed.

Lemma too_small_same (size : nat) :
  SingleTreeTrainer.too_small this size = SingleTreeTrainer.too_small this' size.
Proof. unfold SingleTreeTrainer.too_small. rewrite same_minSamplesLeaf. reflexivity. Qed.

Lemma splitNodeOptimized_rec_same (fuel : nat) :
  forall (node : Node D) (indices : list nat) (depth : Z),
    SingleTreeTrainer.splitNodeOptimized_rec this data rowLength labels fuel node indices depth
    = SingleTreeTrainer.splitNodeOptimized_rec this' data rowLength labels fuel node indices depth.
Proof.
  induction fuel as [|fuel IH]; intros node indices depth;
    (destruct indices as [|i0 rest]; [reflexivity|]);
    cbn [SingleTreeTrainer.splitNodeOptimized_rec]; cbv zeta.
  all: rewrite <- stop_before_split_same, <- same_finder, <- same_criterion.
  all: destruct (SingleTreeTrainer.stop_before_split this (i0 :: rest) depth); [reflexivity|].
  all: destruct (findBestSplit _ _ _ _ _ _ _) as [[f t] g].
  all: destruct (_ || _); [reflexivity|].
  all: rewrite <- same_minGain.
  all: destruct (SingleTreeTrainer.below_minGain this g); [reflexivity|].
  all: destruct (std_partition _ _) as [indices' leftSize].
  all: rewrite <- !too_small_same.
  all: destruct (SingleTreeTrainer.too_small this leftSize || _); [reflexivity|].
  - reflexivity.
  - rewrite !IH. reflexivity.
Qed.

Lemma processNode_same (node : Node D) (indices : list nat) (depth : Z) :
  SingleTreeTrainer.processNode this data rowLength labels node indices depth
  = SingleTreeTrainer.processNode this' data rowLength labels node indices depth.
Proof.
  unfold SingleTreeTrainer.processNode.
  destruct indices as [|i0 rest]; [reflexivity|]. cbv zeta.
  rewrite <- stop_before_split_same, <- same_finder, <- same_criterion.
  destruct (SingleTreeTrainer.stop_before_split this (i0 :: rest) depth); [reflexivity|].
  destruct (findBestSplit _ _ _ _ _ _ _) as [[f t] g].
  destruct (_ || _); [reflexivity|].
  rewrite <- same_minGain.
  destruct (SingleTreeTrainer.below_minGain this g); [reflexivity|].
  destruct (SingleTreeTrainer.split_indices _ _ _ _ _) as [l r].
  rewrite <- !too_small_same. reflexivity.
Qed.

Lemma workers_same (fuel : nat) :
  forall (root : Node D) (taskQueue : list SplitTask),
    SingleTreeTrainer.workers this data rowLength labels fuel root taskQueue
    = SingleTreeTrainer.workers this' data rowLength labels fuel root taskQueue.
Proof.
  induction fuel as [|fuel IH]; intros root taskQueue; [reflexivity|].
  destruct taskQueue as [|task rest]; [reflexivity|].
  cbn [SingleTreeTrainer.workers]. unfold SingleTreeTrainer.processTask.
  destruct (SingleTreeTrainer.node_at (task_node task) root) as [node|]; [|apply IH].
  rewrite <- processNode_same.
  destruct (SingleTreeTrainer.processNode this data rowLength labels node _ _) as [n pushed].
  apply IH.
Qed.

Lemma grown_root_same (numThreads : Z) :
  (if (1000 <? length labels)%nat && (1 <? numThreads)%Z
   then SingleTreeTrainer.buildTreeWithTaskQueue this data rowLength labels newNode
                                                 (seq 0 (length labels))
   else SingleTreeTrainer.splitNodeOptimized this data rowLength labels newNode
                                             (seq 0 (length labels)) 0)
  = (if (1000 <? length labels)%nat && (1 <? numThreads)%Z
     then SingleTreeTrainer.buildTreeWithTaskQueue this' data rowLength labels newNode
                                                   (seq 0 (length labels))
     else SingleTreeTrainer.splitNodeOptimized this' data rowLength labels newNode
                                               (seq 0 (length labels)) 0).
Proof.
  destruct (_ && _).
  - unfold SingleTreeTrainer.buildTreeWithTaskQueue, SingleTreeTrainer.task_budget.
    rewrite workers_same, same_maxDepth. reflexivity.
  - unfold SingleTreeTrainer.splitNodeOptimized.
    rewrite splitNodeOptimized_rec_same, same_maxDepth. reflexivity.
Qed.

End GrowthIgnoresPruner.

(** ** The exhaustive finder, the MSE criterion and cost-complexity
    pruning with alpha = 0 *)

Lemma grown_root_positive_gain (this : SingleTreeTrainer R)
      (data : list R) (rowLength : Z) (labels : list R) (numThreads : Z) :
  finder_ this = ExhaustiveSplitFinder.make ->
  criterion_ this = MSECriterion.make ->
  positive_gain
    (if (1000 <? length labels)%nat && (1 <? numThreads)%Z
     then SingleTreeTrainer.buildTreeWithTaskQueue this data rowLength labels newNode
                                                   (seq 0 (length labels))
     else SingleTreeTrainer.splitNodeOptimized this data rowLength labels newNode
                                               (seq 0 (length labels)) 0).
Proof.
  intros Hf Hc. destruct (_ && _).
  - rewrite buildTreeWithTaskQueue_task_tree.
    now apply (@task_tree_positive_gain this data rowLength labels Hf Hc _ _ _ _ eq_refl).
  - now apply (@grown_positive_gain this data rowLength labels Hf Hc _ _ _ _ eq_refl).
Qed.



(** ** The error of a tree on its training set *)

Lemma fold_sum_congr (g h : nat -> R) (l : list nat) :
  (forall i, In i l -> g i = h i) ->
  forall s : R,
    fold_left (fun s i => (s + g i)%R) l s = fold_left (fun s i => (s + h i)%R) l s.
Proof.
  induction l as [|i l IH]; intros Hgh s; [reflexivity|].
  cbn [fold_left]. rewrite (Hgh i) by now left.
  apply IH. intros j Hj. apply Hgh. now right.
Qed.

Section SquaredErrorOfMSE.
Variable labels : list R.

(** The squared deviations from the mean add up to the MSE times the
    number of samples. *)
Lemma deviations_are_MSE (S : list nat) :
  S <> [] ->
  fold_left (fun s i => (s + (at_nat labels i - mean labels S)
                             * (at_nat labels i - mean labels S))%R) S 0%R
  = (MSECriterion.nodeMetric labels S * IZR (Z.of_nat (length S)))%R.
Proof.
  intros Hne.
  assert (Hn : (0 < IZR (Z.of_nat (length S)))%R).
  { apply IZR_lt. destruct S; [congruence|cbn; lia]. }
  rewrite (MSE_is_variance labels Hne). unfold variance. field. lra.
Qed.

(** A split never raises the total squared error. *)
Lemma split_never_hurts (S L Rr : list nat) :
  Permutation (L ++ Rr) S ->
  (MSECriterion.nodeMetric labels L * IZR (Z.of_nat (length L))
   + MSECriterion.nodeMetric labels Rr * IZR (Z.of_nat (length Rr))
   <= MSECriterion.nodeMetric labels S * IZR (Z.of_nat (length S)))%R.
Proof.
  intros HP. rewrite <- (MSE_perm labels HP), <- (Permutation_length HP).
  destruct L as [|l0 L].
  { cbn [app length MSECriterion.nodeMetric]. cbn. lra. }
  destruct Rr as [|r0 Rr].
  { rewrite app_nil_r. cbn [length MSECriterion.nodeMetric]. cbn. lra. }
  rewrite (@MSE_closed labels (l0 :: L)) by discriminate.
  rewrite (@MSE_closed labels (r0 :: Rr)) by discriminate.
  rewrite (@MSE_closed labels ((l0 :: L) ++ r0 :: Rr)) by discriminate.
  rewrite (fold_sum_app (fun i => at_nat labels i)).
  rewrite (fold_sum_app (fun i => (at_nat labels i * at_nat labels i)%R)).
  rewrite length_app, Nat2Z.inj_add, plus_IZR.
  assert (HnL : (0 < IZR (Z.of_nat (length (l0 :: L))))%R) by (apply IZR_lt; cbn; lia).
  assert (HnR : (0 < IZR (Z.of_nat (length (r0 :: Rr))))%R) by (apply IZR_lt; cbn; lia).
  remember (IZR (Z.of_nat (length (l0 :: L)))) as nL.
  remember (IZR (Z.of_nat (length (r0 :: Rr)))) as nR.
  remember (fold_left (fun s i => (s + at_nat labels i)%R) (l0 :: L) 0%R) as a.
  remember (fold_left (fun s i => (s + at_nat labels i)%R) (r0 :: Rr) 0%R) as b.
  remember (fold_left (fun s i => (s + at_nat labels i * at_nat labels i)%R) (l0 :: L) 0%R)
    as qa.
  remember (fold_left (fun s i => (s + at_nat labels i * at_nat labels i)%R) (r0 :: Rr) 0%R)
    as qb.
  clear - HnL HnR.
  assert (Hx : a = (a / nL * nL)%R) by (field; lra).
  assert (Hy : b = (b / nR * nR)%R) by (field; lra).
  remember (a / nL)%R as x. remember (b / nR)%R as y.
  replace ((a + b) / (nL + nR))%R with ((x * nL + y * nR) / (nL + nR))%R
    by (rewrite Hx, Hy; reflexivity).
  replace ((qa / nL - x * x) * nL)%R with (qa - x * x * nL)%R by (field; lra).
  replace ((qb / nR - y * y) * nR)%R with (qb - y * y * nR)%R by (field; lra).
  replace (((qa + qb) / (nL + nR)
            - (x * nL + y * nR) / (nL + nR) * ((x * nL + y * nR) / (nL + nR)))
           * (nL + nR))%R
    with (qa + qb - (x * nL + y * nR) * (x * nL + y * nR) / (nL + nR))%R by (field; lra).
  assert (Hcs : ((x * nL + y * nR) * (x * nL + y * nR) / (nL + nR)
                 <= x * x * nL + y * y * nR)%R).
  { apply (Rmult_le_reg_r (nL + nR)); [lra|].
    replace ((x * nL + y * nR) * (x * nL + y * nR) / (nL + nR) * (nL + nR))%R
      with ((x * nL + y * nR) * (x * nL + y * nR))%R by (field; lra).
    pose proof (Rle_0_sqr (x - y)) as Hsq. unfold Rsqr in Hsq.
    assert (Hp : (0 <= nL * nR * ((x - y) * (x - y)))%R).
    { apply Rmult_le_pos; [apply Rmult_le_pos; lra|exact Hsq]. }
    lra. }
  lra.
Qed.

End SquaredErrorOfMSE.

Section TrainingError.
Context {HU : UnionLayout R}.
Variable this : SingleTreeTrainer R.
Variables (data : list R) (rowLength : Z) (labels : list R).
Hypothesis MSE : criterion_ this = MSECriterion.make.

Lemma squared_error_leaf (node : Node R) (S : list nat) :
  S <> [] ->
  let n := makeLeaf (set_samples (set_metric node (nodeMetric (criterion_ this) labels S))
                                 (length S))
                    (sum_labels labels S / of_size (length S))%dbl
                    (sum_labels labels S / of_size (length S))%dbl in
  squared_error data rowLength labels n S = leaf_error n
  /\ (leaf_error n <= MSECriterion.nodeMetric labels S * IZR (Z.of_nat (length S)))%R.
Proof.
  intros Hne n. subst n. rewrite MSE. cbn [nodeMetric MSECriterion.make].
  unfold squared_error.
  cbn [SingleTreeTrainer.predict_from makeLeaf set_samples set_metric isLeaf samples metric
       getPrediction leaf_prediction info leaf_error].
  fold (mean labels S). rewrite (deviations_are_MSE labels Hne).
  split; [reflexivity|]. unfold of_size. cbn [of_Z dmul Double_R]. lra.
Qed.

Lemma squared_error_split (node l r : Node R) (f : Z) (t : R) (S L Rr : list nat) :
  Permutation (L ++ Rr) S ->
  Forall (fun i => SingleTreeTrainer.goes_left data rowLength f t i = true) L ->
  Forall (fun i => SingleTreeTrainer.goes_left data rowLength f t i = false) Rr ->
  squared_error data rowLength labels
                (set_children (makeInternal node f t) (Some l) (Some r)) S
  = (squared_error data rowLength labels l L + squared_error data rowLength labels r Rr)%R.
Proof.
  intros HP HL HR. unfold squared_error.
  rewrite <- (fold_sum_perm
                (fun i => ((at_nat labels i
                            - SingleTreeTrainer.predict_from data (Z.of_nat i * rowLength)
                                (set_children (makeInternal node f t) (Some l) (Some r)))
                           * (at_nat labels i
                              - SingleTreeTrainer.predict_from data (Z.of_nat i * rowLength)
                                  (set_children (makeInternal node f t) (Some l) (Some r))))%R)
                HP).
  rewrite fold_sum_app. f_equal.
  - apply fold_sum_congr. intros i Hi. rewrite predict_from_internal.
    rewrite Forall_forall in HL. rewrite (HL i Hi). reflexivity.
  - apply fold_sum_congr. intros i Hi. rewrite predict_from_internal.
    rewrite Forall_forall in HR. rewrite (HR i Hi). reflexivity.
Qed.

Lemma grown_squared_error (fuel : nat) :
  forall (indices : list nat) (depth : Z),
    fuel = Z.to_nat (maxDepth_ this - depth) ->
    let n := SingleTreeTrainer.splitNodeOptimized_rec this data rowLength labels
                                                      fuel newNode indices depth in
    squared_error data rowLength labels n indices = leaf_error n
    /\ (leaf_error n
        <= MSECriterion.nodeMetric labels indices * IZR (Z.of_nat (length indices)))%R.
Proof.
  induction fuel as [|fuel IH]; intros indices depth Hfuel;
    (destruct indices as [|i0 rest]; [cbn; split; lra|]);
    cbn [SingleTreeTrainer.splitNodeOptimized_rec]; cbv zeta.
  all: destruct (SingleTreeTrainer.stop_before_split this (i0 :: rest) depth) eqn:Hstop;
    [apply squared_error_leaf; discriminate|].
  all: destruct (findBestSplit _ _ _ _ _ _ _) as [[f t] g].
  all: destruct (_ || _); [apply squared_error_leaf; discriminate|].
  all: destruct (SingleTreeTrainer.below_minGain this g);
    [apply squared_error_leaf; discriminate|].
  all: pose proof (std_partition_spec (SingleTreeTrainer.goes_left data rowLength f t)
                                      (i0 :: rest)) as (HP & _ & HL & HR).
  all: destruct (std_partition _ _) as [indices' leftSize]; cbn [fst snd] in HP, HL, HR.
  all: destruct (SingleTreeTrainer.too_small this leftSize || _);
    [apply squared_error_leaf; discriminate|].
  all: unfold SingleTreeTrainer.stop_before_split in Hstop.
  all: apply orb_false_iff in Hstop; destruct Hstop as [Hstop _].
  all: apply orb_false_iff in Hstop; destruct Hstop as [Hdepth _].
  all: pose proof (fuel_step _ _ Hdepth) as Hstep.
  - lia.
  - assert (Hf' : fuel = Z.to_nat (maxDepth_ this - (depth + 1))) by lia.
    rewrite <- (firstn_skipn leftSize indices') in HP.
    destruct (IH (firstn leftSize indices') (depth + 1)%Z Hf') as [El Ll].
    destruct (IH (skipn leftSize indices') (depth + 1)%Z Hf') as [Er Lr].
    rewrite (@squared_error_split _ _ _ _ _ _ _ _ HP HL HR), El, Er.
    cbn [leaf_error set_children makeInternal isLeaf leftChild rightChild].
    split; [reflexivity|].
    pose proof (@split_never_hurts labels _ _ _ HP) as Hs.
    cbn [dadd Double_R]. lra.
Qed.

Lemma task_squared_error (k : nat) :
  forall (indices : list nat) (depth : Z),
    k = Z.to_nat (maxDepth_ this - depth) ->
    let n := task_tree this data rowLength labels newNode indices depth in
    squared_error data rowLength labels n indices = leaf_error n
    /\ (leaf_error n
        <= MSECriterion.nodeMetric labels indices * IZR (Z.of_nat (length indices)))%R.
Proof.
  assert (Hleaf : forall indices depth,
             task_tree this data rowLength labels newNode indices depth
             = fst (SingleTreeTrainer.processNode this data rowLength labels
                                                  newNode indices depth) ->
             isLeaf (task_tree this data rowLength labels newNode indices depth) = true ->
             let n := task_tree this data rowLength labels newNode indices depth in
             squared_error data rowLength labels n indices = leaf_error n
             /\ (leaf_error n
                 <= MSECriterion.nodeMetric labels indices
                    * IZR (Z.of_nat (length indices)))%R).
  { intros indices depth -> Hl. revert Hl. unfold SingleTreeTrainer.processNode.
    destruct indices as [|i0 rest]; [intros _; cbn; split; lra|]. cbv zeta.
    destruct (SingleTreeTrainer.stop_before_split this (i0 :: rest) depth);
      [intros _; apply squared_error_leaf; discriminate|].
    destruct (findBestSplit _ _ _ _ _ _ _) as [[f t] g].
    destruct (_ || _); [intros _; apply squared_error_leaf; discriminate|].
    destruct (SingleTreeTrainer.below_minGain this g);
      [intros _; apply squared_error_leaf; discriminate|].
    destruct (SingleTreeTrainer.split_indices _ _ _ _ _) as [l r].
    destruct (_ || _); [intros _; apply squared_error_leaf; discriminate|].
    cbn. discriminate. }
  induction k as [|k IH]; intros indices depth Hk;
    destruct (task_tree_split this data rowLength labels newNode indices depth)
      as [(Hl & Hn & _)|(node0 & f & t & (Hd & _ & _ & _ & Hn) & _)].
  - now apply Hleaf.
  - apply Z.leb_gt in Hd. lia.
  - now apply Hleaf.
  - apply Z.leb_gt in Hd.
    assert (Hk' : k = Z.to_nat (maxDepth_ this - (depth + 1))) by lia.
    cbv zeta. rewrite Hn. clear Hn.
    pose proof (split_indices_partitions data rowLength f t indices) as (HP & _).
    unfold SingleTreeTrainer.split_indices in *.
    rewrite (fold_split_filter (SingleTreeTrainer.goes_left data rowLength f t)) in *.
    cbn [fst snd app] in *.
    assert (HL : Forall (fun i => SingleTreeTrainer.goes_left data rowLength f t i = true)
                        (filter (SingleTreeTrainer.goes_left data rowLength f t) indices)).
    { apply Forall_forall. intros i Hi. apply filter_In in Hi. apply Hi. }
    assert (HR : Forall (fun i => SingleTreeTrainer.goes_left data rowLength f t i = false)
                        (filter (fun i => negb (SingleTreeTrainer.goes_left data rowLength f t i))
                                indices)).
    { apply Forall_forall. intros i Hi. apply filter_In in Hi.
      destruct Hi as [_ Hi]. now apply negb_true_iff in Hi. }
    assert (Hc : forall side,
               squared_error data rowLength labels
                 (queue_child this data rowLength labels side depth) side
               = leaf_error (queue_child this data rowLength labels side depth)
               /\ (leaf_error (queue_child this data rowLength labels side depth)
                   <= MSECriterion.nodeMetric labels side
                      * IZR (Z.of_nat (length side)))%R).
    { intros [|s0 side]; [cbn; split; lra|]. now apply IH. }
    destruct (Hc (filter (SingleTreeTrainer.goes_left data rowLength f t) indices))
      as [El Ll].
    destruct (Hc (filter (fun i => negb (SingleTreeTrainer.goes_left data rowLength f t i))
                         indices)) as [Er Lr].
    rewrite (@squared_error_split _ _ _ _ _ _ _ _ HP HL HR), El, Er.
    cbn [leaf_error set_children makeInternal isLeaf leftChild rightChild].
    split; [reflexivity|].
    pose proof (@split_never_hurts labels _ _ _ HP) as Hs.
    cbn [dadd Double_R]. lra.
Qed.

Lemma evaluate_is_squared_error (t : SingleTreeTrainer R) (root : Node R) :
  root_ t = Some root ->
  fst (SingleTreeTrainer.evaluate t data rowLength labels)
  = (squared_error data rowLength labels root (seq 0 (length labels))
     / IZR (Z.of_nat (length labels)))%R.
Proof.
  intros Hroot. unfold SingleTreeTrainer.evaluate, SingleTreeTrainer.predict, squared_error.
  rewrite Hroot. cbv zeta.
  assert (Hfold : forall l a b,
             fst (fold_left
                    (fun '(mse, mae) i =>
                       ((mse + (at_nat labels i
                                - SingleTreeTrainer.predict_from data (Z.of_nat i * rowLength)
                                    root)
                               * (at_nat labels i
                                  - SingleTreeTrainer.predict_from data
                                      (Z.of_nat i * rowLength) root))%dbl,
                        (mae + dabs (at_nat labels i
                                     - SingleTreeTrainer.predict_from data
                                         (Z.of_nat i * rowLength) root))%dbl))
                    l (a, b))
             = fold_left
                 (fun s i =>
                    (s + (at_nat labels i
                          - SingleTreeTrainer.predict_from data (Z.of_nat i * rowLength) root)
                         * (at_nat labels i
                            - SingleTreeTrainer.predict_from data (Z.of_nat i * rowLength)
                                root))%R)
                 l a).
  { induction l as [|i l IH]; intros a b; [reflexivity|]. cbn [fold_left]. apply IH. }
  specialize (Hfold (seq 0 (length labels)) zero zero).
  destruct (fold_left _ (seq 0 (length labels)) (zero, zero)) as [mse mae].
  cbn [fst] in *. rewrite Hfold. reflexivity.
Qed.

End TrainingError.

Lemma trained_squared_error (HU : UnionLayout R) (maxDepth minSamplesLeaf : Z)
      (finder : ISplitFinder R) (minGain : option R)
      (data : list R) (rowLength : Z) (labels : list R) (numThreads : Z) :
  let pruner := match minGain with
                | Some g => MinGainPrePruner g
                | None => NoPruner
                end in
  let this := mkTrainer maxDepth minSamplesLeaf finder MSECriterion.make pruner None in
  exists t root,
    SingleTreeTrainer.train this data rowLength labels numThreads = Ok t
    /\ root_ t = Some root
    /\ squared_error data rowLength labels root (seq 0 (length labels)) = leaf_error root
    /\ (leaf_error root
        <= MSECriterion.nodeMetric labels (seq 0 (length labels))
           * IZR (Z.of_nat (length labels)))%R.
Proof.
  intros pruner this. unfold SingleTreeTrainer.train. cbv zeta.
  set (root := if (1000 <? length labels)%nat && (1 <? numThreads)%Z then _ else _).
  assert (Hroot : squared_error data rowLength labels root (seq 0 (length labels))
                  = leaf_error root
                  /\ (leaf_error root
                      <= MSECriterion.nodeMetric labels (seq 0 (length labels))
                         * IZR (Z.of_nat (length (seq 0 (length labels)))))%R).
  { subst root. destruct (_ && _).
    - rewrite buildTreeWithTaskQueue_task_tree.
      now apply (@task_squared_error HU this data rowLength labels eq_refl _ _ _ eq_refl).
    - now apply (@grown_squared_error HU this data rowLength labels eq_refl _ _ _ eq_refl). }
  rewrite length_seq in Hroot.
  assert (Hprune : prune (pruner_ this) (Some root) = Ok (Some root)).
  { subst this pruner. destruct minGain; reflexivity. }
  rewrite Hprune. cbn [bind].
  eexists. exists root. split; [reflexivity|]. split; [reflexivity|]. exact Hroot.
Qed.



